(** * encneg: content-encoding negotiation for a static file server

    A shallow embedding of the Go packages [net/http/encneg] and
    [net/http/testhandlers] of go.ltgt.net, together with the part of the
    Go standard library they are written against ([strings], [path],
    [path/filepath], [net/textproto]'s canonical header keys,
    [time.ParseDuration], and [net/http]'s [Header], [Request],
    [ResponseWriter] and [Handler]).

    Go strings are byte sequences: they are [string]s here (sequences of
    8-bit [ascii]); [[]byte] is [list byte]; Go [int]s are [Z].  A method
    with a pointer receiver returns the updated receiver. *)

From Stdlib Require Import ZArith Lia Bool Ascii Strings.Byte.
From stdpp Require Import base option list strings pretty gmap fin_maps.

Local Open Scope Z_scope.

(** ** The [strings] package *)

Module strings.

(** [len(s)] *)
Definition len (s : string) : Z := Z.of_nat (String.length s).

(** [strings.HasPrefix(s, prefix)] *)
Fixpoint HasPrefix (s prefix : string) : bool :=
  match prefix, s with
  | EmptyString, _ => true
  | String _ _, EmptyString => false
  | String a prefix', String b s' => Ascii.eqb a b && HasPrefix s' prefix'
  end.

(** [strings.HasSuffix(s, suffix)]:
    [len(s) >= len(suffix) && s[len(s)-len(suffix):] == suffix] *)
Definition HasSuffix (s suffix : string) : bool :=
  (String.length suffix <=? String.length s)%nat &&
  String.eqb
    (String.substring (String.length s - String.length suffix)
                      (String.length suffix) s)
    suffix.

(** [strings.Index(s, substr)]: the index of the first instance of
    [substr] in [s], or [-1] if [substr] is not present in [s]. *)
Fixpoint Index (s substr : string) : Z :=
  if HasPrefix s substr then 0
  else match s with
       | EmptyString => -1
       | String _ s' =>
           let i := Index s' substr in
           if i <? 0 then -1 else i + 1
       end.

(** [strings.IndexByte(s, c)] *)
Fixpoint IndexByte (s : string) (c : Ascii.ascii) : Z :=
  match s with
  | EmptyString => -1
  | String b s' =>
      if Ascii.eqb b c then 0
      else let i := IndexByte s' c in
           if i <? 0 then -1 else i + 1
  end.

(** The byte [s[i]]; Go panics when [i] is out of range, which is [None]
    here. *)
Definition at_ (s : string) (i : Z) : option Ascii.ascii :=
  if i <? 0 then None else String.get (Z.to_nat i) s.

(** The slices [s[:m]] and [s[m:]], for [0 <= m <= len(s)]. *)
Definition upto (m : nat) (s : string) : string := String.substring 0 m s.

Definition from (m : nat) (s : string) : string :=
  String.substring m (String.length s - m) s.

(** The loop of [genSplit] for a separator that is not empty: up to [n]
    times, the string is cut at the first instance of [sep];
    what is left is the last piece. *)
Fixpoint genSplit_loop (n : nat) (s sep : string) : list string :=
  match n with
  | O => [s]
  | S n' =>
      let m := Index s sep in
      if m <? 0 then [s]
      else upto (Z.to_nat m) s
             :: genSplit_loop n' (from (Z.to_nat m + String.length sep) s) sep
  end.

(** [strings.SplitN(s, sep, n)] for a separator that is not empty (the
    one call in the packages passes [":"]): at most [n] pieces for
    [n > 0], all of them for [n < 0], and [nil] for [n == 0].  A cut
    removes at least one byte, so [len(s)] cuts are all there can be. *)
Definition SplitN (s sep : string) (n : Z) : list string :=
  if n =? 0 then []
  else genSplit_loop (if n <? 0 then String.length s else Z.to_nat (n - 1)) s sep.

End strings.

(** ** The [path/filepath] package *)

Module filepath.

(** The loop of [filepath.Ext], which walks [path] from its last byte
    towards the first one: [rest] holds the bytes still to visit, last
    byte first, and [acc] the bytes already passed, so that [c :: acc]
    is [path[i:]]. *)
Fixpoint Ext_loop (rest : list Ascii.ascii) (acc : string) : string :=
  match rest with
  | [] => ""
  | c :: rest' =>
      if Ascii.eqb c "/" then ""
      else if Ascii.eqb c "." then String c acc
      else Ext_loop rest' (String c acc)
  end.

(** [filepath.Ext(path)]: the suffix beginning at the final dot in the
    final slash-separated element of [path]; empty if there is no dot. *)
Definition Ext (path : string) : string :=
  Ext_loop (rev (String.list_ascii_of_string path)) "".

End filepath.

(** ** The [path] package *)

Module path.

Fixpoint dropSlashes (rest : list Ascii.ascii) : list Ascii.ascii :=
  match rest with
  | c :: rest' => if Ascii.eqb c "/" then dropSlashes rest' else rest
  | [] => []
  end.

Fixpoint lastElement (rest : list Ascii.ascii) (acc : string) : string :=
  match rest with
  | c :: rest' => if Ascii.eqb c "/" then acc else lastElement rest' (String c acc)
  | [] => acc
  end.

(** [path.Base(path)]: the last element of [path], trailing slashes
    removed; ["."] for the empty path and ["/"] for a path of slashes.
    The bytes are visited from the last one on, as in [filepath.Ext]. *)
Definition Base (p : string) : string :=
  if decide (p = "") then "."
  else
    let e := lastElement (dropSlashes (rev (String.list_ascii_of_string p))) "" in
    if decide (e = "") then "/" else e.

End path.

(** ** The [net/textproto] package: canonical header keys *)

Module textproto.

Definition isLower (c : Ascii.ascii) : bool :=
  (97 <=? nat_of_ascii c)%nat && (nat_of_ascii c <=? 122)%nat.

Definition isUpper (c : Ascii.ascii) : bool :=
  (65 <=? nat_of_ascii c)%nat && (nat_of_ascii c <=? 90)%nat.

Definition isDigit (c : Ascii.ascii) : bool :=
  (48 <=? nat_of_ascii c)%nat && (nat_of_ascii c <=? 57)%nat.

(** [validHeaderFieldByte]: the bytes of a token of RFC 7230
    ([isTokenTable]). *)
Definition validHeaderFieldByte (c : Ascii.ascii) : bool :=
  isLower c || isUpper c || isDigit c ||
  existsb (Ascii.eqb c) (String.list_ascii_of_string "!#$%&'*+-.^_`|~").

(** [const toLower = 'a' - 'A'] *)
Definition toLower : nat := 32.

(** The second loop of [canonicalMIMEHeaderKey]: the first letter and
    every letter after a dash in upper case, the others in lower case. *)
Fixpoint canonicalize (upper : bool) (a : string) : string :=
  match a with
  | EmptyString => EmptyString
  | String c a' =>
      let c' :=
        if upper && isLower c then ascii_of_nat (nat_of_ascii c - toLower)
        else if negb upper && isUpper c
        then ascii_of_nat (nat_of_ascii c + toLower)
        else c in
      String c' (canonicalize (Ascii.eqb c' "-") a')
  end.

(** [func canonicalMIMEHeaderKey(a []byte) string]: a key with a byte
    that is not a token byte is returned as it is.  (The table of common
    headers only saves allocations.) *)
Definition canonicalMIMEHeaderKey (a : string) : string :=
  if forallb validHeaderFieldByte (String.list_ascii_of_string a)
  then canonicalize true a
  else a.

(** The loop of [CanonicalMIMEHeaderKey], a quick check for a key that is
    canonical already: [rest] is what is left to look at of [s]. *)
Fixpoint CanonicalMIMEHeaderKey_loop (upper : bool) (rest s : string) : string :=
  match rest with
  | EmptyString => s
  | String c rest' =>
      if negb (validHeaderFieldByte c) then s
      else if upper && isLower c then canonicalMIMEHeaderKey s
      else if negb upper && isUpper c then canonicalMIMEHeaderKey s
      else CanonicalMIMEHeaderKey_loop (Ascii.eqb c "-") rest' s
  end.

(** [func CanonicalMIMEHeaderKey(s string) string] *)
Definition CanonicalMIMEHeaderKey (s : string) : string :=
  CanonicalMIMEHeaderKey_loop true s s.

End textproto.

(** ** The part of [net/http] the packages are written against *)

Module http.

Definition StatusOK : Z := 200.
Definition StatusMovedPermanently : Z := 301.
Definition StatusNotFound : Z := 404.

(** [type Header map[string][]string].  Keys are stored in canonical form;
    every key the packages pass to [Get], [Set] and [Add] is a literal that
    is already canonical, so the methods are modelled on canonical keys. *)
Abbreviation Header := (gmap string (list string)).

(** [h.Get(key)]: the first value associated with [key], or [""]. *)
Definition Get (h : Header) (key : string) : string :=
  match h !! key with
  | Some (v :: _) => v
  | _ => ""
  end.

(** [h.Set(key, value)]: replaces any existing values. *)
Definition Set_ (key value : string) (h : Header) : Header :=
  <[key := [value]]> h.

(** [h.Add(key, value)]: appends to any existing values. *)
Definition Add (key value : string) (h : Header) : Header :=
  <[key := default [] (h !! key) ++ [value]]> h.

(** [*url.URL], with [Query] standing for the result of [URL.Query()]
    ([url.Values], a [map[string][]string] with the same [Get]). *)
Record URL := mkURL { Path : string; Query : Header }.

(** [*http.Request]: the fields the packages read or write. *)
Record Request := mkRequest {
  Method : string;
  URL_ : URL;
  ReqHeader : Header
}.

(** [r.URL.Path = p] *)
Definition set_Path (p : string) (r : Request) : Request :=
  mkRequest (Method r) (mkURL p (Query (URL_ r))) (ReqHeader r).

(** Go's [error]; [None] is [nil]. *)
Definition error := option string.

(** The [http.ResponseWriter] interface, extended with [io.ReaderFrom]
    (both shims and the server's own writer implement it, and [io.Copy]
    uses it).  [w.Header()] returns a reference to a map that callers
    mutate in place: [getHeader] reads that map and [setHeader] stores the
    map after such a mutation.  [Write] and [ReadFrom] return Go's
    [(n, err)] next to the updated receiver; a reader is the list of bytes
    it still has to deliver. *)
Class ResponseWriter (W : Type) := {
  getHeader : W → Header;
  setHeader : Header → W → W;
  WriteHeader : Z → W → W;
  Write : list byte → W → (Z * error) * W;
  ReadFrom : list byte → W → (Z * error) * W
}.

(** What every implementation of [Header()] provides: the map handed out
    is the one later calls see. *)
Class HeaderLaws (W : Type) `{ResponseWriter W} := {
  getHeader_setHeader : ∀ (h : Header) (w : W), getHeader (setHeader h w) = h;
  setHeader_setHeader :
    ∀ (h h' : Header) (w : W), setHeader h' (setHeader h w) = setHeader h' w
}.

(** [io.Copy(dst, src)] for a [dst] that implements [io.ReaderFrom]. *)
Definition io_Copy `{ResponseWriter W} (dst : W) (src : list byte)
  : (Z * error) * W :=
  ReadFrom src dst.

(** The server's end of a response, as a recorder such as
    [httptest.ResponseRecorder]: the live header map, the status line once
    written together with the headers that went out with it, and the
    body.  It implements the documented contract of [ResponseWriter]: the
    first [WriteHeader] sends status and headers, later ones and later
    header changes have no effect on what was sent, and [Write] first
    calls [WriteHeader(StatusOK)] if no status was written.  (Content-Type
    sniffing on that implicit call is left out.) *)
Record Sink := mkSink {
  headerMap : Header;
  sent : option (Z * Header);
  body : list byte
}.

Definition Sink_WriteHeader (code : Z) (s : Sink) : Sink :=
  match sent s with
  | Some _ => s
  | None => mkSink (headerMap s) (Some (code, headerMap s)) (body s)
  end.

Definition Sink_Write (b : list byte) (s : Sink) : (Z * error) * Sink :=
  let s1 := Sink_WriteHeader StatusOK s in
  ((Z.of_nat (length b), None), mkSink (headerMap s1) (sent s1) (body s1 ++ b)).

(** The generic copy loop of [io.Copy]: nothing is written for a reader
    that is at end of file. *)
Definition Sink_ReadFrom (src : list byte) (s : Sink) : (Z * error) * Sink :=
  match src with
  | [] => ((0, None), s)
  | _ => Sink_Write src s
  end.

#[global] Instance Sink_ResponseWriter : ResponseWriter Sink := {
  getHeader := headerMap;
  setHeader h s := mkSink h (sent s) (body s);
  WriteHeader := Sink_WriteHeader;
  Write := Sink_Write;
  ReadFrom := Sink_ReadFrom
}.

(** A fresh sink: nothing set, nothing sent. *)
Definition newSink : Sink := mkSink ∅ None [].

(** A mutation of one entry of a header map: from the values it holds, if
    any, to the values it is to hold, if any. *)
Abbreviation edit := (option (list string) → option (list string)).

(** What a handler does with the [ResponseWriter] it is given, as the tree
    of its calls: it may look at the header map, mutate the entry of one
    key in place ([Set], [Add], [Del] and plain map assignment are all of
    this form), write a status, write bytes or copy from a reader, and go
    on according to what it saw or what the call returned.  Each look and
    each mutation goes through a call of [w.Header()] of its own, as in
    [http.FileServer] and [http.Error]. *)
Inductive calls : Type :=
| Return
| ReadHeader (k : Header → calls)
| EditHeader (key : string) (f : edit) (k : calls)
| CallWriteHeader (code : Z) (k : calls)
| CallWrite (b : list byte) (k : Z * error → calls)
| CallReadFrom (src : list byte) (k : Z * error → calls).

(** Running a handler's calls against a [ResponseWriter]. *)
Fixpoint run `{ResponseWriter W} (p : calls) (w : W) : W :=
  match p with
  | Return => w
  | ReadHeader k => run (k (getHeader w)) w
  | EditHeader key f k =>
      run k (setHeader (partial_alter f key (getHeader w)) w)
  | CallWriteHeader code k => run k (WriteHeader code w)
  | CallWrite b k => let '(res, w') := Write b w in run (k res) w'
  | CallReadFrom src k => let '(res, w') := ReadFrom src w in run (k res) w'
  end.

(** [http.Handler]: [ServeHTTP(w, r)] makes calls on [w] that depend on the
    request, and may leave the request (a pointer in Go) changed. *)
Definition Handler := Request → calls * Request.

(** The call [w.Header().Add(key, value)] of a handler, for any key:
    [Header.Add] canonicalizes the key ([textproto.MIMEHeader.Add]) and
    appends the value to the values the entry holds. *)
Definition CallHeaderAdd (key value : string) (k : calls) : calls :=
  EditHeader (textproto.CanonicalMIMEHeaderKey key)
    (λ old, Some (default [] old ++ [value])) k.

End http.

(** ** Package [encneg] *)

Module encneg.
Import http.

(** [var encodingByExtensionMap = map[string]string{...}] *)
Definition encodingByExtensionMap : gmap string string :=
  {[ ".br" := "br"; ".gz" := "gzip" ]}.

(** [encodingByExtensionMap[ext]]: a missing key reads as [""]. *)
Definition encodingByExtension (ext : string) : string :=
  default "" (encodingByExtensionMap !! ext).

(** *** The token matcher *)

(** The separator set [" \t;,"]. *)
Definition separators : string :=
  String " "%char (String "009"%char ";,").

(** [func isSeparator(b byte) bool] *)
Definition isSeparator (b : Ascii.ascii) : bool :=
  0 <=? strings.IndexByte separators b.

(** [isSeparator(header[i])]; the index expression panics out of range. *)
Definition isSeparatorAt (header : string) (i : Z) : option bool :=
  isSeparator <$> strings.at_ header i.

(** [func hasToken(header, token string) bool].  The two index expressions
    are guarded by [i >= 0], [i == 0 ||] and
    [i+len(token) == len(header) ||], evaluated left to right with
    short-circuit; they never go out of range ([hasToken_index_in_range]
    below), so the [default false] branches are dead. *)
Definition hasToken (header token : string) : bool :=
  let i := strings.Index header token in
  (0 <=? i) &&
  ((i =? 0) || default false (isSeparatorAt header (i - 1))) &&
  ((i + strings.len token =? strings.len header)
   || default false (isSeparatorAt header (i + strings.len token))).

(** [hasToken] once more, as Go evaluates it step by step, with the
    run-time panic of an index expression out of range as [None]. *)
Definition hasToken_checked (header token : string) : option bool :=
  let i := strings.Index header token in
  if negb (0 <=? i) then Some false
  else
    before ← (if i =? 0 then Some true else isSeparatorAt header (i - 1));
    if negb before then Some false
    else if i + strings.len token =? strings.len header then Some true
         else isSeparatorAt header (i + strings.len token).

(** *** [connegResponseWriter]: headers buffered until the status is known *)

Record connegResponseWriter (W : Type) := mkConneg {
  Suppressed : bool;
  realWriter : W;
  header : option Header;      (* [nil] until [Header()] is first called *)
  wroteHeader : bool
}.
Arguments mkConneg {W}.
Arguments Suppressed {W}.
Arguments realWriter {W}.
Arguments header {W}.
Arguments wroteHeader {W}.

(** *** [responseWithContentEncoding]: headers added on a 200 *)

Record responseWithContentEncoding (W : Type) := mkRWCE {
  w : W;
  encoding : string;
  isConneg : bool;
  headersSent : bool
}.
Arguments mkRWCE {W}.
Arguments w {W}.
Arguments encoding {W}.
Arguments isConneg {W}.
Arguments headersSent {W}.

Section shims.
Context {W : Type} `{ResponseWriter W}.

(** [func (w *connegResponseWriter) Header() http.Header].  The map
    handed out is the real writer's once a status other than 404 was
    written, and the private buffer otherwise.  (A first call allocates
    the empty buffer; an empty and a [nil] buffer cannot be told apart by
    any code of the package, and reading leaves [header] as it is here.) *)
Definition conneg_getHeader (c : connegResponseWriter W) : Header :=
  if wroteHeader c && negb (Suppressed c)
  then getHeader (realWriter c)
  else default ∅ (header c).

Definition conneg_setHeader (h : Header) (c : connegResponseWriter W)
  : connegResponseWriter W :=
  if wroteHeader c && negb (Suppressed c)
  then mkConneg (Suppressed c) (setHeader h (realWriter c)) (header c)
         (wroteHeader c)
  else mkConneg (Suppressed c) (realWriter c) (Some h) (wroteHeader c).

(** The loop [for k, v := range w.header { h := w.realWriter.Header();
    h[k] = append(h[k], v...) }]. *)
Definition flushHeader (buf : Header) (rw : W) : W :=
  map_fold
    (λ (k : string) (v : list string) (rw : W),
       setHeader (<[k := default [] (getHeader rw !! k) ++ v]> (getHeader rw)) rw)
    rw buf.

(** [func (w *connegResponseWriter) WriteHeader(code int)] *)
Definition conneg_WriteHeader (code : Z) (c : connegResponseWriter W)
  : connegResponseWriter W :=
  if wroteHeader c then c
  else if code =? StatusNotFound
  then mkConneg true (realWriter c) (header c) true
  else
    let rw := flushHeader (default ∅ (header c)) (realWriter c) in
    mkConneg (Suppressed c) (WriteHeader code rw) None true.

(** [func (w *connegResponseWriter) Write(b []byte) (int, error)] *)
Definition conneg_Write (b : list byte) (c : connegResponseWriter W)
  : (Z * error) * connegResponseWriter W :=
  if Suppressed c then ((Z.of_nat (length b), None), c)
  else
    let c1 := if negb (wroteHeader c) then conneg_WriteHeader StatusOK c else c in
    let '(res, rw) := Write b (realWriter c1) in
    (res, mkConneg (Suppressed c1) rw (header c1) (wroteHeader c1)).

(** [func (w *connegResponseWriter) ReadFrom(src io.Reader) (n int64, err error)] *)
Definition conneg_ReadFrom (src : list byte) (c : connegResponseWriter W)
  : (Z * error) * connegResponseWriter W :=
  if Suppressed c then ((0, None), c)
  else
    let c1 := if negb (wroteHeader c) then conneg_WriteHeader StatusOK c else c in
    let '(res, rw) := io_Copy (realWriter c1) src in
    (res, mkConneg (Suppressed c1) rw (header c1) (wroteHeader c1)).

(** [func (r *responseWithContentEncoding) Header() http.Header] *)
Definition rwce_getHeader (r : responseWithContentEncoding W) : Header :=
  getHeader (w r).

Definition rwce_setHeader (h : Header) (r : responseWithContentEncoding W)
  : responseWithContentEncoding W :=
  mkRWCE (setHeader h (w r)) (encoding r) (isConneg r) (headersSent r).

(** [func (r *responseWithContentEncoding) WriteHeader(code int)] *)
Definition rwce_WriteHeader (code : Z) (r : responseWithContentEncoding W)
  : responseWithContentEncoding W :=
  if headersSent r then r
  else
    let r0 := mkRWCE (w r) (encoding r) (isConneg r) true in
    let r3 :=
      if code =? StatusOK then
        let r1 :=
          if decide (encoding r0 ≠ "")
          then rwce_setHeader
                 (Set_ "Content-Encoding" (encoding r0) (rwce_getHeader r0)) r0
          else r0 in
        let r2 :=
          if isConneg r1
          then rwce_setHeader (Set_ "Vary" "Accept-Encoding" (rwce_getHeader r1)) r1
          else r1 in
        r2
      else r0 in
    mkRWCE (WriteHeader code (w r3)) (encoding r3) (isConneg r3) (headersSent r3).

(** [func (r *responseWithContentEncoding) Write(b []byte) (int, error)] *)
Definition rwce_Write (b : list byte) (r : responseWithContentEncoding W)
  : (Z * error) * responseWithContentEncoding W :=
  let r1 := if negb (headersSent r) then rwce_WriteHeader StatusOK r else r in
  let '(res, w') := Write b (w r1) in
  (res, mkRWCE w' (encoding r1) (isConneg r1) (headersSent r1)).

(** [func (r *responseWithContentEncoding) ReadFrom(src io.Reader) (n int64, err error)] *)
Definition rwce_ReadFrom (src : list byte) (r : responseWithContentEncoding W)
  : (Z * error) * responseWithContentEncoding W :=
  let r1 := if negb (headersSent r) then rwce_WriteHeader StatusOK r else r in
  let '(res, w') := io_Copy (w r1) src in
  (res, mkRWCE w' (encoding r1) (isConneg r1) (headersSent r1)).

End shims.

#[global] Instance conneg_ResponseWriter `{ResponseWriter W}
  : ResponseWriter (connegResponseWriter W) := {
  getHeader := conneg_getHeader;
  setHeader := conneg_setHeader;
  WriteHeader := conneg_WriteHeader;
  Write := conneg_Write;
  ReadFrom := conneg_ReadFrom
}.

#[global] Instance rwce_ResponseWriter `{ResponseWriter W}
  : ResponseWriter (responseWithContentEncoding W) := {
  getHeader := rwce_getHeader;
  setHeader := rwce_setHeader;
  WriteHeader := rwce_WriteHeader;
  Write := rwce_Write;
  ReadFrom := rwce_ReadFrom
}.

(** *** The negotiating file handler *)

(** [type fileHandler struct { fs http.Handler }] *)
Record fileHandler := mkFileHandler { fs : Handler }.

Section handler.
Context {W : Type} `{ResponseWriter W}.

(** [mime.TypeByExtension]: the table is the platform's. *)
Variable TypeByExtension : string → string.

(** [h.ServeHTTP(w, r)] for a delegate handler [h]. *)
Definition delegate (h : Handler) {V : Type} `{ResponseWriter V}
  (v : V) (r : Request) : V * Request :=
  let '(p, r') := h r in (run p v, r').

(** [func (f *fileHandler) serveCompressedFile(ext, encoding, path string,
    isConneg bool, w http.ResponseWriter, r *http.Request)].  The wrapper
    it may put around [w] is dropped on return; what is left is [w]. *)
Definition serveCompressedFile (f : fileHandler)
  (ext encoding path : string) (isConneg : bool) {V : Type} `{ResponseWriter V}
  (v : V) (r : Request) : V * Request :=
  let ct := TypeByExtension (filepath.Ext path) in
  if decide (ct ≠ "") then
    let v1 := setHeader (Set_ "Content-Type" ct (getHeader v)) v in
    let '(wrapped, r') := delegate (fs f) (mkRWCE v1 encoding isConneg false) r in
    (w wrapped, r')
  else delegate (fs f) v r.

(** [func (f *fileHandler) tryServeCompressedFile(ext, encoding, path string,
    w http.ResponseWriter, r *http.Request) bool] *)
Definition tryServeCompressedFile (f : fileHandler)
  (ext encoding path : string) (w0 : W) (r : Request) : bool * W * Request :=
  let oldPath := Path (URL_ r) in
  let r1 := set_Path (path +:+ ext) r in
  let crw := mkConneg false w0 None false in
  let '(crw', r2) := serveCompressedFile f ext encoding path true crw r1 in
  let r3 := set_Path oldPath r2 in
  (negb (Suppressed crw'), realWriter crw', r3).

(** [func (f *fileHandler) ServeHTTP(w http.ResponseWriter, r *http.Request)] *)
Definition ServeHTTP (f : fileHandler) (w0 : W) (r : Request) : W * Request :=
  let p := Path (URL_ r) in
  if strings.HasSuffix p "/index.html" then delegate (fs f) w0 r
  else
    let ext := filepath.Ext p in
    let encoding := encodingByExtension ext in
    if decide (encoding ≠ "") then
      serveCompressedFile f ext encoding
        (String.substring 0 (String.length p - String.length ext) p)
        false w0 r
    else
      let p := if strings.HasSuffix p "/" then p +:+ "index.html" else p in
      let ae := Get (ReqHeader r) "Accept-Encoding" in
      let '(served, w1, r1) :=
        if hasToken ae "br" then tryServeCompressedFile f ".br" "br" p w0 r
        else (false, w0, r) in
      if served then (w1, r1)
      else
        let '(served, w2, r2) :=
          if hasToken ae "gzip" then tryServeCompressedFile f ".gz" "gzip" p w1 r1
          else (false, w1, r1) in
        if served then (w2, r2)
        else
          let '(wrapped, r3) := delegate (fs f) (mkRWCE w2 "" true false) r2 in
          (w wrapped, r3).

(** *** The streaming-compression selector *)

(** The [io.Writer] that [GetWriter] returns: a [*gzip.Writer] around [w],
    which has written nothing yet, or [w] itself. *)
Inductive Writer : Type :=
| gzip_NewWriter (dst : W)
| same (dst : W).

(** The writer the bytes end up in, and whether they are compressed on
    the way. *)
Definition dst_of (o : Writer) : W :=
  match o with gzip_NewWriter d => d | same d => d end.

Definition isGzip (o : Writer) : bool :=
  match o with gzip_NewWriter _ => true | same _ => false end.

(** [func GetWriter(w http.ResponseWriter, r *http.Request) io.Writer] *)
Definition GetWriter (w0 : W) (r : Request) : Writer :=
  let w1 := setHeader (Add "Vary" "Accept-Encoding" (getHeader w0)) w0 in
  if hasToken (Get (ReqHeader r) "Accept-Encoding") "gzip"
  then gzip_NewWriter w1
  else same w1.

End handler.

End encneg.

(** ** Package [testhandlers] *)

Module testhandlers.
Import http.

(** [time.Duration]: a count of nanoseconds. *)
Definition Duration := Z.

(** What [Delay(h).ServeHTTP(w, r)] does, in order: calls of [sleep] (the
    package variable, [time.Sleep] unless replaced) and calls of the
    wrapped handler's [ServeHTTP]. *)
Inductive effect : Type :=
| sleep (d : Duration)
| ServeHTTP (r : Request).

Section Delay.

(** [time.ParseDuration] *)
Variable ParseDuration : string → Duration * error.

(** [func Delay(h http.Handler) http.Handler], as the effects of the
    returned handler on a request. *)
Definition Delay (r : Request) : list effect :=
  let q := Query (URL_ r) in
  let d := Get q "delay" in
  (if decide (d ≠ "") then
     match ParseDuration d with
     | (dd, None) => [sleep dd]
     | (_, Some _) => []
     end
   else [])
  ++ [ServeHTTP r].

End Delay.

(** The body of the loop of [AddHeaders] up to the call of [Add]: the
    name and the value that one [header] parameter stands for.  [SplitN]
    with [n = 2] returns one or two pieces, so that [hhhh[0]] is in range
    and the [default] is never used ([headerField_in_range] below). *)
Definition headerField (hhh : string) : string * string :=
  let hhhh := strings.SplitN hhh ":" 2 in
  let v :=
    if 1 <? Z.of_nat (length hhhh) then default "" (hhhh !! 1%nat) else "" in
  (default "" (hhhh !! 0%nat), v).

(** [func AddHeaders(h http.Handler) http.Handler]: the returned handler
    makes one call of [w.Header().Add] per [header] parameter of the
    query, in their order, and then the calls of [h]. *)
Definition AddHeaders (h : Handler) : Handler :=
  λ r,
    let q := Query (URL_ r) in
    let '(p, r') := h r in
    (foldr (λ hhh k, let '(name, v) := headerField hhh in CallHeaderAdd name v k)
       p (default [] (q !! "header")),
     r').


(** The durations [sleep] was called with. *)
Definition sleeps (es : list effect) : list Duration :=
  omap (λ e, match e with sleep d => Some d | ServeHTTP _ => None end) es.

(** [httptest.NewRequest("", "/?delay=" + d, nil)] *)
Definition delayRequest (d : string) : Request :=
  mkRequest "GET" (mkURL "/" {[ "delay" := [d] ]}) ∅.

End testhandlers.

(** ** [time.ParseDuration], for durations written without a fraction *)

Module time.

Definition Nanosecond : Z := 1.
Definition Microsecond : Z := 1000 * Nanosecond.
Definition Millisecond : Z := 1000 * Microsecond.
Definition Second : Z := 1000 * Millisecond.
Definition Minute : Z := 60 * Second.
Definition Hour : Z := 60 * Minute.

(** [var unitMap]; the two spellings of the micro sign are given by their
    UTF-8 bytes. *)
Definition unitMap : gmap string Z :=
  list_to_map
    [ ("ns", Nanosecond); ("us", Microsecond);
      (String "194"%char (String "181"%char "s"), Microsecond);
      (String "206"%char (String "188"%char "s"), Microsecond);
      ("ms", Millisecond); ("s", Second); ("m", Minute); ("h", Hour) ].

Definition isDigit (c : Ascii.ascii) : bool :=
  (48 <=? nat_of_ascii c)%nat && (nat_of_ascii c <=? 57)%nat.

(** [leadingInt]: consumes the leading [[0-9]*] of [s], starting from the
    value [x]; [None] is [errLeadingInt] (overflow). *)
Fixpoint leadingInt (s : string) (x : Z) : option (Z * string) :=
  match s with
  | EmptyString => Some (x, s)
  | String c s' =>
      if isDigit c then
        if x >? 2 ^ 63 / 10 then None
        else
          let x' := x * 10 + (Z.of_nat (nat_of_ascii c) - 48) in
          if x' >? 2 ^ 63 then None else leadingInt s' x'
      else Some (x, s)
  end.

(** The unit: the bytes up to the next ['.'] or digit. *)
Fixpoint spanUnit (s : string) : string * string :=
  match s with
  | EmptyString => ("", "")
  | String c s' =>
      if Ascii.eqb c "." || isDigit c then ("", s)
      else let '(u, rest) := spanUnit s' in (String c u, rest)
  end.

(** The loop [for s != ""] of [ParseDuration], which adds one
    [number unit] group to [d] per turn; [None] is any of its error
    returns.  Every turn consumes a byte, so [fuel = len(s)] turns are
    enough.  A group with a fractional part, which Go evaluates in
    [float64], is outside this model and is reported as an error. *)
Fixpoint parseGroups (fuel : nat) (s : string) (d : Z) : option Z :=
  match s with
  | EmptyString => Some d
  | String c _ =>
      match fuel with
      | O => None
      | S fuel' =>
          if negb (Ascii.eqb c "." || isDigit c) then None
          else
            match leadingInt s 0 with
            | None => None
            | Some (v, s1) =>
                let pre := negb (String.length s =? String.length s1)%nat in
                if strings.HasPrefix s1 "." then None
                else if negb pre then None
                else
                  let '(u, s2) := spanUnit s1 in
                  if decide (u = "") then None
                  else
                    match unitMap !! u with
                    | None => None
                    | Some unit =>
                        if v >? 2 ^ 63 / unit then None
                        else
                          let d' := d + v * unit in
                          if d' >? 2 ^ 63 then None
                          else parseGroups fuel' s2 d'
                    end
            end
      end
  end.

(** [func ParseDuration(s string) (Duration, error)] *)
Definition ParseDuration (orig : string) : Z * http.error :=
  let invalid := (0, Some ("time: invalid duration " +:+ orig)) in
  let '(neg, s) :=
    match orig with
    | String c s' =>
        if Ascii.eqb c "-" then (true, s')
        else if Ascii.eqb c "+" then (false, s')
        else (false, orig)
    | EmptyString => (false, orig)
    end in
  if decide (s = "0") then (0, None)
  else if decide (s = "") then invalid
  else
    match parseGroups (String.length s) s 0 with
    | None => invalid
    | Some d =>
        if neg then (- d, None)
        else if d >? 2 ^ 63 - 1 then invalid
        else (d, None)
    end.

End time.

(** ** The fixtures of [testhandlers_test.go] *)

Module testhandlers_test.
Import http testhandlers.

(** The loop of [areEqual], from index [i] on: [g] holds the elements
    still to visit.  [None] is the panic of [e[i]] out of range. *)
Fixpoint areEqual_loop (i : nat) (g e : list string) : option bool :=
  match g with
  | [] => Some true
  | v :: g' =>
      match e !! i with
      | None => None
      | Some x => if decide (v ≠ x) then Some false else areEqual_loop (S i) g' e
      end
  end.

(** [func areEqual(g, e []string) bool] *)
Definition areEqual (g e : list string) : option bool :=
  if decide (length g ≠ length e) then Some false else areEqual_loop 0 g e.

(** A row of the table of [TestAddHeaders]; [params] are the values of
    the [header] parameters of the row's target, in their order. *)
Record addHeadersTest := mkAddHeadersTest {
  params : list string;
  dontWantFoo : bool;
  wantFooValue : list string;
  dontWantBar : bool;
  wantBarValue : list string
}.

Definition addHeadersTests : list addHeadersTest :=
  [ mkAddHeadersTest [] true [] true [];
    mkAddHeadersTest ["x-foo"] false [""] true [];
    mkAddHeadersTest ["x-foo:"] false [""] true [];
    mkAddHeadersTest ["x-foo:bar"] false ["bar"] true [];
    mkAddHeadersTest ["x-foo:bar"; "x-foo:baz"] false ["bar"; "baz"] true [];
    mkAddHeadersTest ["x-foo:baz"; "x-bar:qux"] false ["baz"] false ["qux"] ].

(** [httptest.NewRequest("", target, nil)] for a target ["/?header=...&header=..."];
    a query without the parameter has no entry for it. *)
Definition headerRequest (ps : list string) : Request :=
  mkRequest "GET"
    (mkURL "/" (if decide (ps = []) then ∅ else {[ "header" := ps ]})) ∅.

(** The wrapped handler of the tests, which makes no call on the writer. *)
Definition handler : Handler := λ r, (Return, r).

(** The body of the loop of [TestAddHeaders]: whether neither check on
    [rec.HeaderMap] reports an error. *)
Definition doTestAddHeaders (tt : addHeadersTest) : bool :=
  let rec := run (AddHeaders handler (headerRequest (params tt))).1 newSink in
  let failed (key : string) (dontWant : bool) (want : list string) : bool :=
    let h := headerMap rec !! key in
    Bool.eqb (bool_decide (is_Some h)) dontWant
    || negb (default false (areEqual (default [] h) want)) in
  negb (failed "X-Foo" (dontWantFoo tt) (wantFooValue tt)) &&
  negb (failed "X-Bar" (dontWantBar tt) (wantBarValue tt)).

End testhandlers_test.

(** ** The fixtures of [encneg_test.go] *)

Module encneg_test.
Import http encneg.

(** [var fsmap]: the files of the test file system, each under the URL
    path it is served at (the test's keys, with the leading slash). *)
Definition fsmap : gmap string string :=
  list_to_map
    [ ("/uncompressed/index.html", "index, uncompressed, no alternative");
      ("/uncompressed/foo.html", "foo, uncompressed, no alternative");
      ("/with.br/index.html", "index, uncompressed, with brotli alternative");
      ("/with.br/index.html.br", "index, brotli, with uncompressed alternative");
      ("/with.br/foo.html", "foo, uncompressed, with brotli alternative");
      ("/with.br/foo.html.br", "foo, brotli, with uncompressed alternative");
      ("/with.gz/index.html", "index, uncompressed, with gzip alternative");
      ("/with.gz/index.html.gz", "index, gzip, with uncompressed alternative");
      ("/with.gz/foo.html", "foo, uncompressed, with gzip alternative");
      ("/with.gz/foo.html.gz", "foo, gzip, with uncompressed alternative");
      ("/with.br.and.gz/index.html",
        "index, uncompressed, with gzip and brotli alternatives");
      ("/with.br.and.gz/index.html.br",
        "index, brotli, with uncompressed and gzip alternatives");
      ("/with.br.and.gz/index.html.gz",
        "index, gzip, with uncompressed and brotli alternatives");
      ("/with.br.and.gz/foo.html",
        "foo, uncompressed, with gzip and brotli alternatives");
      ("/with.br.and.gz/foo.html.br",
        "foo, brotli, with uncompressed and gzip alternatives");
      ("/with.br.and.gz/foo.html.gz",
        "foo, gzip, with uncompressed and brotli alternatives") ].

(** A further file system, not one of the test's: a file without an
    extension next to its two precompressed variants. *)
Definition notesmap : gmap string string :=
  list_to_map
    [ ("/notes", "notes, uncompressed, with brotli and gzip alternatives");
      ("/notes.br", "notes, brotli, with uncompressed and gzip alternatives");
      ("/notes.gz", "notes, gzip, with uncompressed and brotli alternatives") ].

(** A few rows of the built-in table of [mime.TypeByExtension]. *)
Definition TypeByExtension (ext : string) : string :=
  default ""
    (({[ ".html" := "text/html; charset=utf-8";
         ".htm" := "text/html; charset=utf-8";
         ".css" := "text/css; charset=utf-8";
         ".xml" := "text/xml; charset=utf-8";
         ".png" := "image/png";
         ".pdf" := "application/pdf" ]} : gmap string string) !! ext).

(** [http.Error(w, error, code)] *)
Definition Error (msg : string) (code : Z) : calls :=
  EditHeader "Content-Type" (λ _, Some ["text/plain; charset=utf-8"])
    (EditHeader "X-Content-Type-Options" (λ _, Some ["nosniff"])
       (CallWriteHeader code
          (CallWrite (String.list_byte_of_string (msg +:+ String "010"%char ""))
             (λ _, Return)))).

(** The successful path of [http.ServeContent] for a whole file: a
    Content-Type is chosen unless one is set, a Content-Length is
    announced unless a Content-Encoding is set, and the bytes are copied
    after the status. *)
Definition serveContent (ctype : string) (content : list byte) : calls :=
  ReadHeader (λ h,
    (if decide (is_Some (h !! "Content-Type")) then (λ k, k)
     else EditHeader "Content-Type" (λ _, Some [ctype]))
    (EditHeader "Accept-Ranges" (λ _, Some ["bytes"])
       (ReadHeader (λ h,
          (if decide (Get h "Content-Encoding" = "")
           then EditHeader "Content-Length"
                  (λ _, Some [pretty (N.of_nat (length content))])
           else (λ k, k))
          (CallWriteHeader StatusOK
             (CallReadFrom content (λ _, Return))))))).

(** [localRedirect(w, r, newPath)] of [net/http], for a request without
    a query. *)
Definition localRedirect (newPath : string) : calls :=
  EditHeader "Location" (λ _, Some [newPath])
    (CallWriteHeader StatusMovedPermanently Return).

(** Whether [name] (without a final slash) is a directory of the file
    system: some file lies below it. *)
Definition isDir (files : gmap string string) (name : string) : bool :=
  existsb (λ kv : string * string, strings.HasPrefix kv.1 (name +:+ "/"))
    (map_to_list files).

(** A stand-in for [http.FileServer] over a map of files: it redirects a
    path ending in ["/index.html"] to its directory and a directory named
    without its final slash to the name with it, serves the index file of
    a path ending in ["/"], serves a file that exists and answers 404
    otherwise.  It never changes the request. *)
Definition http_FileServer (files : gmap string string) : Handler :=
  λ r,
    let upath := Path (URL_ r) in
    let name :=
      if strings.HasSuffix upath "/" then upath +:+ "index.html" else upath in
    (if strings.HasSuffix upath "/index.html" then localRedirect "./"
     else if negb (strings.HasSuffix upath "/") && isDir files upath
     then localRedirect (path.Base upath +:+ "/")
     else
       match files !! name with
       | Some content =>
           serveContent
             (let ct := TypeByExtension (filepath.Ext name) in
              if decide (ct ≠ "") then ct else "application/octet-stream")
             (String.list_byte_of_string content)
       | None => Error "404 page not found" StatusNotFound
       end,
     r).

(** [func FileServer(root http.FileSystem) http.Handler] of package
    [encneg], over that stand-in. *)
Definition FileServer (files : gmap string string) : fileHandler :=
  mkFileHandler (http_FileServer files).

(** [var fs = FileServer(httpfs.New(mapfs.New(fsmap)))] *)
Definition fs : fileHandler := FileServer fsmap.

(** [httptest.NewRequest("GET", path, nil)], with
    [req.Header.Set("Accept-Encoding", acceptEncoding)] unless empty. *)
Definition NewRequest (path acceptEncoding : string) : Request :=
  mkRequest "GET" (mkURL path ∅)
    (if decide (acceptEncoding ≠ "")
     then Set_ "Accept-Encoding" acceptEncoding ∅ else ∅).

(** [fs.ServeHTTP(rec, req)] on a new recorder. *)
Definition serve (path acceptEncoding : string) : Sink :=
  (ServeHTTP TypeByExtension fs newSink (NewRequest path acceptEncoding)).1.

(** The same over [notesmap]. *)
Definition serveNotes (path acceptEncoding : string) : Sink :=
  (ServeHTTP TypeByExtension (FileServer notesmap) newSink
     (NewRequest path acceptEncoding)).1.

(** What the tests look at: status, a header of the response, body. *)
Definition Code (s : Sink) : option Z := fst <$> sent s.
Definition sentHeader (s : Sink) (key : string) : option (list string) :=
  sent s ≫= λ cs, cs.2 !! key.
Definition Body (s : Sink) : string := String.string_of_list_byte (body s).

(** [type ae struct] and [var aes]. *)
Record ae := mkAe { ae_ : string; expectsGzip : bool; expectsBrotli : bool }.

Definition aes : list ae :=
  [ mkAe "" false false; mkAe "br" false true; mkAe "gzip" true false;
    mkAe "br,gzip" true true; mkAe "gzip,br" true true ].

(** The table of [TestHasToken]. *)
Definition hasTokenTests : list ae :=
  [ mkAe "foo,gzip,bar,br,baz" true true; mkAe "foogzip" false false;
    mkAe "gzipbar" false false; mkAe "foogzipbar" false false;
    mkAe "foobr" false false; mkAe "braz" false false;
    mkAe "foobraz" false false ].

(** [type testInput struct] and [func getTests]. *)
Record testInput := mkInput { dir : string; suffix : string; input_ae : ae }.

Definition getTests (suffixes : list string) : list testInput :=
  d ← ["/uncompressed"; "/with.br"; "/with.gz"; "/with.br.and.gz"];
  a ← aes;
  sfx ← suffixes;
  [mkInput d sfx a].

(** [func expectedEncoding(dir string, ae ae) (string, string)] *)
Definition expectedEncoding (d : string) (a : ae) : string * string :=
  if (0 <=? strings.Index d ".br") && expectsBrotli a then ("br", ".br")
  else if (0 <=? strings.Index d ".gz") && expectsGzip a then ("gzip", ".gz")
  else ("", "").

(** [type testData struct] *)
Record testData := mkTest {
  test_path : string;
  acceptEncoding : string;
  wantCode : Z;
  wantContentType : string;
  wantContentEncoding : string;
  wantBody : string;
  wantVary : string
}.

(** [func doTest(t *testing.T, tt testData)]: whether none of its checks
    reports an error.  A recorder on which no status was written reads
    as 200. *)
Definition doTest (tt : testData) : bool :=
  let rec := serve (test_path tt) (acceptEncoding tt) in
  bool_decide (default StatusOK (Code rec) = wantCode tt) &&
  bool_decide (Get (headerMap rec) "Content-Type" = wantContentType tt) &&
  bool_decide (Get (headerMap rec) "Content-Encoding" = wantContentEncoding tt) &&
  bool_decide (Body rec = wantBody tt) &&
  bool_decide (Get (headerMap rec) "Vary" = wantVary tt).

(** The rows of [TestFileServerDirectoryRedirects]. *)
Definition directoryRedirects : list testData :=
  (λ tt, mkTest (dir tt +:+ suffix tt) "" StatusMovedPermanently "" "" "" "")
    <$> getTests [""; "/index.html"].

(** The rows of [TestFileServerDirectCompressedFiles]. *)
Definition directCompressedFiles : list testData :=
  tt ← getTests ["/index.html"; "/foo.html"];
  '(ext, encoding) ← map_to_list encodingByExtensionMap;
  let p := dir tt +:+ suffix tt +:+ ext in
  match fsmap !! p with
  | Some body =>
      [mkTest p (ae_ (input_ae tt)) StatusOK "text/html; charset=utf-8"
         encoding body ""]
  | None =>
      [mkTest p (ae_ (input_ae tt)) StatusNotFound "text/plain; charset=utf-8"
         "" ("404 page not found" +:+ String "010"%char "") ""]
  end.

(** The rows of [TestFileServerNegotiateEncoding]. *)
Definition negotiateEncoding : list testData :=
  (λ tt,
     let p := dir tt +:+ suffix tt in
     let '(wantEncoding, ext) := expectedEncoding (dir tt) (input_ae tt) in
     let filepath :=
       if decide (suffix tt = "/") then p +:+ "index.html" +:+ ext
       else p +:+ ext in
     mkTest p (ae_ (input_ae tt)) StatusOK "text/html; charset=utf-8"
       wantEncoding (default "" (fsmap !! filepath)) "Accept-Encoding")
    <$> getTests ["/"; "/foo.html"].

End encneg_test.

(** ** Specification vocabulary *)

Module spec.
Import http encneg.

(** What may stand before and after a token: the end of the string, or
    one of the bytes space, tab, semicolon, comma. *)
Definition left_delimited (pre : string) : Prop :=
  pre = "" ∨ ∃ pre' c, pre = pre' +:+ String c "" ∧ isSeparator c = true.

Definition right_delimited (post : string) : Prop :=
  post = "" ∨ ∃ c post', post = String c post' ∧ isSeparator c = true.

(** [token] occurs in [header] delimited on both sides. *)
Definition Delimited (header token : string) : Prop :=
  ∃ pre post : string,
    header = pre +:+ token +:+ post ∧ left_delimited pre ∧ right_delimited post.

(** Every mutation of a header entry that [p] makes satisfies [ok]. *)
Fixpoint edits (ok : string → edit → Prop) (p : calls) : Prop :=
  match p with
  | Return => True
  | ReadHeader k => ∀ h, edits ok (k h)
  | EditHeader key f k => ok key f ∧ edits ok k
  | CallWriteHeader _ k => edits ok k
  | CallWrite _ k => ∀ res, edits ok (k res)
  | CallReadFrom _ k => ∀ res, edits ok (k res)
  end.

(** [p] never mutates the header [key]. *)
Definition avoids (key : string) (p : calls) : Prop :=
  edits (λ k _, k ≠ key) p.

(** [p] never gives the header [key] a value: it leaves the entry alone
    or deletes it. *)
Definition unset_or_kept (key : string) (k : string) (f : edit) : Prop :=
  k ≠ key ∨ ∀ old, f old = None.

Definition never_sets (key : string) (p : calls) : Prop :=
  edits (unset_or_kept key) p.

(** Once the status is out: [p] writes the bytes [content], in any number
    of [Write] and [ReadFrom] calls, whatever these return. *)
Fixpoint sends (content : list byte) (p : calls) : Prop :=
  match p with
  | Return => content = []
  | ReadHeader k => ∀ h, sends content (k h)
  | EditHeader _ _ k => sends content k
  | CallWriteHeader _ k => sends content k
  | CallWrite b k => ∃ rest, content = b ++ rest ∧ ∀ res, sends rest (k res)
  | CallReadFrom src k => ∃ rest, content = src ++ rest ∧ ∀ res, sends rest (k res)
  end.

(** The contract of a file server for a file it finds: after preparing
    headers it answers 200, explicitly or by a first write, and sends the
    file's bytes. *)
Fixpoint serves (content : list byte) (p : calls) : Prop :=
  match p with
  | Return => False
  | ReadHeader k => ∀ h, serves content (k h)
  | EditHeader _ _ k => serves content k
  | CallWriteHeader code k => code = StatusOK ∧ sends content k
  | CallWrite b k => ∃ rest, content = b ++ rest ∧ ∀ res, sends rest (k res)
  | CallReadFrom src k => ∃ rest, content = src ++ rest ∧ ∀ res, sends rest (k res)
  end.

(** The entry of [k] once the buffer [buf] is appended to a header map
    that held [old] under [k]. *)
Definition appended (buf : Header) (old : option (list string)) (k : string)
  : option (list string) :=
  match buf !! k with
  | Some v => Some (default [] old ++ v)
  | None => old
  end.

(** The header map the auto-header shim builds from [h] before it
    forwards a 200: [h] with the two headers set. *)
Definition inject (enc : string) (cg : bool) (h : Header) : Header :=
  let h1 := if decide (enc ≠ "") then Set_ "Content-Encoding" enc h else h in
  if cg then Set_ "Vary" "Accept-Encoding" h1 else h1.

Definition injected `{ResponseWriter W} (r : responseWithContentEncoding W)
  : Header :=
  inject (encoding r) (isConneg r) (getHeader (w r)).

(** The same on a writer: the two [Header().Set] calls of the auto-header
    shim, made on the writer it wraps. *)
Definition inject_w `{ResponseWriter W} (enc : string) (cg : bool) (w0 : W) : W :=
  let w1 := if decide (enc ≠ "")
            then setHeader (Set_ "Content-Encoding" enc (getHeader w0)) w0
            else w0 in
  if cg then setHeader (Set_ "Vary" "Accept-Encoding" (getHeader w1)) w1 else w1.

(** [k] is one of the headers the auto-header shim sets on a 200. *)
Definition injects (enc : string) (cg : bool) (k : string) : Prop :=
  (k = "Content-Encoding" ∧ enc ≠ "") ∨ (k = "Vary" ∧ cg = true).

(** The two stages of a deferred-header shim over the sink [s0]: still
    buffering, with nothing passed on to [s0] and a buffer that satisfies
    [Q0]; and settled, either suppressed with [s0] untouched, or
    committed with a status and headers sent that satisfy [Q]. *)
Definition buffering (s0 : Sink) (Q0 : Header → Prop)
  (c : connegResponseWriter Sink) : Prop :=
  wroteHeader c = false ∧ Suppressed c = false ∧ realWriter c = s0 ∧
  Q0 (default ∅ (header c)).

Definition settled (s0 : Sink) (Q : Z → Header → Prop)
  (c : connegResponseWriter Sink) : Prop :=
  wroteHeader c = true ∧
  ((Suppressed c = true ∧ realWriter c = s0) ∨
   (Suppressed c = false ∧
    ∃ code hdrs, sent (realWriter c) = Some (code, hdrs) ∧ Q code hdrs)).

(** What a probe leaves behind: a suppressed shim over the untouched
    sink, or a sink on which anything sent satisfies [Q]. *)
Definition probed (s0 : Sink) (Q : Z → Header → Prop)
  (c : connegResponseWriter Sink) : Prop :=
  (Suppressed c = true → realWriter c = s0) ∧
  (Suppressed c = false →
   ∀ code hdrs, sent (realWriter c) = Some (code, hdrs) → Q code hdrs).

(** Whatever the sink has sent satisfies [Q]. *)
Definition sent_sat (Q : Z → Header → Prop) (s : Sink) : Prop :=
  ∀ code hdrs, sent s = Some (code, hdrs) → Q code hdrs.

(** [hdrs] is the header map [h0] after the buffer [buf] was flushed
    into it. *)
Definition flushed (buf h0 hdrs : Header) : Prop :=
  ∀ k, hdrs !! k = appended buf (h0 !! k) k.

(** The path a negotiated request is probed under. *)
Definition logicalPath (r : Request) : string :=
  let p := Path (URL_ r) in
  if strings.HasSuffix p "/" then p +:+ "index.html" else p.

(** The three kinds of request [ServeHTTP] tells apart. *)
Definition isIndexRedirect (r : Request) : Prop :=
  strings.HasSuffix (Path (URL_ r)) "/index.html" = true.

Definition isDirectCompressed (r : Request) : Prop :=
  strings.HasSuffix (Path (URL_ r)) "/index.html" = false ∧
  encodingByExtension (filepath.Ext (Path (URL_ r))) ≠ "".

Definition isNegotiated (r : Request) : Prop :=
  strings.HasSuffix (Path (URL_ r)) "/index.html" = false ∧
  encodingByExtension (filepath.Ext (Path (URL_ r))) = "".

(** The delegate leaves every field of the request but the URL path as
    it found it. *)
Definition keeps_but_path (h : Handler) : Prop :=
  ∀ q : Request, set_Path (Path (URL_ q)) (h q).2 = q.

(** [p] looks at headers and changes them, and makes no other call. *)
Fixpoint only_headers (p : calls) : Prop :=
  match p with
  | Return => True
  | ReadHeader k => ∀ h, only_headers (k h)
  | EditHeader _ _ k => only_headers k
  | CallWriteHeader _ _ | CallWrite _ _ | CallReadFrom _ _ => False
  end.

(** Whatever it sees in the headers, [p] does write a status, and the
    first one satisfies [P]: a status it names in a [WriteHeader], or the
    200 that a first write of bytes stands for.  (A first [ReadFrom] from
    a reader at end of file is left out: whether that writes the 200
    depends on the writer.) *)
Fixpoint first_status (P : Z → Prop) (p : calls) : Prop :=
  match p with
  | Return => False
  | ReadHeader k => ∀ h, first_status P (k h)
  | EditHeader _ _ k => first_status P k
  | CallWriteHeader code _ => P code
  | CallWrite _ _ => P StatusOK
  | CallReadFrom src _ => src ≠ [] ∧ P StatusOK
  end.

(** A writer that logs the calls it gets: the status calls, each with the
    header map as it stood then, and the calls that write bytes.  It
    accepts every byte it is given. *)
Inductive received : Type :=
| GotWriteHeader (code : Z) (h : Header)
| GotWrite (b : list byte)
| GotReadFrom (src : list byte).

Record Log := mkLog { logHeader : Header; calls_received : list received }.

#[global] Instance Log_ResponseWriter : ResponseWriter Log := {
  getHeader := logHeader;
  setHeader h l := mkLog h (calls_received l);
  WriteHeader code l :=
    mkLog (logHeader l) (calls_received l ++ [GotWriteHeader code (logHeader l)]);
  Write b l :=
    ((Z.of_nat (length b), None),
     mkLog (logHeader l) (calls_received l ++ [GotWrite b]));
  ReadFrom src l :=
    ((Z.of_nat (length src), None),
     mkLog (logHeader l) (calls_received l ++ [GotReadFrom src]))
}.

Definition isStatus (e : received) : bool :=
  match e with GotWriteHeader _ _ => true | _ => false end.

(** The calls a writer got are in order: none at all, or a status call
    first and no status call after it. *)
Definition status_first_and_once (l : list received) : bool :=
  match l with
  | [] => true
  | e :: rest => isStatus e && forallb (λ e', negb (isStatus e')) rest
  end.

(** What the deferred-header shim keeps of the writer [w0] it was made
    for: until a status is written it is not suppressed, and until a
    status other than 404 is written the real writer is [w0]. *)
Definition untouched {W : Type} (w0 : W) (c : connegResponseWriter W) : Prop :=
  (wroteHeader c = false → Suppressed c = false) ∧
  (wroteHeader c = false ∨ Suppressed c = true → realWriter c = w0).

(** The two states of a deferred-header shim that is not suppressed:
    waiting for the first status, and committed by a status other than
    404. *)
Definition waiting {W : Type} (c : connegResponseWriter W) : Prop :=
  wroteHeader c = false ∧ Suppressed c = false.

Definition committed {W : Type} (c : connegResponseWriter W) : Prop :=
  wroteHeader c = true ∧ Suppressed c = false.

(** The log has begun with a status call and holds no other. *)
Definition started (l : list received) : Prop :=
  l ≠ [] ∧ status_first_and_once l = true.

(** The deferred-header shim over the log [l0]: what it keeps of [l0],
    and a log that has begun in order once a status other than 404 was
    written. *)
Definition in_order (l0 : Log) (c : connegResponseWriter Log) : Prop :=
  untouched l0 c ∧
  (wroteHeader c = true → Suppressed c = false →
   started (calls_received (realWriter c))).

(** [s] holds no colon. *)
Definition has_no_colon (s : string) : Prop :=
  ":"%char ∉ String.list_ascii_of_string s.

(** The values that the parameters [ps] give for the canonical key
    [key], in the order of the parameters. *)
Definition values_for (key : string) (ps : list string) : list string :=
  omap (λ hhh,
          let '(name, v) := testhandlers.headerField hhh in
          if decide (textproto.CanonicalMIMEHeaderKey name = key)
          then Some v else None)
       ps.

End spec.

Import http encneg spec.

(** * Properties *)

(** ** [strings] *)

Section strings_facts.

Lemma append_cons (c : Ascii.ascii) (s t : string) :
  String c s +:+ t = String c (s +:+ t).
Proof. reflexivity. Qed.

Lemma append_empty_r (s : string) : s +:+ "" = s.
Proof. induction s as [|c s IH]; [done|]. by rewrite append_cons, IH. Qed.

Lemma append_assoc (s t u : string) : (s +:+ t) +:+ u = s +:+ t +:+ u.
Proof. induction s as [|c s IH]; [done|]. by rewrite !append_cons, IH. Qed.

Lemma length_append (s t : string) :
  String.length (s +:+ t) = (String.length s + String.length t)%nat.
Proof. induction s as [|c s IH]; [done|]. rewrite append_cons. simpl. by rewrite IH. Qed.

Lemma HasPrefix_true (s t : string) :
  strings.HasPrefix s t = true ↔ ∃ post, s = t +:+ post.
Proof.
  revert s. induction t as [|a t IH]; intros s; simpl.
  - split; [intros _; by exists s|by destruct s].
  - destruct s as [|b s].
    + split; [done|]. intros [post Hpost]. by rewrite append_cons in Hpost.
    + simpl. rewrite andb_true_iff, IH, Ascii.eqb_eq. split.
      * intros [-> [post ->]]. by exists post.
      * intros [post Hpost]. rewrite append_cons in Hpost.
        injection Hpost as -> ->. eauto.
Qed.

Lemma Index_unfold (s t : string) :
  strings.Index s t =
  if strings.HasPrefix s t then 0
  else match s with
       | EmptyString => -1
       | String _ s' =>
           if strings.Index s' t <? 0 then -1 else strings.Index s' t + 1
       end.
Proof. by destruct s. Qed.

Lemma Index_ge (s t : string) : -1 ≤ strings.Index s t.
Proof.
  induction s as [|c s IH]; rewrite Index_unfold.
  - destruct (strings.HasPrefix "" t); lia.
  - destruct (strings.HasPrefix (String c s) t); [lia|].
    destruct (Z.ltb_spec (strings.Index s t) 0); lia.
Qed.

(** A non-negative [Index] is the length of a prefix after which
    [substr] follows. *)
Lemma Index_split (s t : string) :
  0 ≤ strings.Index s t →
  ∃ pre post, s = pre +:+ t +:+ post ∧
              Z.of_nat (String.length pre) = strings.Index s t.
Proof.
  induction s as [|c s IH]; rewrite Index_unfold.
  - destruct (strings.HasPrefix "" t) eqn:E; [|lia].
    intros _. apply HasPrefix_true in E as [post ->]. by exists "", post.
  - destruct (strings.HasPrefix (String c s) t) eqn:E.
    + intros _. apply HasPrefix_true in E as [post E]. by exists "", post.
    + destruct (Z.ltb_spec (strings.Index s t) 0) as [|Hi]; [lia|].
      intros _. destruct (IH Hi) as (pre & post & Hs & Hlen).
      exists (String c pre), post. split; [by rewrite append_cons, <-Hs|].
      simpl. lia.
Qed.

Lemma at_append_r (pre s : string) (j : Z) :
  0 ≤ j →
  strings.at_ (pre +:+ s) (Z.of_nat (String.length pre) + j) = strings.at_ s j.
Proof.
  intros Hj. unfold strings.at_.
  destruct (Z.ltb_spec (Z.of_nat (String.length pre) + j) 0); [lia|].
  destruct (Z.ltb_spec j 0); [lia|].
  replace (Z.to_nat (Z.of_nat (String.length pre) + j))
    with (String.length pre + Z.to_nat j)%nat by lia.
  clear. induction pre as [|c pre IH]; [done|].
  rewrite append_cons. simpl. apply IH.
Qed.

Lemma at_last (pre : string) (i : Z) (c : Ascii.ascii) (s : string) :
  0 ≤ i - 1 → Z.of_nat (String.length pre) = i →
  strings.at_ (pre +:+ s) (i - 1) = Some c →
  ∃ pre', pre = pre' +:+ String c "".
Proof.
  revert i. induction pre as [|a pre IH]; intros i Hi Hlen; simpl in Hlen; [lia|].
  destruct pre as [|b pre].
  - simpl in Hlen. assert (i = 1) as -> by lia.
    unfold strings.at_. simpl. intros [= ->]. by exists "".
  - intros Hat. destruct (IH (i - 1)) as [pre' Hpre'].
    + simpl in Hlen. lia.
    + simpl in *. lia.
    + revert Hat. unfold strings.at_.
      destruct (Z.ltb_spec (i - 1) 0); [lia|].
      destruct (Z.ltb_spec (i - 1 - 1) 0); [simpl in Hlen; lia|].
      replace (Z.to_nat (i - 1)) with (S (Z.to_nat (i - 1 - 1))) by lia.
      by rewrite append_cons.
    + exists (String a pre'). by rewrite Hpre'.
Qed.

Lemma at_before (pre : string) (c : Ascii.ascii) (rest : string) :
  strings.at_ (pre +:+ String c rest) (strings.len pre) = Some c.
Proof.
  unfold strings.len. rewrite <-(Z.add_0_r (Z.of_nat _)).
  by rewrite at_append_r.
Qed.

End strings_facts.

(** ** The token matcher *)

Section hasToken_facts.

Lemma len_append (s t : string) :
  strings.len (s +:+ t) = strings.len s + strings.len t.
Proof. unfold strings.len. rewrite length_append. lia. Qed.

Lemma get_is_Some (s : string) (n : nat) :
  (n < String.length s)%nat → is_Some (String.get n s).
Proof.
  revert n. induction s as [|c s IH]; intros n Hn; simpl in Hn; [lia|].
  destruct n as [|n]; simpl; [eauto|]. apply IH. lia.
Qed.

Lemma at_is_Some (s : string) (i : Z) :
  0 ≤ i < strings.len s → is_Some (strings.at_ s i).
Proof.
  unfold strings.len, strings.at_. intros Hi.
  destruct (Z.ltb_spec i 0); [lia|]. apply get_is_Some. lia.
Qed.

(** The guards of [hasToken] keep both index expressions in range: the
    function never panics. *)
Lemma hasToken_index_in_range (header token : string) :
  let i := strings.Index header token in
  0 ≤ i →
  (i ≠ 0 → is_Some (strings.at_ header (i - 1))) ∧
  (i + strings.len token ≠ strings.len header →
   is_Some (strings.at_ header (i + strings.len token))).
Proof.
  intros i Hi. destruct (Index_split header token Hi) as (pre & post & Hh & Hlen).
  fold i in Hlen.
  assert (strings.len header = i + strings.len token + strings.len post) as Hl.
  { rewrite Hh, !len_append. unfold strings.len at 1. lia. }
  assert (0 ≤ strings.len token ∧ 0 ≤ strings.len post) as [??]
    by (unfold strings.len; lia).
  split; intros ?; apply at_is_Some; lia.
Qed.

(** What [hasToken] computes: whether the first occurrence of the token
    is delimited on both sides. *)
Lemma hasToken_first_occurrence (pre token post : string) :
  strings.Index (pre +:+ token +:+ post) token = strings.len pre →
  hasToken (pre +:+ token +:+ post) token = true ↔
  left_delimited pre ∧ right_delimited post.
Proof.
  intros Hidx. unfold hasToken. rewrite Hidx.
  assert (0 ≤ strings.len pre ∧ 0 ≤ strings.len token ∧ 0 ≤ strings.len post)
    as (? & ? & ?) by (unfold strings.len; lia).
  rewrite !len_append, !andb_true_iff, !orb_true_iff, Z.leb_le, !Z.eqb_eq.
  unfold isSeparatorAt. split.
  - intros [[_ Hleft] Hright]. split.
    + destruct Hleft as [Hz|Hsep].
      * left. destruct pre; [done|]. unfold strings.len in Hz. simpl in Hz. lia.
      * right.
        destruct (strings.at_ _ (strings.len pre - 1)) as [c|] eqn:Hat; [|done].
        simpl in Hsep. assert (0 ≤ strings.len pre - 1) as Hpos.
        { unfold strings.at_ in Hat.
          destruct (Z.ltb_spec (strings.len pre - 1) 0); [done|lia]. }
        destruct (at_last pre _ c _ Hpos eq_refl Hat) as [pre' ->].
        by exists pre', c.
    + destruct Hright as [Hend|Hsep].
      * left. destruct post; [done|]. unfold strings.len in Hend.
        simpl in Hend. lia.
      * right. rewrite <-append_assoc, <-len_append in Hsep.
        unfold strings.len at 1 in Hsep.
        rewrite <-(Z.add_0_r (Z.of_nat _)), at_append_r in Hsep by lia.
        destruct post as [|c post']; [done|]. by exists c, post'.
  - intros [Hleft Hright]. split; [split; [lia|]|].
    + destruct Hleft as [->|(pre' & c & -> & Hc)]; [by left|right].
      rewrite append_assoc, append_cons, len_append.
      replace (strings.len pre' + strings.len (String c "") - 1)
        with (strings.len pre') by (unfold strings.len; simpl; lia).
      by rewrite at_before.
    + destruct Hright as [->|(c & post' & -> & Hc)];
        [left; unfold strings.len; simpl; lia|right].
      by rewrite <-append_assoc, <-len_append, at_before.
Qed.

(** Whenever [hasToken] answers [true], the token does stand delimited in
    the header. *)
Lemma hasToken_sound (header token : string) :
  hasToken header token = true → Delimited header token.
Proof.
  intros Htok.
  assert (0 ≤ strings.Index header token) as Hi.
  { unfold hasToken in Htok. apply andb_true_iff in Htok as [Htok _].
    apply andb_true_iff in Htok as [Htok _]. by apply Z.leb_le. }
  destruct (Index_split header token Hi) as (pre & post & -> & Hlen).
  exists pre, post. split; [done|].
  by apply (hasToken_first_occurrence pre token post).
Qed.

(** Without any occurrence the answer is [false]; in particular a
    non-empty token is not found in the empty header. *)
Lemma hasToken_absent (header token : string) :
  strings.Index header token = -1 → hasToken header token = false.
Proof. intros Hidx. unfold hasToken. by rewrite Hidx. Qed.

Lemma hasToken_empty_header (token : string) :
  token ≠ "" → hasToken "" token = false.
Proof. intros Hne. by destruct token. Qed.

Lemma later_occurrence_Delimited : Delimited "x-gzip, gzip" "gzip".
Proof.
  exists "x-gzip, ", "". split; [reflexivity|]. split; [|by left].
  right. by exists "x-gzip,", " "%char.
Qed.

(** C1 (as found in the code).  [hasToken] looks at the first occurrence
    of the token only: in ["x-gzip, gzip"] the token [gzip] stands
    delimited by a space and the end of the string, yet the first
    occurrence of the bytes [gzip] follows a [-], and the answer is
    [false]. *)
Theorem hasToken_misses_later_occurrence :
  hasToken "x-gzip, gzip" "gzip" = false ∧ Delimited "x-gzip, gzip" "gzip".
Proof. split; [reflexivity|apply later_occurrence_Delimited]. Qed.

(** The equivalence of the claim therefore fails from right to left. *)
Lemma hasToken_not_complete :
  ¬ ∀ header token, Delimited header token → hasToken header token = true.
Proof.
  intros Hall. specialize (Hall _ _ later_occurrence_Delimited).
  by vm_compute in Hall.
Qed.

End hasToken_facts.

(** ** Header maps *)

Section header_facts.

#[global] Instance Sink_HeaderLaws : HeaderLaws Sink.
Proof. split; done. Qed.

#[global] Instance conneg_HeaderLaws `{HeaderLaws W}
  : HeaderLaws (connegResponseWriter W).
Proof.
  split.
  - intros h [sup rw hd wr]. simpl. unfold conneg_getHeader, conneg_setHeader.
    simpl. destruct (wr && negb sup) eqn:E; simpl; rewrite E; [|done].
    apply getHeader_setHeader.
  - intros h h' [sup rw hd wr]. simpl. unfold conneg_setHeader. simpl.
    destruct (wr && negb sup) eqn:E; simpl; rewrite E; [|done].
    by rewrite setHeader_setHeader.
Qed.

#[global] Instance rwce_HeaderLaws `{HeaderLaws W}
  : HeaderLaws (responseWithContentEncoding W).
Proof.
  split.
  - intros h r. simpl. unfold rwce_getHeader, rwce_setHeader. simpl.
    apply getHeader_setHeader.
  - intros h h' r. simpl. unfold rwce_setHeader. simpl.
    by rewrite setHeader_setHeader.
Qed.

Context `{HeaderLaws W}.

(** The flush loop leaves the real writer alone for an empty buffer and
    otherwise only stores a header map in it; key by key, that map holds
    the old values followed by the buffered ones, whatever the order in
    which the loop visits the buffer. *)
Lemma flushHeader_spec (buf : Header) (rw : W) :
  (flushHeader buf rw = rw ∨ ∃ h, flushHeader buf rw = setHeader h rw) ∧
  ∀ k, getHeader (flushHeader buf rw) !! k = appended buf (getHeader rw !! k) k.
Proof.
  unfold flushHeader.
  apply (map_fold_weak_ind (λ (r : W) (m : Header),
    (r = rw ∨ ∃ h, r = setHeader h rw) ∧
    ∀ k, getHeader r !! k = appended m (getHeader rw !! k) k)).
  - split; [by left|]. intros k. unfold appended. by rewrite lookup_empty.
  - intros i x m r Hi [Hshape Hlook]. split.
    + right. destruct Hshape as [->|[h ->]]; [eauto|].
      rewrite setHeader_setHeader. eauto.
    + intros k. rewrite getHeader_setHeader. unfold appended.
      destruct (decide (i = k)) as [->|Hne].
      * rewrite !lookup_insert_eq. rewrite Hlook. unfold appended.
        by rewrite Hi.
      * rewrite !lookup_insert_ne by done. apply Hlook.
Qed.

Lemma flushHeader_empty (rw : W) : flushHeader ∅ rw = rw.
Proof. unfold flushHeader. apply map_fold_empty. Qed.

End header_facts.

(** ** Running a handler's calls *)

Section run_facts.
Context {W : Type} `{ResponseWriter W}.

Lemma edits_any (p : calls) : edits (λ _ _, True) p.
Proof. induction p; simpl; auto. Qed.

Lemma edits_weaken (ok ok' : string → edit → Prop) (p : calls) :
  (∀ k f, ok k f → ok' k f) → edits ok p → edits ok' p.
Proof. intros Hw. induction p; simpl; intuition auto. Qed.

(** A property of the writer that every single call preserves holds
    after any handler whose header edits stay within [ok]. *)
Lemma run_invariant (I : W → Prop) (ok : string → edit → Prop) :
  (∀ w key f, ok key f → I w →
     I (setHeader (partial_alter f key (getHeader w)) w)) →
  (∀ w code, I w → I (WriteHeader code w)) →
  (∀ w b, I w → I (Write b w).2) →
  (∀ w src, I w → I (ReadFrom src w).2) →
  ∀ p w, edits ok p → I w → I (run p w).
Proof.
  intros Hedit Hstatus Hwrite Hcopy p.
  induction p as [|k IH|key f k IH|code k IH|b k IH|src k IH];
    simpl; intros w Hp Hw.
  - done.
  - by apply IH.
  - destruct Hp. apply IH; [done|]. by apply Hedit.
  - apply IH; [done|]. by apply Hstatus.
  - specialize (Hwrite w b Hw). destruct (Write b w) as [res w'].
    by apply IH.
  - specialize (Hcopy w src Hw). destruct (ReadFrom src w) as [res w'].
    by apply IH.
Qed.

End run_facts.

(** ** The deferred-header shim *)

Section conneg_facts.
Context {W : Type} `{HeaderLaws W}.

(** A suppressed shim ignores every call but for its private buffer. *)
Lemma run_suppressed (p : calls) (c : connegResponseWriter W) :
  Suppressed c = true → wroteHeader c = true →
  Suppressed (run p c) = true ∧ wroteHeader (run p c) = true ∧
  realWriter (run p c) = realWriter c.
Proof.
  intros Hs Hw.
  apply (run_invariant
           (λ c', Suppressed c' = true ∧ wroteHeader c' = true ∧
                  realWriter c' = realWriter c) (λ _ _, True));
    [| | | |apply edits_any|done].
  - intros [sup rw hd wr] key f _ (Hs' & Hw' & Hr); simpl in *; subst.
    by unfold conneg_setHeader.
  - intros [sup rw hd wr] code (Hs' & Hw' & Hr); simpl in *; subst.
    by unfold conneg_WriteHeader.
  - intros [sup rw hd wr] b (Hs' & Hw' & Hr); simpl in *; subst.
    by unfold conneg_Write.
  - intros [sup rw hd wr] src (Hs' & Hw' & Hr); simpl in *; subst.
    by unfold conneg_ReadFrom.
Qed.

(** C4.  The first [WriteHeader] of the deferred-header shim.  With 404
    the shim turns suppressed and the real writer is left as it was, by
    this call and by whatever the handler calls afterwards: the buffered
    headers never reach it and the status is not forwarded.  With any
    other code every buffered key is appended to the real writer's entry
    for that key, and the status is then forwarded to the real writer. *)
Theorem conneg_WriteHeader_first (code : Z) (c : connegResponseWriter W) :
  wroteHeader c = false →
  let c' := conneg_WriteHeader code c in
  (code = StatusNotFound →
     Suppressed c' = true ∧ wroteHeader c' = true ∧
     realWriter c' = realWriter c ∧
     ∀ p, Suppressed (run p c') = true ∧ realWriter (run p c') = realWriter c) ∧
  (code ≠ StatusNotFound →
     ∃ rw,
       c' = mkConneg (Suppressed c) (WriteHeader code rw) None true ∧
       (rw = realWriter c ∨ ∃ h, rw = setHeader h (realWriter c)) ∧
       ∀ k, getHeader rw !! k =
            appended (default ∅ (header c)) (getHeader (realWriter c) !! k) k).
Proof.
  intros Hw c'. subst c'. unfold conneg_WriteHeader. rewrite Hw. split.
  - intros ->. simpl. repeat split; try done;
      by destruct (run_suppressed p
                     (mkConneg true (realWriter c) (header c) true))
        as (? & ? & ?).
  - intros Hne. destruct (Z.eqb_spec code StatusNotFound) as [|_]; [done|].
    exists (flushHeader (default ∅ (header c)) (realWriter c)).
    destruct (flushHeader_spec (default ∅ (header c)) (realWriter c)) as [? ?].
    done.
Qed.

(** C3 (amended).  On a suppressed shim [Write] reports the whole input
    as written and [ReadFrom] reports no byte copied, both without error,
    and neither touches the real writer nor any field of the shim. *)
Theorem conneg_suppressed_writes (c : connegResponseWriter W)
  (b src : list byte) :
  Suppressed c = true →
  conneg_Write b c = ((Z.of_nat (length b), None), c) ∧
  conneg_ReadFrom src c = ((0, None), c).
Proof. intros Hs. unfold conneg_Write, conneg_ReadFrom. by rewrite Hs. Qed.

End conneg_facts.

Section conneg_examples.

Lemma conneg_WriteHeader_first_witness :
  let c := mkConneg false newSink
             (Some {[ "Content-Type" := ["text/html; charset=utf-8"] ]}) false in
  wroteHeader c = false ∧
  realWriter (conneg_WriteHeader StatusNotFound c) = newSink ∧
  sent (realWriter (conneg_WriteHeader StatusOK c)) =
    Some (StatusOK, {[ "Content-Type" := ["text/html; charset=utf-8"] ]}).
Proof.
  intros c. split; [reflexivity|].
  destruct (conneg_WriteHeader_first StatusNotFound c eq_refl) as [H404 _].
  destruct (H404 eq_refl) as (_ & _ & Hreal & _).
  split; [exact Hreal|]. vm_compute. reflexivity.
Defined.

Lemma conneg_suppressed_writes_witness :
  let c := conneg_WriteHeader StatusNotFound (mkConneg false newSink None false) in
  let b := String.list_byte_of_string "404 page not found" in
  Suppressed c = true ∧
  conneg_Write b c = ((18, None), c) ∧ conneg_ReadFrom b c = ((0, None), c).
Proof.
  intros c b. split; [reflexivity|].
  exact (conneg_suppressed_writes c b b eq_refl).
Defined.

(** C3 as stated fails for the bulk copy: on a suppressed shim [ReadFrom]
    reports 0 bytes, not the 3 bytes its reader had to give. *)
Lemma conneg_ReadFrom_suppressed_reports_zero :
  let c := conneg_WriteHeader StatusNotFound (mkConneg false newSink None false) in
  let src := String.list_byte_of_string "abc" in
  Suppressed c = true ∧
  (conneg_ReadFrom src c).1 = (0, None) ∧
  (conneg_ReadFrom src c).1.1 ≠ Z.of_nat (length src).
Proof. intros c src. vm_compute. by repeat split. Qed.

End conneg_examples.

(** ** The auto-header shim *)

Section rwce_facts.
Context {W : Type} `{HeaderLaws W}.

(** The first [WriteHeader] of the auto-header shim, for a status other
    than 200: the call is forwarded and nothing else happens. *)
Lemma rwce_WriteHeader_other (code : Z) (r : responseWithContentEncoding W) :
  headersSent r = false → code ≠ StatusOK →
  rwce_WriteHeader code r =
    mkRWCE (WriteHeader code (w r)) (encoding r) (isConneg r) true.
Proof.
  intros Hs Hne. unfold rwce_WriteHeader. rewrite Hs.
  by destruct (Z.eqb_spec code StatusOK).
Qed.

Lemma rwce_WriteHeader_fields (code : Z) (r : responseWithContentEncoding W) :
  headersSent (rwce_WriteHeader code r) = true ∧
  encoding (rwce_WriteHeader code r) = encoding r ∧
  isConneg (rwce_WriteHeader code r) = isConneg r.
Proof.
  unfold rwce_WriteHeader. destruct r as [w0 enc cg [|]]; simpl; [done|].
  destruct (code =? StatusOK); [|done].
  by destruct (decide (enc ≠ "")), cg.
Qed.

Lemma rwce_WriteHeader_OK (r : responseWithContentEncoding W) :
  headersSent r = false →
  ∃ w1, rwce_WriteHeader StatusOK r =
          mkRWCE (WriteHeader StatusOK w1) (encoding r) (isConneg r) true ∧
        (w1 = w r ∨ w1 = setHeader (injected r) (w r)) ∧
        getHeader w1 = injected r.
Proof.
  intros Hs. unfold rwce_WriteHeader, injected, inject. rewrite Hs. simpl.
  unfold rwce_setHeader, rwce_getHeader.
  destruct r as [w0 enc cg hs]; simpl in *.
  destruct (decide (enc ≠ "")), cg; simpl; eexists; (split; [reflexivity|]);
    rewrite ?getHeader_setHeader, ?setHeader_setHeader; auto.
Qed.

Lemma rwce_WriteHeader_first (code : Z) (w0 : W) (enc : string) (cg : bool) :
  rwce_WriteHeader code (mkRWCE w0 enc cg false) =
    mkRWCE (WriteHeader code
              (if code =? StatusOK then inject_w enc cg w0 else w0))
           enc cg true.
Proof.
  unfold rwce_WriteHeader, inject_w. simpl.
  destruct (code =? StatusOK); [|done].
  by destruct (decide (enc ≠ "")), cg.
Qed.

(** A first [Write] or [ReadFrom] is a [WriteHeader(StatusOK)] followed
    by that call. *)
Lemma rwce_Write_implicit (b : list byte) (r : responseWithContentEncoding W) :
  headersSent r = false →
  rwce_Write b r = rwce_Write b (rwce_WriteHeader StatusOK r).
Proof.
  intros Hs. unfold rwce_Write. rewrite Hs. simpl.
  destruct (rwce_WriteHeader_fields StatusOK r) as [Hh _].
  by assert (negb (headersSent (rwce_WriteHeader StatusOK r)) = false) as ->
    by (by rewrite Hh).
Qed.

Lemma rwce_ReadFrom_implicit (src : list byte)
  (r : responseWithContentEncoding W) :
  headersSent r = false →
  rwce_ReadFrom src r = rwce_ReadFrom src (rwce_WriteHeader StatusOK r).
Proof.
  intros Hs. unfold rwce_ReadFrom. rewrite Hs. simpl.
  destruct (rwce_WriteHeader_fields StatusOK r) as [Hh _].
  by assert (negb (headersSent (rwce_WriteHeader StatusOK r)) = false) as ->
    by (by rewrite Hh).
Qed.

(** The auto-header shim around any writer: a property [A] of the wrapped
    writer that holds until the first status, and a property [D] that
    holds from then on. *)
Lemma run_rwce (enc : string) (cg : bool) (ok : string → edit → Prop)
  (A D : W → Prop) :
  (∀ w0 key f, ok key f → A w0 →
     A (setHeader (partial_alter f key (getHeader w0)) w0)) →
  (∀ w0, A w0 → D (WriteHeader StatusOK (inject_w enc cg w0))) →
  (∀ w0 code, code ≠ StatusOK → A w0 → D (WriteHeader code w0)) →
  (∀ w0 h, D w0 → D (setHeader h w0)) →
  (∀ w0 code, D w0 → D (WriteHeader code w0)) →
  (∀ w0 b, D w0 → D (Write b w0).2) →
  (∀ w0 src, D w0 → D (ReadFrom src w0).2) →
  ∀ p w0, edits ok p → A w0 →
    let x := run p (mkRWCE w0 enc cg false) in
    (headersSent x = false ∧ A (w x)) ∨ (headersSent x = true ∧ D (w x)).
Proof.
  intros Hedit H200 Hother Dedit Dstatus Dwrite Dcopy p w0 Hp HA.
  set (I := λ x : responseWithContentEncoding W,
    encoding x = enc ∧ isConneg x = cg ∧
    ((headersSent x = false ∧ A (w x)) ∨ (headersSent x = true ∧ D (w x)))).
  cut (I (run p (mkRWCE w0 enc cg false))); [by intros (_ & _ & ?)|].
  assert (∀ x code, I x → I (rwce_WriteHeader code x) ∧
                            headersSent (rwce_WriteHeader code x) = true)
    as Hstatus.
  { intros [x0 e c hs] code (He & Hc & Hst).
    cbn [encoding isConneg headersSent w] in *. subst.
    destruct Hst as [[-> HA']|[-> HD]].
    - rewrite rwce_WriteHeader_first. split; [|done]. repeat split. right.
      split; [done|]. simpl. destruct (Z.eqb_spec code StatusOK) as [->|Hne]; auto.
    - unfold rwce_WriteHeader. simpl. split; [|done]. repeat split. auto. }
  assert (∀ x, I x →
            let x1 := if negb (headersSent x)
                      then rwce_WriteHeader StatusOK x else x in
            encoding x1 = enc ∧ isConneg x1 = cg ∧ headersSent x1 = true ∧
            D (w x1)) as Himplicit.
  { intros x Hx x1. subst x1. destruct (headersSent x) eqn:E; simpl.
    - destruct Hx as (? & ? & [[? _]|[_ ?]]); [congruence|done].
    - destruct (Hstatus x StatusOK Hx) as [(? & ? & [[? _]|[_ ?]]) Hhs];
        [congruence|done]. }
  apply (run_invariant I ok); [| | | |done|].
  - intros [x0 e c hs] key f Hok (He & Hc & Hst); simpl in *; subst.
    unfold I, rwce_setHeader, rwce_getHeader. simpl. repeat split.
    destruct Hst as [[-> HA']|[-> HD]]; [left|right]; auto.
  - intros x code Hx. by apply Hstatus.
  - intros x b Hx. destruct (Himplicit x Hx) as (He & Hc & Hhs & HD).
    simpl. unfold rwce_Write.
    destruct (if negb (headersSent x) then _ else _) as [x1 e c hs].
    simpl in *. subst. specialize (Dwrite x1 b HD).
    destruct (Write b x1) as [res x2]. simpl. repeat split. auto.
  - intros x src Hx. destruct (Himplicit x Hx) as (He & Hc & Hhs & HD).
    simpl. unfold rwce_ReadFrom, io_Copy.
    destruct (if negb (headersSent x) then _ else _) as [x1 e c hs].
    simpl in *. subst. specialize (Dcopy x1 src HD).
    destruct (ReadFrom src x1) as [res x2]. simpl. repeat split. auto.
  - repeat split. left. auto.
Qed.

(** C10.  When the auto-header shim commits a 200, the header map with
    which the status goes to the wrapped writer holds exactly
    [[encoding]] under Content-Encoding (for a non-empty encoding) and
    exactly [["Accept-Encoding"]] under Vary (when negotiating), whatever
    was there under these names before; every other entry is as it
    was. *)
Theorem rwce_WriteHeader_OK_overwrites (r : responseWithContentEncoding W) :
  headersSent r = false →
  ∃ w1,
    rwce_WriteHeader StatusOK r =
      mkRWCE (WriteHeader StatusOK w1) (encoding r) (isConneg r) true ∧
    (encoding r ≠ "" → getHeader w1 !! "Content-Encoding" = Some [encoding r]) ∧
    (isConneg r = true → getHeader w1 !! "Vary" = Some ["Accept-Encoding"]) ∧
    (encoding r = "" →
       getHeader w1 !! "Content-Encoding" = getHeader (w r) !! "Content-Encoding") ∧
    (isConneg r = false → getHeader w1 !! "Vary" = getHeader (w r) !! "Vary") ∧
    (∀ k, k ≠ "Content-Encoding" → k ≠ "Vary" →
       getHeader w1 !! k = getHeader (w r) !! k).
Proof.
  intros Hs. destruct (rwce_WriteHeader_OK r Hs) as (w1 & Heq & _ & Hh).
  exists w1. split; [done|]. rewrite Hh. unfold injected, inject, Set_.
  destruct r as [w0 enc cg hs]; simpl in *.
  repeat split.
  - intros Henc. destruct (decide (enc ≠ "")); [|done].
    destruct cg; [rewrite lookup_insert_ne by done|]; apply lookup_insert_eq.
  - intros ->. apply lookup_insert_eq.
  - intros ->. destruct (decide ("" ≠ "")); [done|].
    destruct cg; [by rewrite lookup_insert_ne|done].
  - intros ->. destruct (decide (enc ≠ "")); [|done].
    by rewrite lookup_insert_ne.
  - intros k Hce Hv.
    destruct (decide (enc ≠ "")), cg;
      rewrite ?(lookup_insert_ne _ "Vary") by done;
      rewrite ?(lookup_insert_ne _ "Content-Encoding") by done; done.
Qed.

End rwce_facts.

Section rwce_examples.

(** On a sink that has sent nothing, what goes out with the 200 is that
    header map. *)
Lemma rwce_WriteHeader_OK_sent (r : responseWithContentEncoding Sink) :
  headersSent r = false → sent (w r) = None →
  sent (w (rwce_WriteHeader StatusOK r)) = Some (StatusOK, injected r) ∧
  headerMap (w (rwce_WriteHeader StatusOK r)) = injected r.
Proof.
  intros Hs Hsent. destruct (rwce_WriteHeader_OK r Hs) as (w1 & -> & Hw1 & Hh).
  simpl in *. unfold Sink_WriteHeader.
  destruct Hw1 as [->| ->]; simpl in *; rewrite Hsent; simpl; by rewrite ?Hh.
Qed.

Lemma rwce_WriteHeader_OK_overwrites_witness :
  let s := mkSink {[ "Vary" := ["Origin"]; "Content-Encoding" := ["identity"] ]}
             None [] in
  let r := mkRWCE s "br" true false in
  headersSent r = false ∧
  ∃ w1, rwce_WriteHeader StatusOK r = mkRWCE (WriteHeader StatusOK w1) "br" true true ∧
        getHeader w1 !! "Content-Encoding" = Some ["br"] ∧
        getHeader w1 !! "Vary" = Some ["Accept-Encoding"].
Proof.
  intros s r. split; [reflexivity|].
  destruct (rwce_WriteHeader_OK_overwrites r eq_refl)
    as (w1 & Heq & Hce & Hvary & _).
  exists w1. split; [exact Heq|].
  split; [apply Hce; discriminate|apply Hvary; reflexivity].
Defined.

End rwce_examples.

(** ** The streaming-compression selector *)

Section GetWriter_facts.
Context {W : Type} `{HeaderLaws W}.

(** C8.  [GetWriter] appends [Accept-Encoding] to the sink's Vary entry
    whether or not it compresses, changes nothing else of the sink (no
    status, no byte), and hands back a gzip writer around the sink
    exactly when [hasToken] finds [gzip] in the request's
    Accept-Encoding; otherwise it hands back the sink itself. *)
Theorem GetWriter_spec (w0 : W) (r : Request) :
  let out := GetWriter w0 r in
  let gz := hasToken (Get (ReqHeader r) "Accept-Encoding") "gzip" in
  getHeader (dst_of out) !! "Vary" =
    Some (default [] (getHeader w0 !! "Vary") ++ ["Accept-Encoding"]) ∧
  (∀ k, k ≠ "Vary" → getHeader (dst_of out) !! k = getHeader w0 !! k) ∧
  dst_of out = setHeader (getHeader (dst_of out)) w0 ∧
  isGzip out = gz ∧
  out = (if gz then gzip_NewWriter (dst_of out) else same (dst_of out)).
Proof.
  intros out gz. subst out. unfold GetWriter. fold gz.
  assert (∀ d : W, dst_of (if gz then gzip_NewWriter d else same d) = d) as Hd
    by (intros d; by destruct gz).
  rewrite !Hd, !getHeader_setHeader. unfold Add. repeat split.
  - apply lookup_insert_eq.
  - intros k Hk. by rewrite lookup_insert_ne.
  - by destruct gz.
Qed.

End GetWriter_facts.

Section GetWriter_examples.
Import encneg_test.

Lemma GetWriter_spec_witness :
  let gz := GetWriter newSink (NewRequest "/" "gzip") in
  let id := GetWriter newSink (NewRequest "/" "br") in
  (isGzip gz = true ∧
   headerMap (dst_of gz) !! "Vary" = Some ["Accept-Encoding"]) ∧
  (id = same (dst_of id) ∧
   headerMap (dst_of id) !! "Vary" = Some ["Accept-Encoding"]).
Proof.
  intros gz id.
  destruct (GetWriter_spec newSink (NewRequest "/" "gzip"))
    as (Hvary & _ & _ & Hgz & _).
  destruct (GetWriter_spec newSink (NewRequest "/" "br"))
    as (Hvary' & _ & _ & _ & Hid).
  split; split; [exact Hgz|exact Hvary|exact Hid|exact Hvary'].
Defined.

End GetWriter_examples.

(** ** The request across a probe *)

Section request_facts.
Context {W : Type} `{ResponseWriter W}.
Variable TypeByExtension : string → string.

Lemma serveCompressedFile_request `{ResponseWriter V} (f : fileHandler)
  (ext enc path : string) (cg : bool) (v : V) (r : Request) :
  (serveCompressedFile TypeByExtension f ext enc path cg v r).2 = (fs f r).2.
Proof.
  unfold serveCompressedFile, delegate.
  destruct (decide _); by destruct (fs f r).
Qed.

Lemma tryServeCompressedFile_request (f : fileHandler)
  (ext enc path : string) (w0 : W) (r : Request) :
  keeps_but_path (fs f) →
  (tryServeCompressedFile TypeByExtension f ext enc path w0 r).2 = r.
Proof.
  intros Hfs. unfold tryServeCompressedFile.
  pose proof (serveCompressedFile_request f ext enc path true
                (mkConneg false w0 None false) (set_Path (path +:+ ext) r)) as Hr.
  destruct (serveCompressedFile _ _ _ _ _ _ _ _) as [crw r2]. simpl in *.
  subst r2. specialize (Hfs (set_Path (path +:+ ext) r)).
  destruct ((fs f (set_Path (path +:+ ext) r)).2) as [m [pth q] hd].
  destruct r as [m0 [pth0 q0] hd0]. unfold set_Path in *. simpl in *.
  injection Hfs as -> -> ->. done.
Qed.

(** C7.  [tryServeCompressedFile] gives the request back with the URL
    path it had on entry, whether the probe was suppressed or served and
    whatever the delegate did to the path it was shown; with a delegate
    that touches no other field, the request comes back equal to the one
    that went in. *)
Theorem tryServeCompressedFile_restores_request (f : fileHandler)
  (ext enc path : string) (w0 : W) (r : Request) :
  keeps_but_path (fs f) →
  ∀ (served : bool) (w1 : W) (r' : Request),
    tryServeCompressedFile TypeByExtension f ext enc path w0 r = (served, w1, r') →
    Path (URL_ r') = Path (URL_ r) ∧ r' = r.
Proof.
  intros Hfs served w1 r' Htry.
  pose proof (tryServeCompressedFile_request f ext enc path w0 r Hfs) as Hr.
  rewrite Htry in Hr. simpl in Hr. by subst r'.
Qed.

(** The path is restored even under a delegate that rewrites every field
    of the request. *)
Lemma tryServeCompressedFile_restores_path (f : fileHandler)
  (ext enc path : string) (w0 : W) (r : Request) :
  Path (URL_ (tryServeCompressedFile TypeByExtension f ext enc path w0 r).2)
  = Path (URL_ r).
Proof.
  unfold tryServeCompressedFile.
  by destruct (serveCompressedFile _ _ _ _ _ _ _ _) as [crw r2].
Qed.

(** X15.  [ServeHTTP] as a whole leaves the request as it found it,
    whichever of its paths it takes and on any writer, when the delegate
    leaves the request alone: the path rewritten for a probe is put back
    before the next attempt sees the request. *)
Lemma ServeHTTP_request (f : fileHandler) (w0 : W) (r : Request) :
  (∀ q, (fs f q).2 = q) →
  (ServeHTTP TypeByExtension f w0 r).2 = r.
Proof.
  intros Hfs.
  assert (keeps_but_path (fs f)) as Hk.
  { intros q. rewrite Hfs. by destruct q as [m [pth qs] hd]. }
  assert (∀ `{ResponseWriter V} (v : V) q, (delegate (fs f) v q).2 = q) as Hd.
  { intros V ? v q. unfold delegate. specialize (Hfs q). by destruct (fs f q). }
  unfold ServeHTTP.
  destruct (strings.HasSuffix _ "/index.html"); [apply Hd|].
  destruct (decide _).
  { rewrite serveCompressedFile_request. apply Hfs. }
  set (p := if strings.HasSuffix _ "/" then _ else _).
  set (ae := Get _ _).
  assert (∀ ext enc w1,
            (tryServeCompressedFile TypeByExtension f ext enc p w1 r).2 = r) as Htry.
  { intros. by apply tryServeCompressedFile_request. }
  destruct (hasToken ae "br").
  - specialize (Htry ".br" "br" w0).
    destruct (tryServeCompressedFile _ _ ".br" _ _ _ _) as [[served w1] r1].
    simpl in Htry. subst r1. destruct served; [done|].
    destruct (hasToken ae "gzip").
    + pose proof (tryServeCompressedFile_request f ".gz" "gzip" p w1 r Hk) as Hgz.
      destruct (tryServeCompressedFile _ _ ".gz" _ _ _ _) as [[served w2] r2].
      simpl in Hgz. subst r2. destruct served; [done|].
      specialize (Hd _ _ (mkRWCE w2 "" true false) r).
      by destruct (delegate _ _ _).
    + specialize (Hd _ _ (mkRWCE w1 "" true false) r).
      by destruct (delegate _ _ _).
  - destruct (hasToken ae "gzip").
    + pose proof (tryServeCompressedFile_request f ".gz" "gzip" p w0 r Hk) as Hgz.
      destruct (tryServeCompressedFile _ _ ".gz" _ _ _ _) as [[served w2] r2].
      simpl in Hgz. subst r2. destruct served; [done|].
      specialize (Hd _ _ (mkRWCE w2 "" true false) r).
      by destruct (delegate _ _ _).
    + specialize (Hd _ _ (mkRWCE w0 "" true false) r).
      by destruct (delegate _ _ _).
Qed.

End request_facts.

(** ** The delay-injection handler *)

Section Delay_facts.
Import testhandlers.
Variable ParseDuration : string → Duration * error.


End Delay_facts.

Section Delay_examples.
Import testhandlers.


(** The rows of [TestDelay]. *)
Lemma TestDelay :
  sleeps (Delay time.ParseDuration (mkRequest "GET" (mkURL "/" ∅) ∅)) = [] ∧
  sleeps (Delay time.ParseDuration (delayRequest "")) = [] ∧
  sleeps (Delay time.ParseDuration (delayRequest "invalid")) = [] ∧
  sleeps (Delay time.ParseDuration (delayRequest "10")) = [] ∧
  sleeps (Delay time.ParseDuration (delayRequest "10msinvalid")) = [] ∧
  sleeps (Delay time.ParseDuration (delayRequest "10ms"))
    = [10 * time.Millisecond] ∧
  sleeps (Delay time.ParseDuration (delayRequest "3s30ms"))
    = [3 * time.Second + 30 * time.Millisecond].
Proof. by vm_compute. Qed.

End Delay_examples.

(** ** The shims over the server's sink *)

(** Unfolding the methods of the two shims and of the sink. *)
Ltac shims :=
  simpl in *;
  unfold rwce_setHeader, rwce_getHeader, rwce_WriteHeader, rwce_Write,
    rwce_ReadFrom, conneg_setHeader, conneg_getHeader, conneg_WriteHeader,
    conneg_Write, conneg_ReadFrom, io_Copy in *;
  simpl in *;
  unfold Sink_ReadFrom, Sink_Write, Sink_WriteHeader in *;
  simpl in *.

Section stack_facts.

Lemma flushHeader_Sink (buf : Header) (s : Sink) :
  sent (flushHeader buf s) = sent s ∧ body (flushHeader buf s) = body s ∧
  ∀ k, headerMap (flushHeader buf s) !! k = appended buf (headerMap s !! k) k.
Proof.
  destruct (flushHeader_spec buf s) as [Hshape Hlook].
  split_and!; [| |exact Hlook];
    by destruct Hshape as [->|[h ->]].
Qed.

(** What has been sent can no longer change. *)
Lemma Sink_sent_stable (p : calls) (s : Sink) (st : Z * Header) :
  sent s = Some st → sent (run p s) = Some st.
Proof.
  intros Hs.
  apply (run_invariant (λ s', sent s' = Some st) (λ _ _, True));
    [| | | |apply edits_any|done].
  - by intros [??] ??.
  - intros s' code Hs'. simpl. unfold Sink_WriteHeader. by rewrite Hs'.
  - intros s' b Hs'. simpl. unfold Sink_WriteHeader. by rewrite Hs'.
  - intros s' [|x src] Hs'; simpl; [done|].
    unfold Sink_WriteHeader. by rewrite Hs'.
Qed.

(** The sink alone, under a delegate: a property [Q0] of the header map
    that the delegate's edits preserve holds of whatever is sent. *)
Lemma run_sink (ok : string → edit → Prop) (Q0 : Header → Prop) :
  (∀ h key f, ok key f → Q0 h → Q0 (partial_alter f key h)) →
  ∀ p s0, edits ok p → sent s0 = None → Q0 (headerMap s0) →
    ∀ code hdrs, sent (run p s0) = Some (code, hdrs) → Q0 hdrs.
Proof.
  intros Hedit p s0 Hp Hsent HQ0.
  cut ((sent (run p s0) = None ∧ Q0 (headerMap (run p s0))) ∨
       ∃ code hdrs, sent (run p s0) = Some (code, hdrs) ∧ Q0 hdrs).
  { intros [[Hn _]|(c & h & Hc & HQ)] code hdrs Hs; [congruence|].
    rewrite Hc in Hs. by injection Hs as <- <-. }
  apply (run_invariant
           (λ s, (sent s = None ∧ Q0 (headerMap s)) ∨
                 ∃ code hdrs, sent s = Some (code, hdrs) ∧ Q0 hdrs) ok);
    [| | | |done|by left].
  - intros [hm st bd] key f Hok [[Hn HQ]|HS]; simpl in *; [left|right]; auto.
  - intros [hm st bd] code [[Hn HQ]|HS]; simpl in *; right; subst;
      unfold Sink_WriteHeader; simpl; [eauto|].
    destruct HS as (c & h & -> & HQ). eauto.
  - intros [hm st bd] b [[Hn HQ]|HS]; simpl in *; right; subst;
      unfold Sink_WriteHeader; simpl; [eauto|].
    destruct HS as (c & h & -> & HQ). simpl. eauto.
  - intros [hm st bd] [|x src] [[Hn HQ]|HS]; simpl in *; subst;
      unfold Sink_WriteHeader; simpl; eauto.
    right. destruct HS as (c & h & -> & HQ). simpl. eauto.
Qed.

(** The auto-header shim directly over the sink. *)
Lemma run_direct (enc : string) (cg : bool) (ok : string → edit → Prop)
  (Q0 : Header → Prop) (Q : Z → Header → Prop) :
  (∀ h key f, ok key f → Q0 h → Q0 (partial_alter f key h)) →
  (∀ h, Q0 h → Q StatusOK (inject enc cg h)) →
  (∀ h code, code ≠ StatusOK → Q0 h → Q code h) →
  ∀ p s0, edits ok p → sent s0 = None → Q0 (headerMap s0) →
    ∀ code hdrs,
      sent (w (run p (mkRWCE s0 enc cg false))) = Some (code, hdrs) →
      Q code hdrs.
Proof.
  intros Hedit H200 Hother p s0 Hp Hsent HQ0.
  destruct (run_rwce enc cg ok
              (λ s : Sink, sent s = None ∧ Q0 (headerMap s))
              (λ s : Sink, ∃ code hdrs, sent s = Some (code, hdrs) ∧ Q code hdrs))
    with p s0 as [[_ [Hn _]]|[_ (c & h & Hc & HQ)]]; try done.
  - intros [hm st bd] key f Hok [Hs HQ]. simpl in *. auto.
  - intros [hm st bd] [Hs HQ]. simpl in *. subst.
    specialize (H200 hm HQ). unfold inject in H200. unfold inject_w.
    destruct (decide (enc ≠ "")), cg; shims; eauto.
  - intros [hm st bd] code Hne [Hs HQ]. shims. subst. shims. eauto.
  - intros [hm st bd] code (c & hdrs & Hs & HQ). shims. subst. shims. eauto.
  - intros [hm st bd] b (c & hdrs & Hs & HQ). shims. subst. shims. eauto.
  - intros [hm st bd] [|y src] (c & hdrs & Hs & HQ); shims; subst; shims; eauto.
  - intros code hdrs Hs. congruence.
  - intros code hdrs Hs. rewrite Hc in Hs. by injection Hs as <- <-.
Qed.

(** *** The deferred-header shim over the sink *)

Lemma buffering_edit (s0 : Sink) (Q0 : Header → Prop)
  (ok : string → edit → Prop)
  (c : connegResponseWriter Sink) key f :
  (∀ h key f, ok key f → Q0 h → Q0 (partial_alter f key h)) →
  ok key f → buffering s0 Q0 c →
  buffering s0 Q0 (setHeader (partial_alter f key (getHeader c)) c).
Proof.
  intros Hedit Hok (Hw & Hs & Hr & HQ). destruct c as [sup rw hd wr].
  unfold buffering. shims. subst. simpl. auto.
Qed.

Lemma buffering_inject (s0 : Sink) (Q0 : Header → Prop) enc cg
  (c : connegResponseWriter Sink) :
  buffering s0 Q0 c →
  buffering s0 (λ b, b = inject enc cg (default ∅ (header c)))
    (inject_w enc cg c).
Proof.
  intros (Hw & Hs & Hr & HQ). destruct c as [sup rw hd wr].
  unfold buffering, inject_w, inject. shims. subst.
  destruct (decide (enc ≠ "")), cg; shims; auto.
Qed.

(** The first status on a buffering shim settles it. *)
Lemma buffering_commit (s0 : Sink) (Q0 : Header → Prop)
  (Q : Z → Header → Prop) (code : Z) (c : connegResponseWriter Sink) :
  sent s0 = None → buffering s0 Q0 c →
  (code ≠ StatusNotFound →
   ∀ hdrs, (∀ k, hdrs !! k =
                 appended (default ∅ (header c)) (headerMap s0 !! k) k) →
           Q code hdrs) →
  settled s0 Q (WriteHeader code c).
Proof.
  intros Hsent (Hw & Hs & Hr & HQ0) HQ. destruct c as [sup rw hd wr].
  unfold settled. shims. subst. split; [by destruct (_ =? _)|].
  destruct (Z.eqb_spec code StatusNotFound) as [->|Hne]; simpl; [by left|].
  right. split; [done|].
  destruct (flushHeader_Sink (default ∅ hd) s0) as (Hfs & _ & Hlook).
  rewrite Hfs, Hsent. eauto.
Qed.

Lemma settled_edit s0 Q (c : connegResponseWriter Sink) h :
  settled s0 Q c → settled s0 Q (setHeader h c).
Proof.
  intros (Hw & Hst). destruct c as [sup rw hd wr]. unfold settled. shims.
  subst. destruct Hst as [[-> ->]|[-> HS]]; simpl; auto.
Qed.

Lemma settled_status s0 Q (c : connegResponseWriter Sink) code :
  settled s0 Q c → settled s0 Q (WriteHeader code c).
Proof.
  intros (Hw & Hst). destruct c as [sup rw hd wr]. unfold settled. shims.
  by subst.
Qed.

Lemma settled_write s0 Q (c : connegResponseWriter Sink) b :
  settled s0 Q c → settled s0 Q (Write b c).2.
Proof.
  intros (Hw & Hst). destruct c as [sup rw hd wr]. unfold settled. shims.
  subst. destruct Hst as [[-> ->]|[-> (code & hdrs & Hs & HQ)]]; simpl; auto.
  rewrite Hs. simpl. split; [done|]. right. eauto.
Qed.

Lemma settled_copy s0 Q (c : connegResponseWriter Sink) src :
  settled s0 Q c → settled s0 Q (ReadFrom src c).2.
Proof.
  intros (Hw & Hst). destruct c as [sup rw hd wr]. unfold settled. shims.
  subst. destruct Hst as [[-> ->]|[-> (code & hdrs & Hs & HQ)]]; simpl; auto.
  destruct src; simpl; [eauto 10|].
  rewrite Hs. simpl. split; [done|]. right. eauto.
Qed.

Lemma buffering_probed s0 Q0 Q c :
  sent s0 = None → buffering s0 Q0 c → probed s0 Q c.
Proof.
  intros Hsent (Hw & Hs & Hr & _). split; [congruence|].
  intros _ code hdrs. rewrite Hr, Hsent. done.
Qed.

Lemma settled_probed s0 Q c : settled s0 Q c → probed s0 Q c.
Proof.
  intros (Hw & [[Hs Hr]|[Hs (code & hdrs & Hsent & HQ)]]); split; congruence.
Qed.

(** A probe through both shims. *)
Lemma run_probe (enc : string) (cg : bool) (ok : string → edit → Prop)
  (Q0 : Header → Prop) (Q : Z → Header → Prop) (s0 : Sink) :
  sent s0 = None →
  (∀ h key f, ok key f → Q0 h → Q0 (partial_alter f key h)) →
  (∀ buf hdrs, Q0 buf →
     (∀ k, hdrs !! k = appended (inject enc cg buf) (headerMap s0 !! k) k) →
     Q StatusOK hdrs) →
  (∀ buf code hdrs, code ≠ StatusOK → code ≠ StatusNotFound → Q0 buf →
     (∀ k, hdrs !! k = appended buf (headerMap s0 !! k) k) →
     Q code hdrs) →
  ∀ p c0, edits ok p → buffering s0 Q0 c0 →
    probed s0 Q (w (run p (mkRWCE c0 enc cg false))).
Proof.
  intros Hsent Hedit H200 Hother p c0 Hp Hc0.
  destruct (run_rwce enc cg ok (buffering s0 Q0) (settled s0 Q)) with p c0
    as [[_ HA]|[_ HD]]; try done.
  - intros. by eapply buffering_edit.
  - intros c HA. pose proof (buffering_inject s0 Q0 enc cg c HA) as HA'.
    eapply buffering_commit; [done|exact HA'|].
    intros _ hdrs Hlook. destruct HA' as (_ & _ & _ & Hb).
    rewrite Hb in Hlook. destruct HA as (_ & _ & _ & HQ0). eauto.
  - intros c code Hne HA. eapply buffering_commit; [done|exact HA|].
    intros Hnf hdrs Hlook. destruct HA as (_ & _ & _ & HQ0). eauto.
  - intros. by apply settled_edit.
  - intros. by apply settled_status.
  - intros. by apply settled_write.
  - intros. by apply settled_copy.
  - by eapply buffering_probed.
  - by apply settled_probed.
Qed.

(** A probe through the deferred-header shim alone. *)
Lemma run_buffered (ok : string → edit → Prop)
  (Q0 : Header → Prop) (Q : Z → Header → Prop) (s0 : Sink) :
  sent s0 = None →
  (∀ h key f, ok key f → Q0 h → Q0 (partial_alter f key h)) →
  (∀ buf code hdrs, code ≠ StatusNotFound → Q0 buf →
     (∀ k, hdrs !! k = appended buf (headerMap s0 !! k) k) →
     Q code hdrs) →
  ∀ p c0, edits ok p → buffering s0 Q0 c0 → probed s0 Q (run p c0).
Proof.
  intros Hsent Hedit HQ p c0 Hp Hc0.
  cut (buffering s0 Q0 (run p c0) ∨ settled s0 Q (run p c0)).
  { intros [?|?]; [by eapply buffering_probed|by apply settled_probed]. }
  assert (∀ c code, buffering s0 Q0 c → settled s0 Q (WriteHeader code c))
    as Hcommit.
  { intros c code HA. eapply buffering_commit; [done|exact HA|].
    intros Hnf hdrs Hlook. destruct HA as (_ & _ & _ & HQ0). eauto. }
  apply (run_invariant
           (λ c, buffering s0 Q0 c ∨ settled s0 Q c) ok); [| | | |done|by left].
  - intros c key f Hok [HA|HD]; [left; by eapply buffering_edit|].
    right. by apply settled_edit.
  - intros c code [HA|HD]; right; [by apply Hcommit|by apply settled_status].
  - intros c b [HA|HD]; right; [|by apply settled_write].
    pose proof (Hcommit c StatusOK HA) as HD.
    apply (settled_write _ _ _ b) in HD.
    destruct c as [sup rw hd wr]. destruct HA as (Hw & Hs & _). shims. by subst.
  - intros c src [HA|HD]; right; [|by apply settled_copy].
    pose proof (Hcommit c StatusOK HA) as HD.
    apply (settled_copy _ _ _ src) in HD.
    destruct c as [sup rw hd wr]. destruct HA as (Hw & Hs & _). shims. by subst.
Qed.

(** *** A delegate that serves a file, through both shims *)

Lemma conneg_commit (s0 : Sink) (Q0 : Header → Prop) (code : Z)
  (c : connegResponseWriter Sink) :
  sent s0 = None → buffering s0 Q0 c → code ≠ StatusNotFound →
  let c' := WriteHeader code c in
  wroteHeader c' = true ∧ Suppressed c' = false ∧
  body (realWriter c') = body s0 ∧
  ∃ hdrs, sent (realWriter c') = Some (code, hdrs) ∧
          flushed (default ∅ (header c)) (headerMap s0) hdrs.
Proof.
  intros Hsent (Hw & Hs & Hr & _) Hne. destruct c as [sup rw hd wr].
  shims. subst. destruct (Z.eqb_spec code StatusNotFound); [done|]. simpl.
  destruct (flushHeader_Sink (default ∅ hd) s0) as (Hfs & Hfb & Hlook).
  rewrite Hfs, Hsent. simpl. repeat split; [done|]. by eexists.
Qed.

(** Once both shims have passed a status on, a delegate that sends
    [content] adds just these bytes to the body. *)
Lemma run_sends (p : calls) :
  ∀ (content : list byte)
    (x : responseWithContentEncoding (connegResponseWriter Sink))
    (st : Z * Header),
    headersSent x = true → wroteHeader (w x) = true →
    Suppressed (w x) = false → sent (realWriter (w x)) = Some st →
    sends content p →
    Suppressed (w (run p x)) = false ∧
    sent (realWriter (w (run p x))) = Some st ∧
    body (realWriter (w (run p x))) = body (realWriter (w x)) ++ content.
Proof.
  induction p as [|k IH|key g k IH|code k IH|b k IH|src k IH];
    intros content [[sup [hm sn bd] hd wr] e c hs] st Hhs Hw Hs Hsent Hp;
    simpl in Hhs, Hw, Hs, Hsent; subst.
  - simpl in *. subst. by rewrite app_nil_r.
  - by apply (IH _ content _ st).
  - simpl in Hp. shims.
    by destruct (IH content
                   (mkRWCE (mkConneg false
                              (mkSink (partial_alter g key hm) (Some st) bd)
                              hd true) e c true) st) as (? & ? & ?).
  - by apply (IH content _ st).
  - destruct Hp as (rest & -> & Hrest). shims.
    destruct (IH (Z.of_nat (length b), None) rest
                (mkRWCE (mkConneg false (mkSink hm (Some st) (bd ++ b)) hd true)
                   e c true) st) as (? & ? & Hb); [done..|].
    repeat split; [done..|]. rewrite Hb. simpl. by rewrite app_assoc.
  - destruct Hp as (rest & -> & Hrest). shims.
    destruct src as [|y src]; simpl.
    + by destruct (IH (0, None) rest
                     (mkRWCE (mkConneg false (mkSink hm (Some st) bd) hd true)
                        e c true) st) as (? & ? & ?).
    + destruct (IH (Z.of_nat (S (length src)), None) rest
                  (mkRWCE (mkConneg false
                             (mkSink hm (Some st) (bd ++ y :: src)) hd true)
                     e c true) st) as (? & ? & Hb); [done..|].
      repeat split; [done..|]. rewrite Hb. simpl. by rewrite <-app_assoc.
Qed.

Lemma commit_then_sends (content : list byte) (q : calls)
  (c0 : connegResponseWriter Sink) (enc : string) (cg : bool) (s0 : Sink) :
  sent s0 = None → buffering s0 (λ _, True) c0 → sends content q →
  let c := w (run q (rwce_WriteHeader StatusOK (mkRWCE c0 enc cg false))) in
  Suppressed c = false ∧ body (realWriter c) = body s0 ++ content ∧
  ∃ buf hdrs, sent (realWriter c) = Some (StatusOK, hdrs) ∧
              flushed (inject enc cg buf) (headerMap s0) hdrs.
Proof.
  intros Hsent HA Hq c. subst c. rewrite rwce_WriteHeader_first.
  change (StatusOK =? StatusOK) with true. cbv iota.
  pose proof (buffering_inject s0 _ enc cg c0 HA) as HA'.
  destruct (conneg_commit s0 _ StatusOK _ Hsent HA')
    as (Hw & Hs & Hb & hdrs & Hh & Hfl); [done|].
  destruct HA' as (_ & _ & _ & Hbuf). rewrite Hbuf in Hfl.
  destruct (run_sends q content
              (mkRWCE (WriteHeader StatusOK (inject_w enc cg c0)) enc cg true)
              (StatusOK, hdrs)) as (Hs' & Hsent' & Hbody'); [done..|].
  cbn [w] in Hbody'. rewrite Hb in Hbody'. eauto 10.
Qed.

(** A delegate that serves a file, on a probe through both shims: the
    probe is not suppressed, the sink gets the file's bytes, and what goes
    out is a 200 with the buffered headers, the shim's two among them,
    appended to the sink's. *)
Lemma run_serves (p : calls) :
  ∀ (content : list byte) (c0 : connegResponseWriter Sink)
    (enc : string) (cg : bool) (s0 : Sink),
    sent s0 = None → buffering s0 (λ _, True) c0 → serves content p →
    let c := w (run p (mkRWCE c0 enc cg false)) in
    Suppressed c = false ∧ body (realWriter c) = body s0 ++ content ∧
    ∃ buf hdrs, sent (realWriter c) = Some (StatusOK, hdrs) ∧
                flushed (inject enc cg buf) (headerMap s0) hdrs.
Proof.
  induction p as [|k IH|key g k IH|code k IH|b k IH|src k IH];
    intros content c0 enc cg s0 Hsent HA Hp.
  - done.
  - apply IH; [done..|]. apply Hp.
  - simpl in Hp. simpl. unfold rwce_setHeader, rwce_getHeader. simpl.
    apply IH; [done| |done].
    by apply (buffering_edit s0 _ (λ _ _, True)).
  - destruct Hp as [-> Hk]. by apply commit_then_sends.
  - pose proof (commit_then_sends content (CallWrite b k) c0 enc cg s0
                  Hsent HA Hp) as Hc.
    simpl in Hc |- *. by rewrite <-rwce_Write_implicit in Hc.
  - pose proof (commit_then_sends content (CallReadFrom src k) c0 enc cg s0
                  Hsent HA Hp) as Hc.
    simpl in Hc |- *. by rewrite <-rwce_ReadFrom_implicit in Hc.
Qed.

End stack_facts.

(** ** The negotiating file handler over the server's sink *)

Section handler_facts.
Variable TypeByExtension : string → string.
Variable f : fileHandler.

(** One probe: either it reports failure and the sink is as before, or
    what it sent came through the shims. *)
Lemma tryServeCompressedFile_sat (ext enc path : string) (s0 : Sink)
  (r : Request) (ok : string → edit → Prop) (Q0 : Header → Prop)
  (Q : Z → Header → Prop) :
  sent s0 = None →
  (∀ h key g, ok key g → Q0 h → Q0 (partial_alter g key h)) →
  Q0 ∅ → (∀ ct, Q0 (Set_ "Content-Type" ct ∅)) →
  (TypeByExtension (filepath.Ext path) ≠ "" →
   ∀ buf hdrs, Q0 buf → flushed (inject enc true buf) (headerMap s0) hdrs →
               Q StatusOK hdrs) →
  (TypeByExtension (filepath.Ext path) = "" →
   ∀ buf hdrs, Q0 buf → flushed buf (headerMap s0) hdrs → Q StatusOK hdrs) →
  (∀ buf code hdrs, code ≠ StatusOK → code ≠ StatusNotFound → Q0 buf →
     flushed buf (headerMap s0) hdrs → Q code hdrs) →
  (∀ q, edits ok (fs f q).1) →
  ∀ served s1 r',
    tryServeCompressedFile TypeByExtension f ext enc path s0 r = (served, s1, r') →
    (served = false → s1 = s0) ∧ (served = true → sent_sat Q s1).
Proof.
  intros Hsent Hedit Hnil Hct Hknown Hunknown Hother Hfs served s1 r'.
  unfold tryServeCompressedFile, serveCompressedFile, delegate.
  specialize (Hfs (set_Path (path +:+ ext) r)).
  destruct (fs f (set_Path (path +:+ ext) r)) as [p r2]. simpl in Hfs.
  assert (∀ c, probed s0 Q c →
            (negb (Suppressed c) = false → realWriter c = s0) ∧
            (negb (Suppressed c) = true → sent_sat Q (realWriter c))) as Hfin.
  { intros c. unfold probed, sent_sat.
    destruct (Suppressed c); simpl; intros [Hs Hc]; split; intros ?;
      try done; auto. }
  destruct (decide (TypeByExtension (filepath.Ext path) ≠ "")) as [Hk|Hu].
  - intros [= <- <- <-]. apply Hfin.
    apply (run_probe enc true ok Q0 Q s0); try done; [by apply Hknown|].
    unfold buffering. shims. auto.
  - intros [= <- <- <-]. apply Hfin.
    apply (run_buffered ok Q0 Q s0); try done.
    intros buf code hdrs Hnf HQ0 Hfl.
    destruct (decide (code = StatusOK)) as [->|Hne]; [|by eapply Hother].
    apply (Hunknown (dec_stable Hu) buf); done.
Qed.

(** A compressed file asked for by name, or a probe's inner call, on the
    sink itself. *)
Lemma serveCompressedFile_sat (ext enc path : string) (cg : bool) (s0 : Sink)
  (r : Request) (ok : string → edit → Prop) (Q0 : Header → Prop)
  (Q : Z → Header → Prop) :
  sent s0 = None →
  (∀ h key g, ok key g → Q0 h → Q0 (partial_alter g key h)) →
  (∀ ct, ok "Content-Type" (λ _, Some [ct])) → Q0 (headerMap s0) →
  (TypeByExtension (filepath.Ext path) ≠ "" →
   ∀ h, Q0 h → Q StatusOK (inject enc cg h)) →
  (TypeByExtension (filepath.Ext path) = "" → ∀ h, Q0 h → Q StatusOK h) →
  (∀ h code, code ≠ StatusOK → Q0 h → Q code h) →
  (∀ q, edits ok (fs f q).1) →
  sent_sat Q (serveCompressedFile TypeByExtension f ext enc path cg s0 r).1.
Proof.
  intros Hsent Hedit Hct HQ0 Hknown Hunknown Hother Hfs.
  unfold serveCompressedFile, delegate. specialize (Hfs r).
  destruct (fs f r) as [p r2]. simpl in Hfs.
  destruct (decide (TypeByExtension (filepath.Ext path) ≠ "")) as [Hk|Hu].
  - simpl. intros code hdrs.
    apply (run_direct enc cg ok Q0 Q); try done; [by apply Hknown|].
    simpl. unfold Set_. by apply (Hedit _ "Content-Type" (λ _, Some _)).
  - simpl. intros code hdrs Hs.
    pose proof (run_sink ok Q0 Hedit p s0 Hfs Hsent HQ0 code hdrs Hs) as HQ.
    destruct (decide (code = StatusOK)) as [->|Hne]; [|by apply Hother].
    by apply (Hunknown (dec_stable Hu)).
Qed.

(** The three ways through [ServeHTTP]. *)
Lemma ServeHTTP_passthrough `{ResponseWriter W} (w0 : W) (r : Request) :
  strings.HasSuffix (Path (URL_ r)) "/index.html" = true →
  ServeHTTP TypeByExtension f w0 r = delegate (fs f) w0 r.
Proof. intros Hi. unfold ServeHTTP. by rewrite Hi. Qed.

Lemma ServeHTTP_compressed `{ResponseWriter W} (w0 : W) (r : Request) :
  let p := Path (URL_ r) in
  let ext := filepath.Ext p in
  strings.HasSuffix p "/index.html" = false →
  encodingByExtension ext ≠ "" →
  ServeHTTP TypeByExtension f w0 r =
    serveCompressedFile TypeByExtension f ext (encodingByExtension ext)
      (String.substring 0 (String.length p - String.length ext) p) false w0 r.
Proof.
  intros p ext Hi He. unfold ServeHTTP. fold p. rewrite Hi. fold ext.
  by destruct (decide (encodingByExtension ext ≠ "")).
Qed.

Lemma ServeHTTP_negotiated (s0 : Sink) (r : Request) (P : Sink → Prop) :
  let p := Path (URL_ r) in
  strings.HasSuffix p "/index.html" = false →
  encodingByExtension (filepath.Ext p) = "" →
  (∀ ext enc q served s1 q',
     tryServeCompressedFile TypeByExtension f ext enc (logicalPath r) s0 q
       = (served, s1, q') →
     (served = false → s1 = s0) ∧ (served = true → P s1)) →
  (∀ q, P (w (delegate (fs f) (mkRWCE s0 "" true false) q).1)) →
  P (ServeHTTP TypeByExtension f s0 r).1.
Proof.
  intros p Hi He Htry Hfall. unfold ServeHTTP. fold p. rewrite Hi.
  destruct (decide (encodingByExtension (filepath.Ext p) ≠ "")); [done|].
  fold (logicalPath r). set (ae := Get _ _).
  assert (∀ q, P (let '(wrapped, r3) :=
                    delegate (fs f) (mkRWCE s0 "" true false) q in
                  (w wrapped, r3)).1) as Hfall'.
  { intros q. specialize (Hfall q). by destruct (delegate _ _ _). }
  assert (∀ q, P (let '(served, w2, r2) :=
                    if hasToken ae "gzip"
                    then tryServeCompressedFile TypeByExtension f ".gz" "gzip"
                           (logicalPath r) s0 q
                    else (false, s0, q) in
                  if served then (w2, r2)
                  else let '(wrapped, r3) :=
                         delegate (fs f) (mkRWCE w2 "" true false) r2 in
                       (w wrapped, r3)).1) as Hgz.
  { intros q. destruct (hasToken ae "gzip"); [|apply Hfall'].
    pose proof (Htry ".gz" "gzip" q) as Hq.
    destruct (tryServeCompressedFile _ _ ".gz" _ _ _ _) as [[served s1] q'].
    destruct (Hq _ _ _ eq_refl) as [Hno Hyes].
    destruct served; [by apply Hyes|]. rewrite Hno by done. apply Hfall'. }
  destruct (hasToken ae "br"); [|apply Hgz].
  pose proof (Htry ".br" "br" r) as Hq.
  destruct (tryServeCompressedFile _ _ ".br" _ _ _ _) as [[served s1] q'].
  destruct (Hq _ _ _ eq_refl) as [Hno Hyes].
  destruct served; [by apply Hyes|]. rewrite Hno by done. apply Hgz.
Qed.

(** A header that is absent stays absent under edits that never set
    it. *)
Lemma unset_or_kept_None (key : string) (h : Header) (k : string) (g : edit) :
  unset_or_kept key k g → h !! key = None → partial_alter g k h !! key = None.
Proof.
  intros [Hne|Hdel] Hh.
  - by rewrite lookup_partial_alter_ne.
  - destruct (decide (k = key)) as [->|Hne].
    + by rewrite lookup_partial_alter_eq.
    + by rewrite lookup_partial_alter_ne.
Qed.

Lemma appended_inject_Vary (enc : string) (buf : Header)
  (old : option (list string)) :
  appended (inject enc true buf) old "Vary"
  = Some (default [] old ++ ["Accept-Encoding"]).
Proof. unfold appended, inject, Set_. by rewrite lookup_insert_eq. Qed.

(** With neither token accepted no probe is made. *)
Lemma ServeHTTP_fallback `{ResponseWriter W} (w0 : W) (r : Request) :
  isNegotiated r →
  hasToken (Get (ReqHeader r) "Accept-Encoding") "br" = false →
  hasToken (Get (ReqHeader r) "Accept-Encoding") "gzip" = false →
  ServeHTTP TypeByExtension f w0 r =
    (let '(wrapped, r') := delegate (fs f) (mkRWCE w0 "" true false) r in
     (w wrapped, r')).
Proof.
  intros [Hi He] Hbr Hgz. unfold ServeHTTP. rewrite Hi.
  destruct (decide (encodingByExtension _ ≠ "")); [done|].
  by rewrite Hbr, Hgz.
Qed.

(** The uncompressed fallback: a 200 goes out with exactly
    [Vary: Accept-Encoding]. *)
Lemma fallback_Vary (s0 : Sink) (q : Request) :
  sent s0 = None →
  sent_sat (λ code hdrs,
              code = StatusOK →
              "Accept-Encoding" ∈ default [] (hdrs !! "Vary"))
    (w (delegate (fs f) (mkRWCE s0 "" true false) q).1).
Proof.
  intros Hsent. unfold delegate. destruct (fs f q) as [p q']. simpl.
  intros code hdrs.
  apply (run_direct "" true (λ _ _, True) (λ _, True)
           (λ code hdrs, code = StatusOK →
                         "Accept-Encoding" ∈ default [] (hdrs !! "Vary")));
    [done| |by intros h c Hne _ ?|apply edits_any|done..].
  intros h _ _. unfold inject, Set_. rewrite lookup_insert_eq. simpl.
  set_solver.
Qed.

(** C2 (amended).  A negotiated request whose logical file name has a
    known MIME type, or whose Accept-Encoding holds neither token for
    [hasToken]: if the response goes out with status 200, from a
    compressed variant or from the uncompressed fallback, with or without
    suppressed probes before it, it carries [Vary: Accept-Encoding].  A
    direct compressed-file request or an index-redirect passthrough: the
    handler adds no Vary header, so that none goes out unless the sink
    had one or the delegate sets one. *)
Theorem Vary_on_negotiated_success (s0 : Sink) (r : Request) :
  sent s0 = None →
  let s := (ServeHTTP TypeByExtension f s0 r).1 in
  let ae := Get (ReqHeader r) "Accept-Encoding" in
  (isNegotiated r →
   TypeByExtension (filepath.Ext (logicalPath r)) ≠ "" ∨
   (hasToken ae "br" = false ∧ hasToken ae "gzip" = false) →
   ∀ hdrs, sent s = Some (StatusOK, hdrs) →
           "Accept-Encoding" ∈ default [] (hdrs !! "Vary")) ∧
  (isIndexRedirect r ∨ isDirectCompressed r →
   headerMap s0 !! "Vary" = None →
   (∀ q, never_sets "Vary" (fs f q).1) →
   ∀ code hdrs, sent s = Some (code, hdrs) → hdrs !! "Vary" = None).
Proof.
  intros Hsent s ae. subst s ae. split.
  - intros Hneg Hcase.
    set (Q := λ (code : Z) (hdrs : Header),
           code = StatusOK → "Accept-Encoding" ∈ default [] (hdrs !! "Vary")).
    cut (sent_sat Q (ServeHTTP TypeByExtension f s0 r).1).
    { intros HQ hdrs Hs. by apply (HQ _ _ Hs). }
    destruct Hcase as [Hmime|[Hbr Hgz]].
    + destruct Hneg as [Hi He].
      apply ServeHTTP_negotiated; [done..| |by intros; apply fallback_Vary].
      intros ext enc q.
      apply (tryServeCompressedFile_sat ext enc _ s0 q (λ _ _, True)
               (λ _, True) Q); [done..| | | |].
      * intros _ buf hdrs _ Hfl _. rewrite Hfl, appended_inject_Vary. simpl.
        set_solver.
      * done.
      * by intros buf code hdrs Hne _ _ _ ?.
      * intros. apply edits_any.
    + rewrite ServeHTTP_fallback by done.
      pose proof (fallback_Vary s0 r Hsent) as Hfall.
      by destruct (delegate _ _ _).
  - intros Hkind Hvary Hfs.
    set (Q0 := λ h : Header, h !! "Vary" = None).
    assert (∀ h key g, unset_or_kept "Vary" key g → Q0 h →
                       Q0 (partial_alter g key h)) as Hedit.
    { intros h key g Hok HQ0. by apply unset_or_kept_None. }
    destruct Hkind as [Hi|[Hi He]].
    + rewrite ServeHTTP_passthrough by done. unfold delegate.
      specialize (Hfs r). destruct (fs f r) as [p q']. simpl.
      by apply (run_sink (unset_or_kept "Vary") Q0).
    + rewrite ServeHTTP_compressed by done.
      apply (serveCompressedFile_sat _ _ _ false s0 r (unset_or_kept "Vary") Q0
               (λ _ hdrs, hdrs !! "Vary" = None));
        [done|done|by left|done| |by intros _ h ?|by intros h c _ ?|done].
      intros _ h HQ0. unfold inject, Set_.
      destruct (decide _); [|done]. by rewrite lookup_insert_ne.
Qed.

(** C6.  Whatever the request and whichever attempt answered it, a
    response that goes out with a status other than 200 (a 404 among
    them) carries no Content-Encoding header, provided the sink had none
    and the delegate sets none itself (it may delete the header): the
    auto-header shim forwards the first status unchanged, without
    touching the headers, unless it is 200, and a 404 met by a probe is
    not forwarded at all. *)
Theorem no_Content_Encoding_unless_OK (s0 : Sink) (r : Request) :
  sent s0 = None →
  headerMap s0 !! "Content-Encoding" = None →
  (∀ q, never_sets "Content-Encoding" (fs f q).1) →
  (∀ code hdrs,
     sent (ServeHTTP TypeByExtension f s0 r).1 = Some (code, hdrs) →
     code ≠ StatusOK → hdrs !! "Content-Encoding" = None) ∧
  (∀ (x : responseWithContentEncoding Sink) code,
     headersSent x = false → code ≠ StatusOK →
     rwce_WriteHeader code x =
       mkRWCE (WriteHeader code (w x)) (encoding x) (isConneg x) true) ∧
  (∀ (c : connegResponseWriter Sink),
     wroteHeader c = false →
     realWriter (conneg_WriteHeader StatusNotFound c) = realWriter c).
Proof.
  intros Hsent Hce Hfs. split; [|split].
  2:{ intros x code. apply rwce_WriteHeader_other. }
  2:{ intros c Hw. unfold conneg_WriteHeader. by rewrite Hw. }
  set (Q0 := λ h : Header, h !! "Content-Encoding" = None).
  set (Q := λ (code : Z) (hdrs : Header),
         code ≠ StatusOK → hdrs !! "Content-Encoding" = None).
  assert (∀ h key g, unset_or_kept "Content-Encoding" key g → Q0 h →
                     Q0 (partial_alter g key h)) as Hedit.
  { intros h key g Hok HQ0. by apply unset_or_kept_None. }
  cut (sent_sat Q (ServeHTTP TypeByExtension f s0 r).1); [done|].
  destruct (strings.HasSuffix (Path (URL_ r)) "/index.html") eqn:Hi.
  { rewrite ServeHTTP_passthrough by done. unfold delegate.
    specialize (Hfs r). destruct (fs f r) as [p q']. simpl.
    intros code hdrs Hs _.
    by apply (run_sink (unset_or_kept "Content-Encoding") Q0 Hedit p s0 Hfs
                Hsent Hce code hdrs). }
  destruct (decide (encodingByExtension (filepath.Ext (Path (URL_ r))) ≠ ""))
    as [He|He].
  { rewrite ServeHTTP_compressed by done.
    apply (serveCompressedFile_sat _ _ _ false s0 r
             (unset_or_kept "Content-Encoding") Q0 Q);
      [done|done|by left|done|by intros _ h _ ?|by intros _ h _ ?
      |by intros h c _ ? _|done]. }
  apply ServeHTTP_negotiated; [done|by apply dec_stable| |].
  - intros ext enc q.
    apply (tryServeCompressedFile_sat ext enc _ s0 q
             (unset_or_kept "Content-Encoding") Q0 Q);
      [done..|by intros _ buf hdrs _ _ ?|by intros _ buf hdrs _ _ ?| |done].
    intros buf code hdrs Hne _ HQ0 Hfl _. rewrite Hfl. unfold appended.
    by rewrite HQ0.
  - intros q. unfold delegate. specialize (Hfs q).
    destruct (fs f q) as [p q']. simpl. intros code hdrs.
    apply (run_direct "" true (unset_or_kept "Content-Encoding") Q0 Q);
      [done|by intros h _ ?|by intros h c _ ? _|done..].
Qed.

(** C5 (amended).  A negotiated request whose logical file name has a
    known MIME type, with both [br] and [gzip] found by [hasToken] in
    Accept-Encoding and a delegate that serves both the [.br] and the
    [.gz] file: the response is the Brotli variant, a 200 whose body is
    the [.br] file's bytes, with [Content-Encoding: br] and
    [Vary: Accept-Encoding]. *)
Theorem Brotli_preferred (s0 : Sink) (r : Request)
  (brotli gzipped : list byte) :
  sent s0 = None →
  headerMap s0 !! "Content-Encoding" = None →
  isNegotiated r →
  TypeByExtension (filepath.Ext (logicalPath r)) ≠ "" →
  hasToken (Get (ReqHeader r) "Accept-Encoding") "br" = true →
  hasToken (Get (ReqHeader r) "Accept-Encoding") "gzip" = true →
  serves brotli (fs f (set_Path (logicalPath r +:+ ".br") r)).1 →
  serves gzipped (fs f (set_Path (logicalPath r +:+ ".gz") r)).1 →
  let s := (ServeHTTP TypeByExtension f s0 r).1 in
  body s = body s0 ++ brotli ∧
  ∃ hdrs, sent s = Some (StatusOK, hdrs) ∧
          hdrs !! "Content-Encoding" = Some ["br"] ∧
          "Accept-Encoding" ∈ default [] (hdrs !! "Vary").
Proof.
  intros Hsent Hce [Hi He] Hmime Hbr _ Hserves _ s. subst s.
  unfold ServeHTTP. rewrite Hi.
  destruct (decide (encodingByExtension _ ≠ "")); [done|].
  fold (logicalPath r). rewrite Hbr.
  unfold tryServeCompressedFile, serveCompressedFile, delegate.
  destruct (fs f (set_Path (logicalPath r +:+ ".br") r)) as [p r2].
  simpl in Hserves.
  destruct (decide (TypeByExtension (filepath.Ext (logicalPath r)) ≠ ""));
    [|done].
  destruct (run_serves p brotli
              (setHeader
                 (Set_ "Content-Type"
                    (TypeByExtension (filepath.Ext (logicalPath r)))
                    (getHeader (mkConneg false s0 None false)))
                 (mkConneg false s0 None false))
              "br" true s0 Hsent)
    as (Hs & Hb & buf & hdrs & Hh & Hfl); [|exact Hserves|].
  { unfold buffering. shims. eauto. }
  rewrite Hs. simpl. split; [exact Hb|]. exists hdrs. split; [exact Hh|].
  rewrite !Hfl, appended_inject_Vary. unfold appended, inject, Set_.
  rewrite lookup_insert_ne by done.
  rewrite decide_True by done.
  rewrite lookup_insert_eq, Hce. simpl. split; [done|]. set_solver.
Qed.

End handler_facts.

(** ** The handler over the test file server *)

Section fixture_facts.
Import encneg_test.

Lemma http_FileServer_keeps (files : gmap string string) :
  keeps_but_path (http_FileServer files).
Proof. intros [m [pth qs] hd]. reflexivity. Qed.

(** The stand-in file server sets five headers and no other. *)
Lemma http_FileServer_avoids (files : gmap string string) (key : string)
  (q : Request) :
  key ∉ ["Content-Type"; "X-Content-Type-Options"; "Location";
         "Accept-Ranges"; "Content-Length"] →
  avoids key (http_FileServer files q).1.
Proof.
  intros Hkey. unfold avoids, http_FileServer. cbn [fst].
  destruct (strings.HasSuffix _ "/index.html").
  { simpl. split; [|done]. set_solver. }
  destruct (negb _ && isDir _ _).
  { simpl. split; [|done]. set_solver. }
  destruct (files !! _) as [content|].
  - unfold serveContent. simpl. intros h.
    destruct (decide (is_Some (h !! "Content-Type"))); simpl;
      repeat split; try set_solver;
      intros h'; destruct (decide (Get h' "Content-Encoding" = ""));
      simpl; repeat split; set_solver.
  - simpl. repeat split; set_solver.
Qed.

Lemma avoids_never_sets (key : string) (p : calls) :
  avoids key p → never_sets key p.
Proof. apply edits_weaken. intros k g Hne. by left. Qed.

Lemma serveContent_serves (ctype : string) (content : list byte) :
  serves content (serveContent ctype content).
Proof.
  unfold serveContent. simpl. intros h.
  assert (∀ h', serves content
            ((if decide (Get h' "Content-Encoding" = "")
              then EditHeader "Content-Length"
                     (λ _, Some [pretty (N.of_nat (length content))])
              else λ k, k)
               (CallWriteHeader StatusOK (CallReadFrom content (λ _, Return)))))
    as Hlen.
  { intros h'. destruct (decide _); simpl; (split; [done|]);
      exists []; by rewrite app_nil_r. }
  destruct (decide (is_Some (h !! "Content-Type"))); simpl; intros h';
    apply Hlen.
Qed.

(** It serves the files it has. *)
Lemma http_FileServer_serves (files : gmap string string) (q : Request)
  (content : string) :
  strings.HasSuffix (Path (URL_ q)) "/index.html" = false →
  isDir files (Path (URL_ q)) = false →
  files !! logicalPath q = Some content →
  serves (String.list_byte_of_string content) (http_FileServer files q).1.
Proof.
  intros Hi Hdir Hfile. unfold http_FileServer. cbn [fst].
  rewrite Hi, Hdir, andb_false_r.
  fold (logicalPath q). rewrite Hfile. apply serveContent_serves.
Qed.

End fixture_facts.

Section handler_examples.
Import encneg_test.

Lemma tryServeCompressedFile_restores_request_witness :
  let r := NewRequest "/with.br/foo.html" "br" in
  let served := tryServeCompressedFile TypeByExtension fs ".br" "br"
                  "/with.br/foo.html" newSink r in
  let missed := tryServeCompressedFile TypeByExtension fs ".gz" "gzip"
                  "/with.br/foo.html" newSink r in
  keeps_but_path (encneg.fs fs) ∧
  (served.1.1 = true ∧ served.2 = r) ∧ (missed.1.1 = false ∧ missed.2 = r).
Proof.
  intros r served missed.
  assert (∀ x : bool * Sink * Request, x = (x.1.1, x.1.2, x.2)) as Heta
    by (by intros [[??]?]).
  split; [apply http_FileServer_keeps|]. split.
  - split; [reflexivity|].
    exact (proj2 (tryServeCompressedFile_restores_request TypeByExtension fs
                    ".br" "br" "/with.br/foo.html" newSink r
                    (http_FileServer_keeps fsmap)
                    served.1.1 served.1.2 served.2 (Heta served))).
  - split; [reflexivity|].
    exact (proj2 (tryServeCompressedFile_restores_request TypeByExtension fs
                    ".gz" "gzip" "/with.br/foo.html" newSink r
                    (http_FileServer_keeps fsmap)
                    missed.1.1 missed.1.2 missed.2 (Heta missed))).
Defined.

Lemma Vary_on_negotiated_success_witness :
  let r := NewRequest "/with.gz/" "gzip" in
  let s := (ServeHTTP TypeByExtension fs newSink r).1 in
  sent newSink = None ∧ isNegotiated r ∧
  TypeByExtension (filepath.Ext (logicalPath r)) ≠ "" ∧
  ∃ hdrs, sent s = Some (StatusOK, hdrs) ∧
          "Accept-Encoding" ∈ default [] (hdrs !! "Vary").
Proof.
  intros r s.
  assert (isNegotiated r) as Hneg by (split; reflexivity).
  assert (TypeByExtension (filepath.Ext (logicalPath r)) ≠ "") as Hmime
    by (vm_compute; discriminate).
  split; [reflexivity|]. split; [exact Hneg|]. split; [exact Hmime|].
  exists (default ∅ (snd <$> sent s)). split; [vm_compute; reflexivity|].
  destruct (Vary_on_negotiated_success TypeByExtension fs newSink r eq_refl)
    as [Hvary _].
  apply (Hvary Hneg (or_introl Hmime)). vm_compute. reflexivity.
Defined.

(** C2 as stated fails when the file is missing altogether: the
    negotiated request ends in the uncompressed fallback, which answers
    404, and that response has no Vary header. *)
Lemma negotiated_404_without_Vary :
  let r := NewRequest "/missing.html" "br" in
  let s := (ServeHTTP TypeByExtension fs newSink r).1 in
  isNegotiated r ∧ Code s = Some StatusNotFound ∧ sentHeader s "Vary" = None.
Proof. intros r s. split; [by split|]. by vm_compute. Qed.

Lemma Brotli_preferred_witness :
  let r := NewRequest "/with.br.and.gz/foo.html" "br,gzip" in
  let s := (ServeHTTP TypeByExtension fs newSink r).1 in
  (sent newSink = None ∧ isNegotiated r ∧
   hasToken (Get (ReqHeader r) "Accept-Encoding") "br" = true ∧
   hasToken (Get (ReqHeader r) "Accept-Encoding") "gzip" = true) ∧
  body s = String.list_byte_of_string
             "foo, brotli, with uncompressed and gzip alternatives" ∧
  ∃ hdrs, sent s = Some (StatusOK, hdrs) ∧
          hdrs !! "Content-Encoding" = Some ["br"] ∧
          "Accept-Encoding" ∈ default [] (hdrs !! "Vary").
Proof.
  intros r s.
  assert (isNegotiated r) as Hneg by (split; reflexivity).
  split; [by repeat split|].
  apply (Brotli_preferred TypeByExtension fs newSink r
           (String.list_byte_of_string
              "foo, brotli, with uncompressed and gzip alternatives")
           (String.list_byte_of_string
              "foo, gzip, with uncompressed and brotli alternatives"));
    [reflexivity|reflexivity|exact Hneg|vm_compute; discriminate
    |reflexivity|reflexivity| |];
    apply http_FileServer_serves; reflexivity.
Defined.

(** C5 as stated fails for a file name without a known MIME type: both
    variants of [/notes] exist and both tokens are accepted; the [.br]
    bytes are sent, but with no Content-Encoding header. *)
Lemma negotiated_unknown_type_without_Content_Encoding :
  let r := NewRequest "/notes" "br,gzip" in
  let s := (ServeHTTP TypeByExtension (FileServer notesmap) newSink r).1 in
  isNegotiated r ∧
  notesmap !! "/notes.br"
    = Some "notes, brotli, with uncompressed and gzip alternatives" ∧
  notesmap !! "/notes.gz"
    = Some "notes, gzip, with uncompressed and brotli alternatives" ∧
  hasToken (Get (ReqHeader r) "Accept-Encoding") "br" = true ∧
  hasToken (Get (ReqHeader r) "Accept-Encoding") "gzip" = true ∧
  Code s = Some StatusOK ∧
  Body s = "notes, brotli, with uncompressed and gzip alternatives" ∧
  sentHeader s "Content-Encoding" = None.
Proof. intros r s. split; [by split|]. by vm_compute. Qed.

Lemma no_Content_Encoding_unless_OK_witness :
  let r := NewRequest "/uncompressed/foo.html.gz" "gzip" in
  let s := (ServeHTTP TypeByExtension fs newSink r).1 in
  (sent newSink = None ∧ headerMap newSink !! "Content-Encoding" = None) ∧
  ∃ hdrs, sent s = Some (StatusNotFound, hdrs) ∧
          hdrs !! "Content-Encoding" = None.
Proof.
  intros r s. split; [by split|].
  exists (default ∅ (snd <$> sent s)). split; [vm_compute; reflexivity|].
  destruct (no_Content_Encoding_unless_OK TypeByExtension fs newSink r
              eq_refl eq_refl) as [Hce _].
  { intros q. apply avoids_never_sets, http_FileServer_avoids.
    apply (bool_decide_unpack _). reflexivity. }
  apply (Hce StatusNotFound); [vm_compute; reflexivity|discriminate].
Defined.

End handler_examples.

(** ** Slices, suffixes and extensions *)

Section slices.

Lemma substring_0_length (s : string) :
  String.substring 0 (String.length s) s = s.
Proof. induction s as [|c s IH]; [done|]. simpl. by rewrite IH. Qed.

Lemma upto_append (pre s : string) :
  strings.upto (String.length pre) (pre +:+ s) = pre.
Proof.
  unfold strings.upto. induction pre as [|c pre IH]; simpl.
  - by destruct s.
  - by rewrite IH.
Qed.

Lemma from_append (pre s : string) :
  strings.from (String.length pre) (pre +:+ s) = s.
Proof.
  unfold strings.from. rewrite length_append.
  replace (String.length pre + String.length s - String.length pre)%nat
    with (String.length s) by lia.
  induction pre as [|c pre IH]; simpl; [apply substring_0_length|done].
Qed.

(** A string is its two slices at any index in range. *)
Lemma upto_from (m : nat) (s : string) :
  (m ≤ String.length s)%nat → strings.upto m s +:+ strings.from m s = s.
Proof.
  unfold strings.upto, strings.from. revert m.
  induction s as [|c s IH]; intros m Hm; simpl in Hm.
  - by replace m with 0%nat by lia.
  - destruct m as [|m]; simpl.
    + by rewrite substring_0_length.
    + rewrite append_cons. f_equal. apply IH. lia.
Qed.

Lemma HasSuffix_true (s suffix : string) :
  strings.HasSuffix s suffix = true ↔ ∃ pre, s = pre +:+ suffix.
Proof.
  unfold strings.HasSuffix. rewrite andb_true_iff, Nat.leb_le, String.eqb_eq.
  split.
  - intros [Hle Hsub].
    exists (strings.upto (String.length s - String.length suffix) s).
    rewrite <-(upto_from (String.length s - String.length suffix) s) at 1 by lia.
    f_equal. unfold strings.from.
    by replace (String.length s - (String.length s - String.length suffix))%nat
      with (String.length suffix) by lia.
  - intros [pre ->]. rewrite length_append. split; [lia|].
    replace (String.length pre + String.length suffix - String.length suffix)%nat
      with (String.length pre) by lia.
    pose proof (from_append pre suffix) as Hf. unfold strings.from in Hf.
    rewrite length_append in Hf.
    by replace (String.length pre + String.length suffix - String.length pre)%nat
      with (String.length suffix) in Hf by lia.
Qed.

Lemma string_of_list_ascii_app (l1 l2 : list Ascii.ascii) :
  String.string_of_list_ascii (l1 ++ l2)
  = String.string_of_list_ascii l1 +:+ String.string_of_list_ascii l2.
Proof. induction l1 as [|c l1 IH]; [done|]. simpl. by rewrite IH. Qed.

Lemma list_ascii_of_string_app (s t : string) :
  String.list_ascii_of_string (s +:+ t)
  = String.list_ascii_of_string s ++ String.list_ascii_of_string t.
Proof. induction s as [|c s IH]; [done|]. simpl. by rewrite IH. Qed.

Lemma elem_of_string_split (c : Ascii.ascii) (s : string) :
  c ∈ String.list_ascii_of_string s → ∃ a b, s = a +:+ String c b.
Proof.
  intros Hc. apply list_elem_of_split in Hc as (l1 & l2 & Hl).
  exists (String.string_of_list_ascii l1), (String.string_of_list_ascii l2).
  rewrite <-(String.string_of_list_ascii_of_string s), Hl.
  by rewrite string_of_list_ascii_app.
Qed.

(** Where [substr] occurs, [Index] is not negative and not behind the
    occurrence. *)
Lemma Index_least (pre t post : string) :
  0 ≤ strings.Index (pre +:+ t +:+ post) t ≤ strings.len pre.
Proof.
  unfold strings.len. induction pre as [|c pre IH]; rewrite Index_unfold.
  - assert (strings.HasPrefix ("" +:+ t +:+ post) t = true) as ->
      by (apply HasPrefix_true; by exists post).
    simpl. lia.
  - destruct (strings.HasPrefix _ t); [simpl; lia|].
    rewrite append_cons.
    destruct (Z.ltb_spec (strings.Index (pre +:+ t +:+ post) t) 0); simpl; lia.
Qed.

(** No occurrence of a byte is found only where there is none. *)
Lemma Index_absent (s : string) (c : Ascii.ascii) :
  strings.Index s (String c "") < 0 → c ∉ String.list_ascii_of_string s.
Proof.
  intros Hi Hc. apply elem_of_string_split in Hc as (a & b & ->).
  pose proof (Index_least a (String c "") b) as Hle.
  change (String c "" +:+ b) with (String c b) in Hle. lia.
Qed.

(** The first occurrence of a byte has none before it. *)
Lemma Index_first (pre post : string) (c : Ascii.ascii) :
  strings.Index (pre +:+ String c post) (String c "") = strings.len pre →
  c ∉ String.list_ascii_of_string pre.
Proof.
  intros Hi Hc. apply elem_of_string_split in Hc as (a & b & ->).
  pose proof (Index_least a (String c "") (b +:+ String c post)) as Hle.
  change (String c "" +:+ ?x) with (String c x) in Hle.
  rewrite append_assoc, append_cons in Hi. rewrite Hi in Hle.
  rewrite len_append in Hle. unfold strings.len in Hle. simpl in Hle. lia.
Qed.

(** [Ext_loop] returns a suffix of the bytes it was given. *)
Lemma Ext_loop_suffix (rest : list Ascii.ascii) (acc : string) :
  ∃ pre, String.string_of_list_ascii (rev rest) +:+ acc
         = pre +:+ filepath.Ext_loop rest acc.
Proof.
  revert acc. induction rest as [|c rest IH]; intros acc; simpl.
  - exists acc. by rewrite append_empty_r.
  - rewrite string_of_list_ascii_app, append_assoc. simpl.
    destruct (Ascii.eqb c "/").
    { eexists. by rewrite append_empty_r. }
    destruct (Ascii.eqb c "."); [by eexists|]. apply IH.
Qed.

Lemma Ext_suffix (p : string) : ∃ pre, p = pre +:+ filepath.Ext p.
Proof.
  unfold filepath.Ext.
  destruct (Ext_loop_suffix (rev (String.list_ascii_of_string p)) "")
    as [pre Hpre].
  exists pre. rewrite <-Hpre, append_empty_r, rev_involutive.
  by rewrite String.string_of_list_ascii_of_string.
Qed.

(** What [Ext_loop] makes of an extension without dot or slash. *)
Lemma Ext_loop_found (e rest : list Ascii.ascii) (acc : string) :
  Forall (λ c, c ≠ "/"%char ∧ c ≠ "."%char) e →
  filepath.Ext_loop (e ++ "."%char :: rest) acc
  = String "." (String.string_of_list_ascii (rev e) +:+ acc).
Proof.
  revert acc. induction e as [|c e IH]; intros acc He; simpl; [done|].
  inversion He as [|?? [Hs Hd] He']; subst.
  destruct (Ascii.eqb_spec c "/"); [done|].
  destruct (Ascii.eqb_spec c "."); [done|].
  rewrite IH by done. by rewrite string_of_list_ascii_app, append_assoc.
Qed.

(** A path that ends in a dot and bytes other than dot and slash has
    these as its extension. *)
Lemma Ext_of_suffix (pre e : string) :
  Forall (λ c, c ≠ "/"%char ∧ c ≠ "."%char) (String.list_ascii_of_string e) →
  filepath.Ext (pre +:+ String "." e) = String "." e.
Proof.
  intros He. unfold filepath.Ext.
  rewrite list_ascii_of_string_app. simpl. rewrite rev_app_distr. simpl.
  rewrite <-app_assoc. simpl.
  rewrite Ext_loop_found by (by apply Forall_rev).
  by rewrite rev_involutive, String.string_of_list_ascii_of_string,
    append_empty_r.
Qed.

(** X19.  The slice expression [r.URL.Path[:len(r.URL.Path)-len(ext)]]
    of [ServeHTTP] never panics: for every path, what [filepath.Ext]
    returns is no longer than the path, and the slice followed by the
    extension is the path again. *)
Theorem Ext_slice_in_range (p : string) :
  let ext := filepath.Ext p in
  (String.length ext ≤ String.length p)%nat ∧
  String.substring 0 (String.length p - String.length ext) p +:+ ext = p.
Proof.
  intros ext. destruct (Ext_suffix p) as [pre Hpre]. fold ext in Hpre.
  assert (String.length p = (String.length pre + String.length ext)%nat) as Hlen
    by (by rewrite Hpre at 1; rewrite length_append).
  split; [lia|]. rewrite Hlen.
  replace (String.length pre + String.length ext - String.length ext)%nat
    with (String.length pre) by lia.
  rewrite Hpre at 1. fold (strings.upto (String.length pre) (pre +:+ ext)).
  by rewrite upto_append.
Qed.

Lemma encodingByExtension_nonempty (ext : string) :
  encodingByExtension ext ≠ "" ↔ ext = ".br" ∨ ext = ".gz".
Proof.
  unfold encodingByExtension, encodingByExtensionMap.
  destruct (decide (ext = ".br")) as [->|Hbr]; [by split; [left|]|].
  destruct (decide (ext = ".gz")) as [->|Hgz]; [by split; [right|]|].
  rewrite lookup_insert_ne, lookup_singleton_ne by done.
  simpl. split; [done|]. by intros [|].
Qed.

Lemma direct_iff_compressed_suffix (p : string) :
  encodingByExtension (filepath.Ext p) ≠ "" ↔
  strings.HasSuffix p ".br" = true ∨ strings.HasSuffix p ".gz" = true.
Proof.
  rewrite encodingByExtension_nonempty, !HasSuffix_true. split.
  - destruct (Ext_suffix p) as [pre Hpre].
    intros [He|He]; rewrite He in Hpre; eauto.
  - intros [[pre ->]|[pre ->]]; [left|right]; apply Ext_of_suffix;
      repeat constructor; done.
Qed.

(** A path with a compressed extension: how [ServeHTTP] takes it
    apart. *)
Lemma compressed_path (base ext : string) :
  ext = ".br" ∨ ext = ".gz" →
  let p := base +:+ ext in
  strings.HasSuffix p "/index.html" = false ∧
  filepath.Ext p = ext ∧
  String.substring 0 (String.length p - String.length ext) p = base.
Proof.
  intros Hext p. subst p. split; [|split].
  - destruct (strings.HasSuffix _ "/index.html") eqn:E; [|done].
    apply HasSuffix_true in E as [pre E].
    apply (f_equal String.list_ascii_of_string) in E.
    rewrite !list_ascii_of_string_app in E.
    apply (f_equal (@rev Ascii.ascii)) in E.
    rewrite !rev_app_distr in E. by destruct Hext as [-> | ->].
  - destruct Hext as [-> | ->]; apply Ext_of_suffix; repeat constructor; done.
  - rewrite length_append.
    replace (String.length base + String.length ext - String.length ext)%nat
      with (String.length base) by lia.
    apply upto_append.
Qed.

End slices.

(** ** More on the token matcher *)

Section hasToken_more.

(** The separators, one by one. *)
Lemma isSeparator_iff (b : Ascii.ascii) :
  isSeparator b = true ↔
  b = " "%char ∨ b = "009"%char ∨ b = ";"%char ∨ b = ","%char.
Proof.
  unfold isSeparator, separators. cbn [strings.IndexByte].
  destruct (Ascii.eqb_spec " " b) as [<-|H1]; [split; [auto|done]|].
  destruct (Ascii.eqb_spec "009" b) as [<-|H2]; [split; [auto|done]|].
  destruct (Ascii.eqb_spec ";" b) as [<-|H3]; [split; [auto|done]|].
  destruct (Ascii.eqb_spec "," b) as [<-|H4]; [split; [auto 6|done]|].
  simpl. split; [done|]. intros [?|[?|[?|?]]]; congruence.
Qed.

Lemma hasToken_leading (token post : string) :
  right_delimited post → hasToken (token +:+ post) token = true.
Proof.
  intros Hpost.
  apply (hasToken_first_occurrence "" token post); [|by split; [left|]].
  pose proof (Index_least "" token post) as Hi. unfold strings.len in *.
  simpl in *. lia.
Qed.

(** X1.  [hasToken] never panics: evaluated as Go does, with an index
    expression out of range as a failure, it always returns a value, the
    one that the total definition gives.  The guards [i >= 0], [i == 0]
    and [i+len(token) == len(header)] keep [header[i-1]] and
    [header[i+len(token)]] in range for every header and every token,
    the empty ones included. *)
Theorem hasToken_never_panics (header token : string) :
  hasToken_checked header token = Some (hasToken header token).
Proof.
  unfold hasToken_checked, hasToken, isSeparatorAt.
  pose proof (hasToken_index_in_range header token) as Hrange. simpl in Hrange.
  destruct (Z.leb_spec 0 (strings.Index header token)) as [Hi|Hi]; [|done].
  destruct (Hrange Hi) as [Hbefore Hafter]. simpl.
  destruct (Z.eqb_spec (strings.Index header token) 0) as [Hz|Hz]; simpl.
  - destruct (Z.eqb_spec (strings.Index header token + strings.len token)
                (strings.len header)) as [He|He]; simpl; [done|].
    by destruct (Hafter He) as [b ->].
  - destruct (Hbefore Hz) as [b Hb]. rewrite Hb. simpl.
    destruct (isSeparator b); simpl; [|done].
    destruct (Z.eqb_spec (strings.Index header token + strings.len token)
                (strings.len header)) as [He|He]; simpl; [done|].
    by destruct (Hafter He) as [b' ->].
Qed.

(** X2.  What [hasToken] decides, exactly: whether the first occurrence
    of the token's bytes in the header (the one no other occurrence
    starts before) has the start of the header or a separator before it
    and the end of the header or a separator after it.  Occurrences
    further on play no part. *)
Theorem hasToken_iff_first_occurrence (header token : string) :
  hasToken header token = true ↔
  ∃ pre post : string,
    header = pre +:+ token +:+ post ∧
    (∀ pre' post' : string,
       header = pre' +:+ token +:+ post' →
       (String.length pre ≤ String.length pre')%nat) ∧
    left_delimited pre ∧ right_delimited post.
Proof.
  split.
  - intros Htok.
    assert (0 ≤ strings.Index header token) as Hi.
    { unfold hasToken in Htok. apply andb_true_iff in Htok as [Htok _].
      apply andb_true_iff in Htok as [Htok _]. by apply Z.leb_le. }
    destruct (Index_split header token Hi) as (pre & post & -> & Hlen).
    exists pre, post. split; [done|]. split.
    + intros pre' post' Heq. rewrite Heq in Hlen.
      pose proof (Index_least pre' token post') as Hle.
      unfold strings.len in Hle. lia.
    + by apply (hasToken_first_occurrence pre token post).
  - intros (pre & post & -> & Hfirst & Hdelim).
    apply hasToken_first_occurrence; [|done].
    pose proof (Index_least pre token post) as [Hi Hle].
    destruct (Index_split _ token Hi) as (pre0 & post0 & Heq & Hlen).
    specialize (Hfirst pre0 post0 Heq). unfold strings.len in *. lia.
Qed.

(** X3.  Parameters are not looked at: a header that is the token, or
    the token followed by a semicolon and anything at all (a q-value of
    zero, say), has the token for [hasToken]. *)
Theorem hasToken_ignores_parameters (token params : string) :
  hasToken token token = true ∧
  hasToken (token +:+ ";" +:+ params) token = true.
Proof.
  split.
  - rewrite <-(append_empty_r token) at 1. apply hasToken_leading. by left.
  - apply hasToken_leading. right. by exists ";"%char, params.
Qed.

End hasToken_more.

(** ** The deferred-header shim alone *)

Section buffer_facts.
Context {W : Type} `{ResponseWriter W}.

(** X4.  Until a status is written the deferred-header shim keeps the
    headers to itself: under a handler that only reads and changes
    headers, through [Header()], the real writer stays as it was, the
    shim is neither committed nor suppressed, and the header map it
    hands out is the one a new recorder would have after the same
    calls. *)
Theorem conneg_buffers_headers (p : calls) (w0 : W) :
  only_headers p →
  let c := run p (mkConneg false w0 None false) in
  realWriter c = w0 ∧ wroteHeader c = false ∧ Suppressed c = false ∧
  getHeader c = headerMap (run p newSink).
Proof.
  intros Hp c. subst c.
  cut (∀ (hd : option Header) (s : Sink),
         default ∅ hd = headerMap s →
         let c := run p (mkConneg false w0 hd false) in
         realWriter c = w0 ∧ wroteHeader c = false ∧ Suppressed c = false ∧
         getHeader c = headerMap (run p s)).
  { intros Hgen. by apply (Hgen None newSink). }
  induction p as [|k IH|key g k IH|code k IH|b k IH|src k IH];
    intros hd s Hhd; simpl in Hp; try done.
  - cbn [run].
    change (getHeader (mkConneg false w0 hd false)) with (default ∅ hd).
    rewrite Hhd. by apply IH.
  - cbn [run].
    change (getHeader (mkConneg false w0 hd false)) with (default ∅ hd).
    change (setHeader ?h (mkConneg false w0 hd false))
      with (mkConneg false w0 (Some h) false).
    apply IH; [done|]. simpl. by rewrite Hhd.
Qed.

End buffer_facts.

Section transparency.

Lemma Sink_WriteHeader_sent (code : Z) (s : Sink) :
  sent (Sink_WriteHeader code s) ≠ None.
Proof. unfold Sink_WriteHeader. by destruct (sent s) eqn:E; simpl; rewrite ?E. Qed.

(** The buffer flushed into a sink with no headers is the sink with the
    buffer as its headers. *)
Lemma flushHeader_fresh (buf : Header) (bd : list byte) :
  flushHeader buf (mkSink ∅ None bd) = mkSink buf None bd.
Proof.
  destruct (flushHeader_Sink buf (mkSink ∅ None bd)) as (Hs & Hb & Hlook).
  destruct (flushHeader buf _) as [hm st bd']. simpl in *. subst.
  f_equal. apply map_eq. intros k. rewrite Hlook, lookup_empty.
  unfold appended. by destruct (buf !! k).
Qed.

(** Once the deferred-header shim has passed a status on, it is the real
    writer in all but name. *)
Lemma conneg_committed (p : calls) :
  ∀ (s : Sink) (hd : option Header),
    sent s ≠ None →
    let c := run p (mkConneg false s hd true) in
    Suppressed c = false ∧ realWriter c = run p s.
Proof.
  induction p as [|k IH|key g k IH|code k IH|b k IH|src k IH];
    intros s hd Hs; shims.
  - done.
  - by apply IH.
  - by apply IH.
  - destruct (sent s) eqn:E; [|done]. apply IH. by rewrite E.
  - destruct (sent s) eqn:E; [|done]. simpl. apply IH. simpl. by rewrite E.
  - destruct src as [|y src]; simpl; [by apply IH|].
    destruct (sent s) eqn:E; [|done]. simpl. apply IH. simpl. by rewrite E.
Qed.

(** X5.  The deferred-header shim is transparent for a response that is
    not a 404: over a sink that has no headers yet and has sent nothing,
    under a handler whose first status (named, or the 200 of a first
    write) is not 404, the shim does not turn suppressed and the sink
    ends exactly as if the handler had been given the sink itself: same
    status, same headers sent, same body. *)
Theorem conneg_transparent_unless_NotFound (p : calls) (s0 : Sink) :
  sent s0 = None → headerMap s0 = ∅ →
  first_status (λ code, code ≠ StatusNotFound) p →
  let c := run p (mkConneg false s0 None false) in
  Suppressed c = false ∧ realWriter c = run p s0.
Proof.
  destruct s0 as [hm0 st0 bd]. simpl. intros -> -> Hp.
  cut (∀ hd : option Header,
         let c := run p (mkConneg false (mkSink ∅ None bd) hd false) in
         Suppressed c = false ∧
         realWriter c = run p (mkSink (default ∅ hd) None bd)).
  { intros Hgen. apply (Hgen None). }
  induction p as [|k IH|key g k IH|code k IH|b k IH|src k IH];
    intros hd; simpl in Hp.
  - done.
  - simpl. unfold conneg_getHeader at 1 2. simpl. by apply IH.
  - cbn [run].
    change (getHeader (mkConneg false (mkSink ∅ None bd) hd false))
      with (default ∅ hd).
    change (setHeader ?h (mkConneg false (mkSink ∅ None bd) hd false))
      with (mkConneg false (mkSink ∅ None bd) (Some h) false).
    change (getHeader (mkSink ?a ?b ?c)) with a.
    change (setHeader ?h (mkSink ?a ?b ?c)) with (mkSink h b c).
    exact (IH Hp (Some (partial_alter g key (default ∅ hd)))).
  - simpl. unfold conneg_WriteHeader. simpl.
    destruct (Z.eqb_spec code StatusNotFound); [done|].
    rewrite flushHeader_fresh. by apply conneg_committed.
  - simpl. unfold conneg_Write, conneg_WriteHeader. simpl.
    change (StatusOK =? StatusNotFound) with false. cbv iota.
    rewrite flushHeader_fresh. simpl.
    by apply conneg_committed.
  - destruct Hp as [Hsrc _]. simpl.
    unfold conneg_ReadFrom, conneg_WriteHeader, io_Copy. simpl.
    change (StatusOK =? StatusNotFound) with false. cbv iota.
    rewrite flushHeader_fresh.
    destruct src as [|y src]; [done|]. simpl.
    by apply conneg_committed.
Qed.

End transparency.

(** ** The auto-header shim alone *)

Section rwce_transparency.

Lemma rwce_sent (p : calls) :
  ∀ (s : Sink) (enc : string) (cg : bool),
    sent s ≠ None → w (run p (mkRWCE s enc cg true)) = run p s.
Proof.
  induction p as [|k IH|key g k IH|code k IH|b k IH|src k IH];
    intros s enc cg Hs; shims.
  - done.
  - by apply IH.
  - by apply IH.
  - destruct (sent s) eqn:E; [|done]. apply IH. by rewrite E.
  - destruct (sent s) eqn:E; [|done]. simpl. apply IH. simpl. by rewrite E.
  - destruct src as [|y src]; simpl; [by apply IH|].
    destruct (sent s) eqn:E; [|done]. simpl. apply IH. simpl. by rewrite E.
Qed.

(** X6.  The auto-header shim is transparent for a response that is not
    a 200: under a handler that names a first status other than 200 (an
    error, a redirect), the sink ends exactly as if the handler had been
    given the sink itself, whatever encoding the shim was made for. *)
Theorem rwce_transparent_unless_OK (p : calls) (s0 : Sink)
  (enc : string) (cg : bool) :
  first_status (λ code, code ≠ StatusOK) p →
  w (run p (mkRWCE s0 enc cg false)) = run p s0.
Proof.
  revert s0.
  induction p as [|k IH|key g k IH|code k IH|b k IH|src k IH];
    intros s0 Hp; simpl in Hp.
  - done.
  - simpl. unfold rwce_getHeader. simpl. by apply IH.
  - simpl. unfold rwce_setHeader, rwce_getHeader. simpl. by apply IH.
  - simpl. rewrite rwce_WriteHeader_first.
    destruct (Z.eqb_spec code StatusOK); [done|].
    apply rwce_sent, Sink_WriteHeader_sent.
  - done.
  - by destruct Hp.
Qed.

(** X7.  A first [Write] or [ReadFrom] on the auto-header shim, with no
    [WriteHeader] before it, sends the 200 with the shim's headers set in
    the sink's header map and then the bytes; both report all bytes
    taken and no error.  [ReadFrom] sends the 200 even from a reader at
    end of file. *)
Theorem rwce_first_write_sends_OK (s0 : Sink) (enc : string) (cg : bool)
  (b : list byte) :
  sent s0 = None →
  let r := mkRWCE s0 enc cg false in
  let hdrs := inject enc cg (headerMap s0) in
  let s := mkSink hdrs (Some (StatusOK, hdrs)) (body s0 ++ b) in
  rwce_Write b r = ((Z.of_nat (length b), None), mkRWCE s enc cg true) ∧
  rwce_ReadFrom b r = ((Z.of_nat (length b), None), mkRWCE s enc cg true).
Proof.
  intros Hsent r hdrs s. subst r hdrs s.
  unfold rwce_Write, rwce_ReadFrom. cbn [headersSent negb].
  rewrite rwce_WriteHeader_first. change (StatusOK =? StatusOK) with true.
  cbv iota. unfold inject_w, inject.
  destruct s0 as [hm st bd]. simpl in Hsent. subst st.
  destruct (decide (enc ≠ "")), cg; shims;
    (split; [done|]); destruct b; simpl; by rewrite ?app_nil_r.
Qed.

End rwce_transparency.

(** ** Probes over any writer *)

Section rwce_once.
Context {W : Type} `{ResponseWriter W}.

(** The auto-header shim passes on one status call at most: of the
    wrapped writer, a property [A] that holds until that call and a
    property [D] that holds from then on need not be kept by a status
    call that comes after. *)
Lemma run_rwce_once (A D : W → Prop) :
  (∀ w0 h, A w0 → A (setHeader h w0)) →
  (∀ w0 code, A w0 → D (WriteHeader code w0)) →
  (∀ w0 h, D w0 → D (setHeader h w0)) →
  (∀ w0 b, D w0 → D (Write b w0).2) →
  (∀ w0 src, D w0 → D (ReadFrom src w0).2) →
  ∀ p x,
    (headersSent x = false ∧ A (w x)) ∨ (headersSent x = true ∧ D (w x)) →
    let x' := run p x in
    (headersSent x' = false ∧ A (w x')) ∨ (headersSent x' = true ∧ D (w x')).
Proof.
  intros Aedit Acommit Dedit Dwrite Dcopy p x Hx.
  set (I := λ x : responseWithContentEncoding W,
    (headersSent x = false ∧ A (w x)) ∨ (headersSent x = true ∧ D (w x))).
  assert (∀ x code, I x → I (rwce_WriteHeader code x) ∧
                            headersSent (rwce_WriteHeader code x) = true)
    as Hstatus.
  { intros [x0 e c hs] code Hst. unfold I in *.
    cbn [encoding isConneg headersSent w] in *.
    destruct Hst as [[-> HA']|[-> HD]].
    - rewrite rwce_WriteHeader_first. split; [|done]. right.
      split; [done|]. cbn [w]. apply Acommit.
      destruct (code =? StatusOK); [|done]. unfold inject_w.
      destruct (decide (e ≠ "")), c; auto.
    - unfold rwce_WriteHeader. simpl. auto. }
  assert (∀ x, I x →
            let x1 := if negb (headersSent x)
                      then rwce_WriteHeader StatusOK x else x in
            headersSent x1 = true ∧ D (w x1)) as Himplicit.
  { intros y Hy y1. subst y1. destruct (headersSent y) eqn:E; simpl.
    - destruct Hy as [[? _]|[_ ?]]; [congruence|done].
    - destruct (Hstatus y StatusOK Hy) as [[[? _]|[_ ?]] Hhs];
        [congruence|done]. }
  apply (run_invariant I (λ _ _, True)); [| | | |apply edits_any|done].
  - intros [x0 e c hs] key g _ Hst. unfold I in *. simpl in *.
    unfold rwce_setHeader, rwce_getHeader. simpl.
    destruct Hst as [[-> HA']|[-> HD]]; [left|right]; auto.
  - intros y code Hy. by apply Hstatus.
  - intros y b Hy. destruct (Himplicit y Hy) as (Hhs & HD).
    simpl. unfold rwce_Write.
    destruct (if negb (headersSent y) then _ else _) as [x1 e c hs].
    simpl in *. subst. specialize (Dwrite x1 b HD).
    destruct (Write b x1) as [res x2]. right. simpl. auto.
  - intros y src Hy. destruct (Himplicit y Hy) as (Hhs & HD).
    simpl. unfold rwce_ReadFrom, io_Copy.
    destruct (if negb (headersSent y) then _ else _) as [x1 e c hs].
    simpl in *. subst. specialize (Dcopy x1 src HD).
    destruct (ReadFrom src x1) as [res x2]. right. simpl. auto.
Qed.

End rwce_once.

Section probe_facts.
Context {W : Type} `{HeaderLaws W}.

Lemma untouched_setHeader (w0 : W) (c : connegResponseWriter W) (h : Header) :
  untouched w0 c → untouched w0 (setHeader h c).
Proof.
  destruct c as [sup rw hd [|]]; unfold untouched; simpl;
    unfold conneg_setHeader; simpl; destruct sup; simpl; intuition congruence.
Qed.

Lemma untouched_WriteHeader (w0 : W) (c : connegResponseWriter W) (code : Z) :
  untouched w0 c → untouched w0 (WriteHeader code c).
Proof.
  destruct c as [sup rw hd [|]]; unfold untouched; simpl;
    unfold conneg_WriteHeader; simpl; [done|].
  destruct (code =? StatusNotFound); simpl; intuition congruence.
Qed.

Lemma untouched_Write (w0 : W) (c : connegResponseWriter W) (b : list byte) :
  untouched w0 c → untouched w0 (Write b c).2.
Proof.
  intros Hc. simpl. unfold conneg_Write.
  destruct (Suppressed c) eqn:Es; [done|].
  destruct c as [sup rw hd [|]]; simpl in *; subst.
  - destruct (Write b rw) as [res rw']. unfold untouched. simpl.
    intuition congruence.
  - unfold conneg_WriteHeader. simpl.
    change (StatusOK =? StatusNotFound) with false. cbv iota. simpl.
    destruct (Write b _) as [res rw']. unfold untouched. simpl.
    intuition congruence.
Qed.

Lemma untouched_ReadFrom (w0 : W) (c : connegResponseWriter W)
  (src : list byte) :
  untouched w0 c → untouched w0 (ReadFrom src c).2.
Proof.
  intros Hc. simpl. unfold conneg_ReadFrom, io_Copy.
  destruct (Suppressed c) eqn:Es; [done|].
  destruct c as [sup rw hd [|]]; simpl in *; subst.
  - destruct (ReadFrom src rw) as [res rw']. unfold untouched. simpl.
    intuition congruence.
  - unfold conneg_WriteHeader. simpl.
    change (StatusOK =? StatusNotFound) with false. cbv iota. simpl.
    destruct (ReadFrom src _) as [res rw']. unfold untouched. simpl.
    intuition congruence.
Qed.

Lemma untouched_new (w0 : W) : untouched w0 (mkConneg false w0 None false).
Proof. by split. Qed.

(** Either stack of shims over [w0], under any handler. *)
Lemma run_untouched (w0 : W) (p : calls) (c : connegResponseWriter W) :
  untouched w0 c → untouched w0 (run p c).
Proof.
  intros Hc.
  apply (run_invariant (untouched w0) (λ _ _, True));
    [| | | |apply edits_any|done]; intros.
  - by apply untouched_setHeader.
  - by apply untouched_WriteHeader.
  - by apply untouched_Write.
  - by apply untouched_ReadFrom.
Qed.

Lemma run_rwce_untouched (w0 : W) (p : calls)
  (x : responseWithContentEncoding (connegResponseWriter W)) :
  untouched w0 (w x) → untouched w0 (w (run p x)).
Proof.
  intros Hx.
  destruct (run_rwce_once (untouched w0) (untouched w0)) with p x
    as [[_ ?]|[_ ?]]; try done; intros.
  - by apply untouched_setHeader.
  - by apply untouched_WriteHeader.
  - by apply untouched_setHeader.
  - by apply untouched_Write.
  - by apply untouched_ReadFrom.
  - destruct (headersSent x); auto.
Qed.

Variable TypeByExtension : string → string.
Variable f : fileHandler.

(** The deferred-header shim of a probe, as the probe leaves it. *)
Lemma probe_untouched (ext enc path : string) (w0 : W) (q : Request) :
  untouched w0
    (serveCompressedFile TypeByExtension f ext enc path true
       (mkConneg false w0 None false) q).1.
Proof.
  unfold serveCompressedFile, delegate. destruct (fs f q) as [p q'].
  destruct (decide _); simpl.
  - apply run_rwce_untouched. simpl. apply (untouched_setHeader w0 _ _).
    apply untouched_new.
  - apply run_untouched, untouched_new.
Qed.

(** X8.  A probe that reports failure has left the writer exactly as it
    found it, whatever the writer and whatever the delegate did: none of
    the headers set for the probe, by [serveCompressedFile] or by the
    delegate, and no status or byte has reached it.  The next attempt
    starts from a clean writer. *)
Theorem failed_probe_leaves_writer (ext enc path : string) (w0 : W)
  (r : Request) :
  ∀ (w1 : W) (r' : Request),
    tryServeCompressedFile TypeByExtension f ext enc path w0 r = (false, w1, r') →
    w1 = w0.
Proof.
  intros w1 r'. unfold tryServeCompressedFile.
  pose proof (probe_untouched ext enc path w0 (set_Path (path +:+ ext) r))
    as [_ Hreal].
  destruct (serveCompressedFile _ _ _ _ _ _ _ _) as [crw r2]. simpl in Hreal.
  intros [= Hs <- _]. apply Hreal. right. by destruct (Suppressed crw).
Qed.

(** A suppressed shim stays suppressed under the auto-header shim. *)
Lemma run_rwce_suppressed (p : calls)
  (x : responseWithContentEncoding (connegResponseWriter W)) :
  Suppressed (w x) = true → wroteHeader (w x) = true →
  Suppressed (w (run p x)) = true.
Proof.
  intros Hs Hw.
  set (Sup := λ c : connegResponseWriter W,
                Suppressed c = true ∧ wroteHeader c = true).
  assert (∀ c h, Sup c → Sup (setHeader h c)) as Sedit.
  { intros [sup rw hd wr] h [??]; simpl in *; subst. by unfold conneg_setHeader. }
  assert (∀ c code, Sup c → Sup (WriteHeader code c)) as Sstatus.
  { intros [sup rw hd wr] code [??]; simpl in *; subst.
    by unfold conneg_WriteHeader. }
  destruct (run_rwce_once Sup Sup) with p x as [[_ [? _]]|[_ [? _]]]; try done.
  - intros [sup rw hd wr] b [??]; simpl in *; subst. by unfold conneg_Write.
  - intros [sup rw hd wr] src [??]; simpl in *; subst. by unfold conneg_ReadFrom.
  - unfold Sup. destruct (headersSent x); auto.
Qed.

(** A handler whose first status is 404 leaves the deferred-header shim
    suppressed, with or without the auto-header shim around it. *)
Lemma first_404_suppresses (p : calls) :
  ∀ c : connegResponseWriter W,
    first_status (λ code, code = StatusNotFound) p → wroteHeader c = false →
    Suppressed (run p c) = true.
Proof.
  induction p as [|k IH|key g k IH|code k IH|b k IH|src k IH];
    intros [sup rw hd wr] Hp Hw; simpl in Hp, Hw; subst; try done.
  - by apply IH.
  - by apply IH.
  - cbn [run].
    change (WriteHeader StatusNotFound ?c)
      with (conneg_WriteHeader StatusNotFound c).
    unfold conneg_WriteHeader. simpl.
    by destruct (run_suppressed k (mkConneg true rw hd true)) as (? & _).
  - by destruct Hp.
Qed.

Lemma first_404_suppresses_rwce (p : calls) :
  ∀ (c : connegResponseWriter W) (enc : string) (cg : bool),
    first_status (λ code, code = StatusNotFound) p → wroteHeader c = false →
    Suppressed (w (run p (mkRWCE c enc cg false))) = true.
Proof.
  induction p as [|k IH|key g k IH|code k IH|b k IH|src k IH];
    intros [sup rw hd wr] enc cg Hp Hw; simpl in Hp, Hw; subst; try done.
  - by apply IH.
  - by apply IH.
  - cbn [run].
    change (WriteHeader StatusNotFound ?x)
      with (rwce_WriteHeader StatusNotFound x).
    rewrite rwce_WriteHeader_first.
    change (StatusNotFound =? StatusOK) with false.
    cbv iota. by apply run_rwce_suppressed.
  - by destruct Hp.
Qed.

Lemma probe_suppressed (ext enc path : string) (w0 : W) (q : Request) :
  first_status (λ code, code = StatusNotFound) (fs f q).1 →
  Suppressed
    (serveCompressedFile TypeByExtension f ext enc path true
       (mkConneg false w0 None false) q).1 = true.
Proof.
  unfold serveCompressedFile, delegate. destruct (fs f q) as [p q'].
  intros Hp. destruct (decide _); simpl.
  - by apply first_404_suppresses_rwce.
  - by apply first_404_suppresses.
Qed.

(** A probe that the delegate answers with 404 reports failure and hands
    writer and request back as they were. *)
Lemma tryServeCompressedFile_404 (ext enc path : string) (w0 : W)
  (r : Request) :
  keeps_but_path (fs f) →
  first_status (λ code, code = StatusNotFound)
    (fs f (set_Path (path +:+ ext) r)).1 →
  tryServeCompressedFile TypeByExtension f ext enc path w0 r = (false, w0, r).
Proof.
  intros Hk Hp.
  pose proof (tryServeCompressedFile_request TypeByExtension f ext enc path
                w0 r Hk) as Hr.
  pose proof (probe_suppressed ext enc path w0 _ Hp) as Hs.
  pose proof (probe_untouched ext enc path w0 (set_Path (path +:+ ext) r))
    as [_ Hreal].
  unfold tryServeCompressedFile in *.
  destruct (serveCompressedFile _ _ _ _ _ _ _ _) as [crw r2]. simpl in *.
  rewrite Hs, Hreal, Hr by auto. done.
Qed.

(** X9.  A negotiated request for which no variant can be served: each
    encoding that [hasToken] finds in Accept-Encoding is probed and the
    delegate answers the probe with 404.  The response then is the
    delegate's response to the request as it came, through the
    auto-header shim made for Vary alone, on the writer as it was given:
    the probes leave no trace, on any writer. *)
Theorem ServeHTTP_no_variant (w0 : W) (r : Request) :
  let ae := Get (ReqHeader r) "Accept-Encoding" in
  isNegotiated r →
  (∀ q, (fs f q).2 = q) →
  (hasToken ae "br" = true →
   first_status (λ code, code = StatusNotFound)
     (fs f (set_Path (logicalPath r +:+ ".br") r)).1) →
  (hasToken ae "gzip" = true →
   first_status (λ code, code = StatusNotFound)
     (fs f (set_Path (logicalPath r +:+ ".gz") r)).1) →
  ServeHTTP TypeByExtension f w0 r =
    (w (run (fs f r).1 (mkRWCE w0 "" true false)), r).
Proof.
  intros ae [Hi He] Hfs Hbr Hgz.
  assert (keeps_but_path (fs f)) as Hk.
  { intros q. rewrite Hfs. by destruct q as [m [pth qs] hd]. }
  unfold ServeHTTP. rewrite Hi.
  destruct (decide (encodingByExtension _ ≠ "")); [done|].
  fold (logicalPath r). fold ae.
  assert (delegate (fs f) (mkRWCE w0 "" true false) r
          = (run (fs f r).1 (mkRWCE w0 "" true false), r)) as Hfall.
  { unfold delegate. specialize (Hfs r). destruct (fs f r) as [p r'].
    simpl in *. by subst. }
  destruct (hasToken ae "br").
  - rewrite (tryServeCompressedFile_404 ".br" "br") by auto.
    destruct (hasToken ae "gzip").
    + rewrite (tryServeCompressedFile_404 ".gz" "gzip") by auto.
      by rewrite Hfall.
    + by rewrite Hfall.
  - destruct (hasToken ae "gzip").
    + rewrite (tryServeCompressedFile_404 ".gz" "gzip") by auto.
      by rewrite Hfall.
    + by rewrite Hfall.
Qed.

End probe_facts.

(** ** What a probe reports *)

Section report_facts.
Context {W : Type} `{HeaderLaws W}.

Lemma waiting_setHeader (c : connegResponseWriter W) (h : Header) :
  waiting c → waiting (setHeader h c).
Proof.
  destruct c as [sup rw hd wr]. unfold waiting. simpl. intros [-> ->].
  by unfold conneg_setHeader.
Qed.

Lemma waiting_inject (c : connegResponseWriter W) (enc : string) (cg : bool) :
  waiting c → waiting (inject_w enc cg c).
Proof.
  intros Hc. unfold inject_w.
  destruct (decide (enc ≠ "")), cg; auto using waiting_setHeader.
Qed.

Lemma waiting_WriteHeader (c : connegResponseWriter W) (code : Z) :
  waiting c → code ≠ StatusNotFound → committed (WriteHeader code c).
Proof.
  destruct c as [sup rw hd wr]. unfold waiting, committed. simpl.
  intros [-> ->] Hne. unfold conneg_WriteHeader. simpl.
  by destruct (Z.eqb_spec code StatusNotFound).
Qed.

Lemma committed_setHeader (c : connegResponseWriter W) (h : Header) :
  committed c → committed (setHeader h c).
Proof.
  destruct c as [sup rw hd wr]. unfold committed. simpl. intros [-> ->].
  by unfold conneg_setHeader.
Qed.

Lemma committed_WriteHeader (c : connegResponseWriter W) (code : Z) :
  committed c → committed (WriteHeader code c).
Proof.
  destruct c as [sup rw hd wr]. unfold committed. simpl. intros [-> ->].
  by unfold conneg_WriteHeader.
Qed.

Lemma committed_Write (c : connegResponseWriter W) (b : list byte) :
  waiting c ∨ committed c → committed (Write b c).2.
Proof.
  intros Hc.
  assert (committed (if negb (wroteHeader c)
                     then conneg_WriteHeader StatusOK c else c)
          ∧ Suppressed c = false) as [Hc1 Hs].
  { destruct Hc as [Hc|Hc].
    - pose proof (waiting_WriteHeader c StatusOK Hc) as Hc1.
      destruct Hc as [Hw Hs]. rewrite Hw. split; [by apply Hc1|done].
    - destruct Hc as [Hw Hs]. rewrite Hw. by split. }
  simpl. unfold conneg_Write. rewrite Hs.
  destruct (if negb (wroteHeader c) then _ else _) as [sup rw hd wr].
  destruct Hc1 as [Hw1 Hs1]. simpl in *. subst.
  by destruct (Write b rw).
Qed.

Lemma committed_ReadFrom (c : connegResponseWriter W) (src : list byte) :
  waiting c ∨ committed c → committed (ReadFrom src c).2.
Proof.
  intros Hc.
  assert (committed (if negb (wroteHeader c)
                     then conneg_WriteHeader StatusOK c else c)
          ∧ Suppressed c = false) as [Hc1 Hs].
  { destruct Hc as [Hc|Hc].
    - pose proof (waiting_WriteHeader c StatusOK Hc) as Hc1.
      destruct Hc as [Hw Hs]. rewrite Hw. split; [by apply Hc1|done].
    - destruct Hc as [Hw Hs]. rewrite Hw. by split. }
  simpl. unfold conneg_ReadFrom, io_Copy. rewrite Hs.
  destruct (if negb (wroteHeader c) then _ else _) as [sup rw hd wr].
  destruct Hc1 as [Hw1 Hs1]. simpl in *. subst.
  by destruct (ReadFrom src rw).
Qed.

Lemma run_committed (p : calls) (c : connegResponseWriter W) :
  committed c → committed (run p c).
Proof.
  intros Hc.
  apply (run_invariant committed (λ _ _, True));
    [| | | |apply edits_any|done]; intros.
  - by apply committed_setHeader.
  - by apply committed_WriteHeader.
  - apply committed_Write. by right.
  - apply committed_ReadFrom. by right.
Qed.

Lemma run_rwce_committed (p : calls)
  (x : responseWithContentEncoding (connegResponseWriter W)) :
  committed (w x) → committed (w (run p x)).
Proof.
  intros Hx.
  destruct (run_rwce_once committed committed) with p x
    as [[_ ?]|[_ ?]]; try done; intros.
  - by apply committed_setHeader.
  - by apply committed_WriteHeader.
  - by apply committed_setHeader.
  - apply committed_Write. by right.
  - apply committed_ReadFrom. by right.
  - destruct (headersSent x); auto.
Qed.

(** A handler whose first status is not 404 leaves the deferred-header
    shim committed, with or without the auto-header shim around it. *)
Lemma first_other_commits (p : calls) :
  ∀ c : connegResponseWriter W,
    first_status (λ code, code ≠ StatusNotFound) p → waiting c →
    committed (run p c).
Proof.
  induction p as [|k IH|key g k IH|code k IH|b k IH|src k IH];
    intros c Hp Hc; simpl in Hp; try done.
  - by apply IH.
  - cbn [run]. apply IH; [done|]. by apply waiting_setHeader.
  - cbn [run]. apply run_committed. by apply waiting_WriteHeader.
  - cbn [run].
    pose proof (committed_Write c b (or_introl Hc)) as Hc'.
    destruct (Write b c) as [res c']. by apply run_committed.
  - cbn [run].
    pose proof (committed_ReadFrom c src (or_introl Hc)) as Hc'.
    destruct (ReadFrom src c) as [res c']. by apply run_committed.
Qed.

Lemma first_other_commits_rwce (p : calls) :
  ∀ (c : connegResponseWriter W) (enc : string) (cg : bool),
    first_status (λ code, code ≠ StatusNotFound) p → waiting c →
    committed (w (run p (mkRWCE c enc cg false))).
Proof.
  assert (∀ (c : connegResponseWriter W) enc cg,
            waiting c →
            committed (w (rwce_WriteHeader StatusOK (mkRWCE c enc cg false))))
    as Himplicit.
  { intros c enc cg Hc. rewrite rwce_WriteHeader_first.
    change (StatusOK =? StatusOK) with true. cbv iota. cbn [w].
    apply waiting_WriteHeader; [by apply waiting_inject|done]. }
  induction p as [|k IH|key g k IH|code k IH|b k IH|src k IH];
    intros c enc cg Hp Hc; simpl in Hp; try done.
  - by apply IH.
  - cbn [run].
    change (setHeader ?h (mkRWCE c enc cg false))
      with (mkRWCE (setHeader h c) enc cg false).
    apply IH; [done|]. by apply waiting_setHeader.
  - cbn [run].
    change (WriteHeader code ?x) with (rwce_WriteHeader code x).
    rewrite rwce_WriteHeader_first. apply run_rwce_committed. cbn [w].
    apply waiting_WriteHeader; [|done].
    destruct (code =? StatusOK); [by apply waiting_inject|done].
  - cbn [run]. change (Write b ?x) with (rwce_Write b x).
    rewrite rwce_Write_implicit by done.
    specialize (Himplicit c enc cg Hc).
    destruct (rwce_WriteHeader_fields StatusOK (mkRWCE c enc cg false))
      as (Hhs & _).
    destruct (rwce_WriteHeader StatusOK _) as [c1 e1 g1 hs1].
    cbn [w headersSent] in *. subst hs1. unfold rwce_Write. cbn [headersSent negb w].
    pose proof (committed_Write c1 b (or_intror Himplicit)) as Hc'.
    destruct (Write b c1) as [res c']. by apply run_rwce_committed.
  - cbn [run]. change (ReadFrom src ?x) with (rwce_ReadFrom src x).
    rewrite rwce_ReadFrom_implicit by done.
    specialize (Himplicit c enc cg Hc).
    destruct (rwce_WriteHeader_fields StatusOK (mkRWCE c enc cg false))
      as (Hhs & _).
    destruct (rwce_WriteHeader StatusOK _) as [c1 e1 g1 hs1].
    cbn [w headersSent] in *. subst hs1.
    unfold rwce_ReadFrom, io_Copy. cbn [headersSent negb w].
    pose proof (committed_ReadFrom c1 src (or_intror Himplicit)) as Hc'.
    destruct (ReadFrom src c1) as [res c']. by apply run_rwce_committed.
Qed.

Variable TypeByExtension : string → string.
Variable f : fileHandler.

(** X20.  What a probe reports: [tryServeCompressedFile] returns false
    when the first status of the delegate's answer for the probed path
    is 404, and true when it is any other status, named or the 200 of a
    first write; this on any writer, with or without the auto-header
    shim in between. *)
Theorem tryServeCompressedFile_reports (ext enc path : string) (w0 : W)
  (r : Request) :
  let p := (fs f (set_Path (path +:+ ext) r)).1 in
  let served :=
    (tryServeCompressedFile TypeByExtension f ext enc path w0 r).1.1 in
  (first_status (λ code, code = StatusNotFound) p → served = false) ∧
  (first_status (λ code, code ≠ StatusNotFound) p → served = true).
Proof.
  intros p served. subst p served. split; intros Hp.
  - pose proof (probe_suppressed TypeByExtension f ext enc path w0 _ Hp) as Hs.
    unfold tryServeCompressedFile.
    destruct (serveCompressedFile _ _ _ _ _ _ _ _) as [crw r2]. simpl in *.
    by rewrite Hs.
  - unfold tryServeCompressedFile, serveCompressedFile, delegate.
    destruct (fs f (set_Path (path +:+ ext) r)) as [p r2]. simpl in Hp.
    assert (waiting (mkConneg false w0 None false)) as Hnew by (by split).
    destruct (decide _); cbn [fst snd].
    + destruct (first_other_commits_rwce p
                  (setHeader (Set_ "Content-Type"
                                (TypeByExtension (filepath.Ext path))
                                (getHeader (mkConneg false w0 None false)))
                     (mkConneg false w0 None false)) enc true Hp) as [_ Hs].
      { by apply waiting_setHeader. }
      by rewrite Hs.
    + destruct (first_other_commits p _ Hp Hnew) as [_ Hs]. by rewrite Hs.
Qed.

End report_facts.

(** ** The gzip variant *)

Section gzip.
Variable TypeByExtension : string → string.
Variable f : fileHandler.

(** A probe for a file that the delegate serves, under a name with a
    known MIME type: it reports success, and the sink has the file's
    bytes and a 200 with the buffered headers, the shim's two among
    them. *)
Lemma tryServeCompressedFile_serves (ext enc path : string) (s0 : Sink)
  (r : Request) (content : list byte) :
  sent s0 = None →
  TypeByExtension (filepath.Ext path) ≠ "" →
  serves content (fs f (set_Path (path +:+ ext) r)).1 →
  let out := tryServeCompressedFile TypeByExtension f ext enc path s0 r in
  out.1.1 = true ∧ body out.1.2 = body s0 ++ content ∧
  ∃ buf hdrs, sent out.1.2 = Some (StatusOK, hdrs) ∧
              flushed (inject enc true buf) (headerMap s0) hdrs.
Proof.
  intros Hsent Hmime Hserves out. subst out.
  unfold tryServeCompressedFile, serveCompressedFile, delegate.
  destruct (fs f (set_Path (path +:+ ext) r)) as [p r2]. simpl in Hserves.
  destruct (decide (TypeByExtension (filepath.Ext path) ≠ "")); [|done].
  destruct (run_serves p content
              (setHeader
                 (Set_ "Content-Type" (TypeByExtension (filepath.Ext path))
                    (getHeader (mkConneg false s0 None false)))
                 (mkConneg false s0 None false))
              enc true s0 Hsent)
    as (Hs & Hb & buf & hdrs & Hh & Hfl); [|exact Hserves|].
  { unfold buffering. shims. eauto. }
  cbn [fst snd]. rewrite Hs. simpl. eauto 10.
Qed.

(** X10.  Gzip is served where Brotli cannot be: for a negotiated
    request whose logical file name has a known MIME type, when
    [hasToken] finds [gzip] in Accept-Encoding and the delegate serves
    the [.gz] file, and Brotli is either not accepted or its probe is
    answered with 404, the response is a 200 whose body is the [.gz]
    file's bytes, with [Content-Encoding: gzip] and
    [Vary: Accept-Encoding]. *)
Theorem Gzip_when_Brotli_missing (s0 : Sink) (r : Request)
  (gzipped : list byte) :
  let ae := Get (ReqHeader r) "Accept-Encoding" in
  sent s0 = None →
  headerMap s0 !! "Content-Encoding" = None →
  isNegotiated r →
  TypeByExtension (filepath.Ext (logicalPath r)) ≠ "" →
  keeps_but_path (fs f) →
  (hasToken ae "br" = true →
   first_status (λ code, code = StatusNotFound)
     (fs f (set_Path (logicalPath r +:+ ".br") r)).1) →
  hasToken ae "gzip" = true →
  serves gzipped (fs f (set_Path (logicalPath r +:+ ".gz") r)).1 →
  let s := (ServeHTTP TypeByExtension f s0 r).1 in
  body s = body s0 ++ gzipped ∧
  ∃ hdrs, sent s = Some (StatusOK, hdrs) ∧
          hdrs !! "Content-Encoding" = Some ["gzip"] ∧
          "Accept-Encoding" ∈ default [] (hdrs !! "Vary").
Proof.
  intros ae Hsent Hce [Hi He] Hmime Hk Hbr Hgz Hserves s. subst s.
  unfold ServeHTTP. rewrite Hi.
  destruct (decide (encodingByExtension _ ≠ "")); [done|].
  fold (logicalPath r). fold ae. rewrite Hgz.
  assert ((let '(served, w1, r1) :=
             if hasToken ae "br"
             then tryServeCompressedFile TypeByExtension f ".br" "br"
                    (logicalPath r) s0 r
             else (false, s0, r) in
           if served then (w1, r1)
           else let '(served0, w2, r2) :=
                  tryServeCompressedFile TypeByExtension f ".gz" "gzip"
                    (logicalPath r) w1 r1 in
                if served0 then (w2, r2)
                else let '(wrapped, r3) :=
                       delegate (fs f) (mkRWCE w2 "" true false) r2 in
                     (w wrapped, r3))
          = (let '(served0, w2, r2) :=
               tryServeCompressedFile TypeByExtension f ".gz" "gzip"
                 (logicalPath r) s0 r in
             if served0 then (w2, r2)
             else let '(wrapped, r3) :=
                    delegate (fs f) (mkRWCE w2 "" true false) r2 in
                  (w wrapped, r3))) as ->.
  { destruct (hasToken ae "br"); [|done].
    by rewrite (tryServeCompressedFile_404 TypeByExtension f ".br" "br")
      by auto. }
  destruct (tryServeCompressedFile_serves ".gz" "gzip" (logicalPath r) s0 r
              gzipped Hsent Hmime Hserves)
    as (Hserved & Hbody & buf & hdrs & Hh & Hfl).
  destruct (tryServeCompressedFile _ _ ".gz" _ _ _ _) as [[served s1] r1].
  cbn [fst snd] in *. subst served. cbn [fst]. split; [exact Hbody|].
  exists hdrs. split; [exact Hh|].
  rewrite !Hfl, appended_inject_Vary. unfold appended, inject, Set_.
  rewrite lookup_insert_ne by done.
  rewrite decide_True by done.
  rewrite lookup_insert_eq, Hce. simpl. split; [done|]. set_solver.
Qed.

End gzip.

(** ** The uncompressed fallback *)

Section fallback_facts.
Variable TypeByExtension : string → string.
Variable f : fileHandler.

(** X22.  A negotiated request without an Accept-Encoding header is
    not probed at all: the header reads as the empty string, in which
    [hasToken] finds neither token, and the delegate is called once, for
    the request as it came, through the auto-header shim made for Vary
    alone.  This holds for any delegate and any writer. *)
Theorem ServeHTTP_without_Accept_Encoding `{ResponseWriter W} (w0 : W)
  (r : Request) :
  isNegotiated r →
  ReqHeader r !! "Accept-Encoding" = None →
  ServeHTTP TypeByExtension f w0 r =
    (w (run (fs f r).1 (mkRWCE w0 "" true false)), (fs f r).2).
Proof.
  intros Hneg Hae.
  assert (Get (ReqHeader r) "Accept-Encoding" = "") as Hget
    by (unfold Get; by rewrite Hae).
  rewrite ServeHTTP_fallback; [|done|by rewrite Hget..].
  unfold delegate. by destruct (fs f r).
Qed.

(** X21.  The uncompressed fallback is never labelled as encoded: for a
    negotiated request where every probe that is made is answered with
    404, whatever goes out has no Content-Encoding, provided the sink
    had none and the delegate sets none itself, and a 200 goes out with
    exactly [Accept-Encoding] under Vary. *)
Theorem fallback_without_Content_Encoding (s0 : Sink) (r : Request) :
  let ae := Get (ReqHeader r) "Accept-Encoding" in
  sent s0 = None →
  headerMap s0 !! "Content-Encoding" = None →
  (∀ q, never_sets "Content-Encoding" (fs f q).1) →
  isNegotiated r →
  keeps_but_path (fs f) →
  (hasToken ae "br" = true →
   first_status (λ code, code = StatusNotFound)
     (fs f (set_Path (logicalPath r +:+ ".br") r)).1) →
  (hasToken ae "gzip" = true →
   first_status (λ code, code = StatusNotFound)
     (fs f (set_Path (logicalPath r +:+ ".gz") r)).1) →
  ∀ code hdrs,
    sent (ServeHTTP TypeByExtension f s0 r).1 = Some (code, hdrs) →
    hdrs !! "Content-Encoding" = None ∧
    (code = StatusOK → hdrs !! "Vary" = Some ["Accept-Encoding"]).
Proof.
  intros ae Hsent Hce Hfs [Hi He] Hk Hbr Hgz.
  assert ((ServeHTTP TypeByExtension f s0 r).1
          = w (delegate (fs f) (mkRWCE s0 "" true false) r).1) as ->.
  { unfold ServeHTTP. rewrite Hi.
    destruct (decide (encodingByExtension _ ≠ "")); [done|].
    fold (logicalPath r). fold ae.
    destruct (hasToken ae "br").
    - rewrite (tryServeCompressedFile_404 TypeByExtension f ".br" "br") by auto.
      destruct (hasToken ae "gzip").
      + rewrite (tryServeCompressedFile_404 TypeByExtension f ".gz" "gzip")
          by auto.
        by destruct (delegate _ _ _).
      + by destruct (delegate _ _ _).
    - destruct (hasToken ae "gzip").
      + rewrite (tryServeCompressedFile_404 TypeByExtension f ".gz" "gzip")
          by auto.
        by destruct (delegate _ _ _).
      + by destruct (delegate _ _ _). }
  unfold delegate. specialize (Hfs r). destruct (fs f r) as [p r']. simpl.
  apply (run_direct "" true (unset_or_kept "Content-Encoding")
           (λ h, h !! "Content-Encoding" = None)
           (λ code hdrs, hdrs !! "Content-Encoding" = None ∧
                         (code = StatusOK →
                          hdrs !! "Vary" = Some ["Accept-Encoding"])));
    [| | |done..].
  - intros h key g Hok HQ0. by apply unset_or_kept_None.
  - intros h HQ0. unfold inject, Set_. rewrite decide_False by (by intros ?).
    simpl. rewrite lookup_insert_ne by done. by rewrite lookup_insert_eq.
  - intros h code Hne HQ0. by split.
Qed.

End fallback_facts.

(** ** Requests for a compressed file by name *)

Section kinds.

(** X11.  The kinds of request, by the path alone: a request is for a
    compressed file by name exactly when its path ends in [.br] or
    [.gz] (such a path never ends in [/index.html]), and it is
    negotiated exactly when its path ends in none of [/index.html],
    [.br] and [.gz]. *)
Theorem request_kinds (r : Request) :
  let p := Path (URL_ r) in
  (isDirectCompressed r ↔
   strings.HasSuffix p ".br" = true ∨ strings.HasSuffix p ".gz" = true) ∧
  (isNegotiated r ↔
   strings.HasSuffix p "/index.html" = false ∧
   strings.HasSuffix p ".br" = false ∧ strings.HasSuffix p ".gz" = false).
Proof.
  intros p. unfold isDirectCompressed, isNegotiated. fold p.
  pose proof (direct_iff_compressed_suffix p) as Hdirect.
  assert (strings.HasSuffix p ".br" = true ∨ strings.HasSuffix p ".gz" = true →
          strings.HasSuffix p "/index.html" = false) as Hindex.
  { rewrite !HasSuffix_true.
    intros [[base ->]|[base ->]]; apply compressed_path; auto. }
  split.
  - rewrite Hdirect. tauto.
  - split.
    + intros [Hi He]. split; [done|].
      destruct (strings.HasSuffix p ".br") eqn:Ebr;
        destruct (strings.HasSuffix p ".gz") eqn:Egz; try done;
        exfalso; apply (proj2 Hdirect); auto.
    + intros (Hi & Hbr & Hgz). split; [done|].
      destruct (decide (encodingByExtension (filepath.Ext p) = ""))
        as [|Hne]; [done|].
      apply Hdirect in Hne as [?|?]; congruence.
Qed.

End kinds.

Section direct.
Variable TypeByExtension : string → string.
Variable f : fileHandler.

(** X12.  A request whose path is [base] followed by [.br] or [.gz] is
    passed to [serveCompressedFile] with that extension, its encoding,
    and [base] as the name that the Content-Type is looked up for; the
    delegate gets the request as it came, and Accept-Encoding is not
    looked at. *)
Theorem ServeHTTP_direct_request `{ResponseWriter W} (w0 : W) (r : Request)
  (base ext : string) :
  ext = ".br" ∨ ext = ".gz" →
  Path (URL_ r) = base +:+ ext →
  ServeHTTP TypeByExtension f w0 r =
    serveCompressedFile TypeByExtension f ext (encodingByExtension ext)
      base false w0 r.
Proof.
  intros Hext Hp. destruct (compressed_path base ext Hext) as (Hi & He & Hb).
  rewrite <-Hp in Hi, He, Hb.
  rewrite ServeHTTP_compressed; rewrite ?He; [|done|].
  - by rewrite Hb.
  - by destruct Hext as [-> | ->].
Qed.

(** The auto-header shim directly over the sink, under a delegate that
    serves a file. *)
Lemma run_sends_direct (p : calls) :
  ∀ (content : list byte) (x : responseWithContentEncoding Sink)
    (st : Z * Header),
    headersSent x = true → sent (w x) = Some st → sends content p →
    sent (w (run p x)) = Some st ∧
    body (w (run p x)) = body (w x) ++ content.
Proof.
  induction p as [|k IH|key g k IH|code k IH|b k IH|src k IH];
    intros content [[hm sn bd] e c hs] st Hhs Hsent Hp;
    simpl in Hhs, Hsent; subst.
  - simpl in *. subst. by rewrite app_nil_r.
  - by apply (IH _ content _ st).
  - simpl in Hp. shims.
    by destruct (IH content
                   (mkRWCE (mkSink (partial_alter g key hm) (Some st) bd)
                      e c true) st) as (? & ?).
  - by apply (IH content _ st).
  - destruct Hp as (rest & -> & Hrest). shims.
    destruct (IH (Z.of_nat (length b), None) rest
                (mkRWCE (mkSink hm (Some st) (bd ++ b)) e c true) st)
      as (? & Hb); [done..|].
    split; [done|]. rewrite Hb. simpl. by rewrite app_assoc.
  - destruct Hp as (rest & -> & Hrest). shims.
    destruct src as [|y src]; simpl.
    + by destruct (IH (0, None) rest
                     (mkRWCE (mkSink hm (Some st) bd) e c true) st) as (? & ?).
    + destruct (IH (Z.of_nat (S (length src)), None) rest
                  (mkRWCE (mkSink hm (Some st) (bd ++ y :: src)) e c true) st)
        as (? & Hb); [done..|].
      split; [done|]. rewrite Hb. simpl. by rewrite <-app_assoc.
Qed.

Lemma commit_then_sends_direct (content : list byte) (q : calls)
  (s0 : Sink) (enc : string) (cg : bool) :
  sent s0 = None → sends content q →
  let s := w (run q (rwce_WriteHeader StatusOK (mkRWCE s0 enc cg false))) in
  body s = body s0 ++ content ∧
  sent s = Some (StatusOK, inject enc cg (headerMap s0)).
Proof.
  intros Hsent Hq s. subst s.
  destruct (rwce_WriteHeader_OK_sent (mkRWCE s0 enc cg false) eq_refl Hsent)
    as [Hs _].
  destruct (rwce_WriteHeader_fields StatusOK (mkRWCE s0 enc cg false))
    as (Hhs & _).
  destruct (run_sends_direct q content _ _ Hhs Hs Hq) as [Hs' Hb'].
  split; [|done]. rewrite Hb'. f_equal.
  rewrite rwce_WriteHeader_first. change (StatusOK =? StatusOK) with true.
  cbv iota. unfold inject_w. destruct s0 as [hm st bd]. simpl in *. subst.
  by destruct (decide (enc ≠ "")), cg.
Qed.

Lemma run_serves_direct (p : calls) :
  ∀ (content : list byte) (s0 : Sink) (enc : string) (cg : bool),
    sent s0 = None → serves content p →
    let s := w (run p (mkRWCE s0 enc cg false)) in
    body s = body s0 ++ content ∧
    ∃ h, sent s = Some (StatusOK, inject enc cg h).
Proof.
  induction p as [|k IH|key g k IH|code k IH|b k IH|src k IH];
    intros content s0 enc cg Hsent Hp.
  - done.
  - apply IH; [done|]. apply Hp.
  - simpl in Hp. simpl. unfold rwce_setHeader, rwce_getHeader. simpl.
    destruct (IH content (mkSink (partial_alter g key (headerMap s0)) (sent s0)
                            (body s0)) enc cg Hsent Hp) as [Hb Hh].
    done.
  - destruct Hp as [-> Hk].
    destruct (commit_then_sends_direct content k s0 enc cg Hsent Hk) as [? ?].
    eauto.
  - assert (run (CallWrite b k) (mkRWCE s0 enc cg false)
            = run (CallWrite b k)
                (rwce_WriteHeader StatusOK (mkRWCE s0 enc cg false))) as ->.
    { cbn [run]. change (Write b ?x) with (rwce_Write b x).
      by rewrite <-rwce_Write_implicit. }
    destruct (commit_then_sends_direct content (CallWrite b k) s0 enc cg
                Hsent Hp) as [? ?].
    eauto.
  - assert (run (CallReadFrom src k) (mkRWCE s0 enc cg false)
            = run (CallReadFrom src k)
                (rwce_WriteHeader StatusOK (mkRWCE s0 enc cg false))) as ->.
    { cbn [run]. change (ReadFrom src ?x) with (rwce_ReadFrom src x).
      by rewrite <-rwce_ReadFrom_implicit. }
    destruct (commit_then_sends_direct content (CallReadFrom src k) s0 enc cg
                Hsent Hp) as [? ?].
    eauto.
Qed.

(** X13.  A compressed file asked for by name is served with its
    encoding, whatever Accept-Encoding says: when the path is [base]
    followed by [.br] or [.gz], the MIME type of [base] is known and the
    delegate serves the file, the response is a 200 whose body is the
    file's bytes, with Content-Encoding [br] or [gzip] according to the
    extension. *)
Theorem direct_compressed_request (s0 : Sink) (r : Request)
  (base ext : string) (content : list byte) :
  sent s0 = None →
  ext = ".br" ∨ ext = ".gz" →
  Path (URL_ r) = base +:+ ext →
  TypeByExtension (filepath.Ext base) ≠ "" →
  serves content (fs f r).1 →
  let s := (ServeHTTP TypeByExtension f s0 r).1 in
  body s = body s0 ++ content ∧
  ∃ hdrs, sent s = Some (StatusOK, hdrs) ∧
          hdrs !! "Content-Encoding" = Some [encodingByExtension ext].
Proof.
  intros Hsent Hext Hp Hmime Hserves s. subst s.
  destruct (compressed_path base ext Hext) as (Hi & He & Hb).
  rewrite <-Hp in Hi, He, Hb.
  rewrite ServeHTTP_compressed; rewrite ?He;
    [|done|by destruct Hext as [-> | ->]].
  rewrite Hb. unfold serveCompressedFile, delegate.
  destruct (fs f r) as [p r']. simpl in Hserves.
  destruct (decide _); [|done]. simpl.
  destruct (run_serves_direct p content
              (setHeader
                 (Set_ "Content-Type" (TypeByExtension (filepath.Ext base))
                    (getHeader s0)) s0)
              (encodingByExtension ext) false) as [Hbody [h Hh]];
    [exact Hsent|exact Hserves|].
  split; [exact Hbody|]. exists (inject (encodingByExtension ext) false h).
  split; [exact Hh|]. unfold inject, Set_.
  destruct (decide _) as [|Hne]; [apply lookup_insert_eq|].
  exfalso. apply Hne. by destruct Hext as [-> | ->].
Qed.

End direct.

(** ** The order of the calls that reach the server's writer *)

Section log_facts.

#[global] Instance Log_HeaderLaws : HeaderLaws Log.
Proof. split; done. Qed.

Lemma started_status (code : Z) (h : Header) : started [GotWriteHeader code h].
Proof. by split. Qed.

Lemma started_snoc (l : list received) (e : received) :
  isStatus e = false → started l → started (l ++ [e]).
Proof.
  intros He [Hne Hl]. split; [by destruct l|].
  destruct l as [|e0 rest]; [done|]. simpl in *.
  apply andb_true_iff in Hl as [-> Hrest]. simpl.
  rewrite forallb_app, Hrest. simpl. by rewrite He.
Qed.

Lemma flushHeader_Log (buf : Header) (l : Log) :
  calls_received (flushHeader buf l) = calls_received l.
Proof.
  destruct (flushHeader_spec buf l) as [[->|[h ->]] _]; done.
Qed.

Context (l0 : Log) (Hl0 : calls_received l0 = []).

Lemma in_order_setHeader (c : connegResponseWriter Log) (h : Header) :
  in_order l0 c → in_order l0 (setHeader h c).
Proof.
  intros [Hu Hc]. split; [by apply untouched_setHeader|].
  destruct c as [sup rw hd wr]. simpl in *. unfold conneg_setHeader. simpl.
  destruct wr, sup; simpl; auto.
Qed.

Lemma in_order_WriteHeader (c : connegResponseWriter Log) (code : Z) :
  in_order l0 c → in_order l0 (WriteHeader code c).
Proof.
  intros [Hu Hc]. split; [by apply untouched_WriteHeader|].
  destruct c as [sup rw hd wr]. simpl in *. unfold conneg_WriteHeader. simpl.
  destruct wr; [done|]. destruct (code =? StatusNotFound); [done|]. simpl.
  intros _ _. rewrite flushHeader_Log.
  destruct Hu as [_ Hreal]. simpl in Hreal. rewrite Hreal by auto.
  rewrite Hl0. apply started_status.
Qed.

Lemma in_order_Write (c : connegResponseWriter Log) (b : list byte) :
  in_order l0 c → in_order l0 (Write b c).2.
Proof.
  intros Hc. split; [by apply untouched_Write; destruct Hc|].
  pose proof (in_order_WriteHeader c StatusOK Hc) as [_ Hc1].
  destruct Hc as [Hu Hc]. destruct c as [sup rw hd wr]. simpl in *.
  unfold conneg_Write. simpl. destruct sup; [done|]. simpl.
  destruct wr; simpl in *.
  - intros _ _. apply started_snoc; auto.
  - unfold conneg_WriteHeader in *. simpl in *.
    change (StatusOK =? StatusNotFound) with false in *. simpl in *.
    intros _ _. apply started_snoc; auto.
Qed.

Lemma in_order_ReadFrom (c : connegResponseWriter Log) (src : list byte) :
  in_order l0 c → in_order l0 (ReadFrom src c).2.
Proof.
  intros Hc. split; [by apply untouched_ReadFrom; destruct Hc|].
  pose proof (in_order_WriteHeader c StatusOK Hc) as [_ Hc1].
  destruct Hc as [Hu Hc]. destruct c as [sup rw hd wr]. simpl in *.
  unfold conneg_ReadFrom, io_Copy. simpl. destruct sup; [done|]. simpl.
  destruct wr; simpl in *.
  - intros _ _. apply started_snoc; auto.
  - unfold conneg_WriteHeader in *. simpl in *.
    change (StatusOK =? StatusNotFound) with false in *. simpl in *.
    intros _ _. apply started_snoc; auto.
Qed.

Lemma in_order_new : in_order l0 (mkConneg false l0 None false).
Proof. split; [apply untouched_new|done]. Qed.

(** What the shim leaves in the log: nothing if it is suppressed, and
    calls in order anyway. *)
Lemma in_order_log (c : connegResponseWriter Log) :
  in_order l0 c →
  (Suppressed c = true → realWriter c = l0) ∧
  status_first_and_once (calls_received (realWriter c)) = true.
Proof.
  intros [[Hb Hreal] Hc]. split; [auto|].
  destruct (wroteHeader c) eqn:Ew.
  - destruct (Suppressed c) eqn:Es.
    + rewrite Hreal by auto. by rewrite Hl0.
    + by destruct Hc.
  - rewrite Hreal by auto. by rewrite Hl0.
Qed.

Lemma run_in_order (p : calls) (c : connegResponseWriter Log) :
  in_order l0 c → in_order l0 (run p c).
Proof.
  intros Hc.
  apply (run_invariant (in_order l0) (λ _ _, True));
    [| | | |apply edits_any|done]; intros.
  - by apply in_order_setHeader.
  - by apply in_order_WriteHeader.
  - by apply in_order_Write.
  - by apply in_order_ReadFrom.
Qed.

Lemma run_rwce_in_order (p : calls)
  (x : responseWithContentEncoding (connegResponseWriter Log)) :
  in_order l0 (w x) → in_order l0 (w (run p x)).
Proof.
  intros Hx.
  destruct (run_rwce_once (in_order l0) (in_order l0)) with p x
    as [[_ ?]|[_ ?]]; try done; intros.
  - by apply in_order_setHeader.
  - by apply in_order_WriteHeader.
  - by apply in_order_setHeader.
  - by apply in_order_Write.
  - by apply in_order_ReadFrom.
  - destruct (headersSent x); auto.
Qed.

(** The auto-header shim directly over the log. *)
Lemma run_rwce_log (p : calls) (enc : string) (cg : bool) :
  status_first_and_once
    (calls_received (w (run p (mkRWCE l0 enc cg false)))) = true.
Proof.
  destruct (run_rwce_once (λ l : Log, calls_received l = [])
              (λ l : Log, started (calls_received l)))
    with p (mkRWCE l0 enc cg false) as [[_ Hl]|[_ [_ Hl]]]; try done.
  - intros l code Hl. simpl. rewrite Hl. apply started_status.
  - intros l b Hl. simpl. by apply started_snoc.
  - intros l src Hl. simpl. by apply started_snoc.
  - left. by split.
  - by rewrite Hl.
Qed.

End log_facts.

Section protocol.
Variable TypeByExtension : string → string.
Variable f : fileHandler.

(** The negotiated path of [ServeHTTP] over any writer: [Fresh] holds of
    the writer until an attempt succeeds, [P] of what a successful
    attempt leaves. *)
Lemma ServeHTTP_negotiated_any `{ResponseWriter W} (Fresh P : W → Prop)
  (w0 : W) (r : Request) :
  isNegotiated r →
  (∀ ext enc w1 q,
     Fresh w1 →
     let out := tryServeCompressedFile TypeByExtension f ext enc
                  (logicalPath r) w1 q in
     if out.1.1 then P out.1.2 else Fresh out.1.2) →
  (∀ w1 q, Fresh w1 → P (w (delegate (fs f) (mkRWCE w1 "" true false) q).1)) →
  Fresh w0 → P (ServeHTTP TypeByExtension f w0 r).1.
Proof.
  intros [Hi He] Htry Hfall H0. unfold ServeHTTP. rewrite Hi.
  destruct (decide (encodingByExtension _ ≠ "")); [done|].
  fold (logicalPath r). set (ae := Get _ _).
  assert (∀ w1 q, Fresh w1 →
            P (let '(wrapped, r3) :=
                 delegate (fs f) (mkRWCE w1 "" true false) q in
               (w wrapped, r3)).1) as Hfall'.
  { intros w1 q H1. specialize (Hfall w1 q H1). by destruct (delegate _ _ _). }
  assert (∀ w1 q, Fresh w1 →
            P (let '(served, w2, r2) :=
                 if hasToken ae "gzip"
                 then tryServeCompressedFile TypeByExtension f ".gz" "gzip"
                        (logicalPath r) w1 q
                 else (false, w1, q) in
               if served then (w2, r2)
               else let '(wrapped, r3) :=
                      delegate (fs f) (mkRWCE w2 "" true false) r2 in
                    (w wrapped, r3)).1) as Hgz.
  { intros w1 q H1. destruct (hasToken ae "gzip"); [|by apply Hfall'].
    pose proof (Htry ".gz" "gzip" w1 q H1) as Hq. simpl in Hq.
    destruct (tryServeCompressedFile _ _ ".gz" _ _ _ _) as [[served w2] q'].
    simpl in Hq. destruct served; [done|]. by apply Hfall'. }
  destruct (hasToken ae "br"); [|by apply Hgz].
  pose proof (Htry ".br" "br" w0 r H0) as Hq. simpl in Hq.
  destruct (tryServeCompressedFile _ _ ".br" _ _ _ _) as [[served w1] q'].
  simpl in Hq. destruct served; [done|]. by apply Hgz.
Qed.

(** X14.  Whatever the delegate does, and however often it writes a
    status, for a negotiated request the server's writer gets its calls
    in order: none at all, or one status call first and only writes of
    bytes after it.  Neither shim passes a second status on, and both
    write the status before the first byte. *)
Theorem negotiated_status_first_and_once (h0 : Header) (r : Request) :
  isNegotiated r →
  status_first_and_once
    (calls_received (ServeHTTP TypeByExtension f (mkLog h0 []) r).1) = true.
Proof.
  intros Hneg.
  apply (ServeHTTP_negotiated_any (λ l, calls_received l = [])
           (λ l, status_first_and_once (calls_received l) = true));
    [done| | |done].
  - intros ext enc l1 q Hl1. simpl. unfold tryServeCompressedFile.
    unfold serveCompressedFile, delegate.
    destruct (fs f (set_Path (logicalPath r +:+ ext) q)) as [p q'].
    assert (∀ c : connegResponseWriter Log,
              in_order l1 c →
              if negb (Suppressed c)
              then status_first_and_once (calls_received (realWriter c)) = true
              else calls_received (realWriter c) = []) as Hfin.
    { intros c Hc. destruct (in_order_log l1 Hl1 c Hc) as [Hs Hok].
      destruct (Suppressed c); simpl; [by rewrite Hs|done]. }
    destruct (decide _); simpl; apply Hfin.
    + apply run_rwce_in_order; [done|]. simpl.
      apply (in_order_setHeader l1 _ _). apply in_order_new.
    + apply run_in_order; [done|]. apply in_order_new.
  - intros l1 q Hl1. unfold delegate. destruct (fs f q) as [p q']. simpl.
    by apply run_rwce_log.
Qed.

End protocol.

(** ** The header-injection handler *)

Section AddHeaders_facts.
Import testhandlers.

(** X16.  What one [header] parameter stands for: the name is what is
    before its first colon and the value what is after it, further
    colons included; a parameter without a colon is all name, with the
    empty value.  The name holds no colon either way. *)
Theorem headerField_spec (hhh : string) :
  let '(name, v) := headerField hhh in
  has_no_colon name ∧ ((hhh = name ∧ v = "") ∨ hhh = name +:+ ":" +:+ v).
Proof.
  unfold headerField, strings.SplitN.
  change (2 =? 0) with false. change (2 <? 0) with false. cbv iota.
  change (Z.to_nat (2 - 1)) with 1%nat. cbn [strings.genSplit_loop].
  destruct (Z.ltb_spec (strings.Index hhh ":") 0) as [Hi|Hi].
  - simpl. split; [by apply Index_absent|by left].
  - destruct (Index_split hhh ":" Hi) as (pre & post & Heq & Hlen).
    assert (Z.to_nat (strings.Index hhh ":") = String.length pre) as -> by lia.
    assert (strings.upto (String.length pre) hhh = pre) as ->
      by (rewrite Heq; apply upto_append).
    assert (strings.from (String.length pre + String.length ":") hhh = post)
      as ->.
    { rewrite Heq, <-append_assoc, <-length_append. apply from_append. }
    simpl. split; [|by right]. apply (Index_first pre post).
    unfold strings.len. by rewrite Hlen, Heq.
Qed.

(** In [AddHeaders] the index expressions [hhhh[0]] and [hhhh[1]] are in
    range. *)
Lemma headerField_in_range (hhh : string) :
  let hhhh := strings.SplitN hhh ":" 2 in
  is_Some (hhhh !! 0%nat) ∧
  (1 < Z.of_nat (length hhhh) → is_Some (hhhh !! 1%nat)).
Proof.
  unfold strings.SplitN.
  change (2 =? 0) with false. change (2 <? 0) with false. cbv iota.
  change (Z.to_nat (2 - 1)) with 1%nat. cbn [strings.genSplit_loop].
  destruct (strings.Index hhh ":" <? 0); simpl; split; eauto. lia.
Qed.

Context {W : Type} `{HeaderLaws W}.

Lemma run_CallHeaderAdd (name v : string) (k : calls) (w0 : W) :
  run (CallHeaderAdd name v k) w0 =
  run k (setHeader
           (Add (textproto.CanonicalMIMEHeaderKey name) v (getHeader w0)) w0).
Proof.
  unfold CallHeaderAdd. cbn [run]. do 2 f_equal. unfold Add.
  apply map_eq. intros key.
  destruct (decide (textproto.CanonicalMIMEHeaderKey name = key)) as [<-|Hne].
  - rewrite lookup_partial_alter_eq, lookup_insert_eq. done.
  - by rewrite lookup_partial_alter_ne, lookup_insert_ne.
Qed.

Lemma values_for_cons (key hhh : string) (ps : list string) :
  values_for key (hhh :: ps) =
  (if decide (textproto.CanonicalMIMEHeaderKey (headerField hhh).1 = key)
   then [(headerField hhh).2] else []) ++ values_for key ps.
Proof.
  unfold values_for. simpl. destruct (headerField hhh) as [name v]. simpl.
  by destruct (decide _).
Qed.

(** The calls of [Add] that [AddHeaders] makes, one per parameter. *)
Lemma run_header_params (p : calls) (ps : list string) :
  ∀ w0 : W,
    ∃ w1 : W,
      run (foldr (λ hhh k, let '(name, v) := headerField hhh in
                           CallHeaderAdd name v k) p ps) w0
      = run p w1 ∧
      (w1 = w0 ∨ ∃ hm, w1 = setHeader hm w0) ∧
      ∀ key, getHeader w1 !! key =
             if decide (values_for key ps = []) then getHeader w0 !! key
             else Some (default [] (getHeader w0 !! key) ++ values_for key ps).
Proof.
  induction ps as [|hhh ps IH]; intros w0.
  - exists w0. simpl. auto.
  - cbn [foldr]. rewrite (surjective_pairing (headerField hhh)).
    rewrite run_CallHeaderAdd.
    set (key0 := textproto.CanonicalMIMEHeaderKey (headerField hhh).1).
    set (v := (headerField hhh).2).
    destruct (IH (setHeader (Add key0 v (getHeader w0)) w0))
      as (w1 & Hrun & Hshape & Hlook).
    exists w1. split; [exact Hrun|]. split.
    { right. destruct Hshape as [->|[hm ->]]; [eauto|].
      rewrite setHeader_setHeader. eauto. }
    intros key. rewrite Hlook, getHeader_setHeader, values_for_cons.
    fold key0 v. unfold Add.
    destruct (decide (key0 = key)) as [<-|Hne].
    + rewrite lookup_insert_eq. simpl.
      destruct (decide (values_for key0 ps = [])) as [->|Hvs]; [done|].
      by rewrite <-app_assoc.
    + by rewrite lookup_insert_ne.
Qed.

(** X17.  [AddHeaders(h)] first adds to the response headers and then
    runs [h], once, on the same request.  Before [h] makes its first
    call, every key holds the values it held on entry followed by the
    values of the [header] parameters whose canonical name it is, one per
    parameter and in their order; nothing is replaced or removed, and a
    key that no parameter names is as it was.  Of the writer only the
    header map has changed. *)
Theorem AddHeaders_spec (h : Handler) (r : Request) (w0 : W) :
  let ps := default [] (Query (URL_ r) !! "header") in
  (AddHeaders h r).2 = (h r).2 ∧
  ∃ w1 : W,
    run (AddHeaders h r).1 w0 = run (h r).1 w1 ∧
    (w1 = w0 ∨ ∃ hm, w1 = setHeader hm w0) ∧
    ∀ key, getHeader w1 !! key =
           if decide (values_for key ps = []) then getHeader w0 !! key
           else Some (default [] (getHeader w0 !! key) ++ values_for key ps).
Proof.
  intros ps. unfold AddHeaders. fold ps. destruct (h r) as [p r'].
  split; [done|]. cbn [fst]. apply run_header_params.
Qed.

End AddHeaders_facts.

(** ** The helper of the tests *)

Section areEqual_facts.
Import testhandlers_test.

Lemma areEqual_loop_spec (g : list string) :
  ∀ (i : nat) (e : list string),
    (i + length g = length e)%nat →
    areEqual_loop i g e = Some (bool_decide (g = drop i e)).
Proof.
  induction g as [|v g IH]; intros i e Hlen; simpl in *.
  - rewrite drop_ge by lia. done.
  - destruct (lookup_lt_is_Some_2 e i) as [x Hx]; [lia|]. rewrite Hx.
    rewrite (drop_S _ _ _ Hx).
    destruct (decide (v ≠ x)) as [Hne|Heq].
    + rewrite bool_decide_eq_false_2; [done|]. by intros [= ? _].
    + apply dec_stable in Heq as ->. rewrite IH by lia.
      f_equal. apply bool_decide_ext. split; [by intros ->|by intros [= ->]].
Qed.

(** X18.  [areEqual] decides equality of two slices of strings, and
    never panics: the length check before the loop keeps [e[i]] in range
    for every pair of slices. *)
Theorem areEqual_spec (g e : list string) :
  areEqual g e = Some (bool_decide (g = e)).
Proof.
  unfold areEqual. destruct (decide (length g ≠ length e)) as [Hne|Heq].
  - rewrite bool_decide_eq_false_2; [done|]. by intros ->.
  - rewrite areEqual_loop_spec by lia. done.
Qed.

End areEqual_facts.

(** ** The further properties on the test fixtures *)

Section shim_examples.
Import encneg_test.

Lemma conneg_buffers_headers_witness :
  let p := EditHeader "Content-Type" (λ _, Some ["text/html"])
             (ReadHeader (λ _, Return)) in
  only_headers p ∧
  let c := run p (mkConneg false newSink None false) in
  realWriter c = newSink ∧
  getHeader c = headerMap (mkSink {[ "Content-Type" := ["text/html"] ]} None []).
Proof.
  intros p. assert (only_headers p) as Hp by (by simpl).
  split; [exact Hp|].
  destruct (conneg_buffers_headers p newSink Hp) as (Hreal & _ & _ & Hh).
  split; [exact Hreal|]. exact Hh.
Defined.

Lemma conneg_transparent_unless_NotFound_witness :
  let p := localRedirect "./" in
  (sent newSink = None ∧ headerMap newSink = ∅ ∧
   first_status (λ code, code ≠ StatusNotFound) p) ∧
  Suppressed (run p (mkConneg false newSink None false)) = false ∧
  realWriter (run p (mkConneg false newSink None false)) = run p newSink.
Proof.
  intros p.
  assert (first_status (λ code, code ≠ StatusNotFound) p) as Hp
    by (simpl; discriminate).
  split; [by repeat split|].
  exact (conneg_transparent_unless_NotFound p newSink eq_refl eq_refl Hp).
Defined.

Lemma rwce_transparent_unless_OK_witness :
  let p := Error "404 page not found" StatusNotFound in
  first_status (λ code, code ≠ StatusOK) p ∧
  w (run p (mkRWCE newSink "br" true false)) = run p newSink.
Proof.
  intros p.
  assert (first_status (λ code, code ≠ StatusOK) p) as Hp
    by (simpl; discriminate).
  split; [exact Hp|].
  exact (rwce_transparent_unless_OK p newSink "br" true Hp).
Defined.

Lemma rwce_first_write_sends_OK_witness :
  let b := String.list_byte_of_string "abc" in
  let r := mkRWCE newSink "gzip" true false in
  let hdrs := inject "gzip" true ∅ in
  let s := mkSink hdrs (Some (StatusOK, hdrs)) b in
  sent newSink = None ∧
  rwce_Write b r = ((3, None), mkRWCE s "gzip" true true) ∧
  rwce_ReadFrom b r = ((3, None), mkRWCE s "gzip" true true).
Proof.
  intros b r hdrs s. split; [reflexivity|].
  exact (rwce_first_write_sends_OK newSink "gzip" true b eq_refl).
Defined.

End shim_examples.

Section probe_examples.
Import encneg_test.

Lemma serveContent_first_status (P : Z → Prop) (ctype : string)
  (content : list byte) :
  P StatusOK → first_status P (serveContent ctype content).
Proof.
  intros HP. unfold serveContent. simpl. intros h.
  destruct (decide (is_Some (h !! "Content-Type"))); simpl; intros h';
    by destruct (decide (Get h' "Content-Encoding" = "")).
Qed.

(** The stand-in file server names a 200 first for a file it has. *)
Lemma http_FileServer_first_status (P : Z → Prop)
  (files : gmap string string) (q : Request) (content : string) :
  strings.HasSuffix (Path (URL_ q)) "/index.html" = false →
  isDir files (Path (URL_ q)) = false →
  files !! logicalPath q = Some content →
  P StatusOK → first_status P (http_FileServer files q).1.
Proof.
  intros Hi Hdir Hfile HP. unfold http_FileServer. cbn [fst].
  rewrite Hi, Hdir, andb_false_r.
  fold (logicalPath q). rewrite Hfile. by apply serveContent_first_status.
Qed.

Lemma tryServeCompressedFile_reports_witness :
  let r := NewRequest "/with.br/foo.html" "br,gzip" in
  let try_ ext enc :=
    tryServeCompressedFile TypeByExtension fs ext enc "/with.br/foo.html"
      newSink r in
  (first_status (λ code, code = StatusNotFound)
     (encneg.fs fs (set_Path ("/with.br/foo.html" +:+ ".gz") r)).1 ∧
   first_status (λ code, code ≠ StatusNotFound)
     (encneg.fs fs (set_Path ("/with.br/foo.html" +:+ ".br") r)).1) ∧
  (try_ ".gz" "gzip").1.1 = false ∧ (try_ ".br" "br").1.1 = true.
Proof.
  intros r try_.
  assert (first_status (λ code, code = StatusNotFound)
            (encneg.fs fs (set_Path ("/with.br/foo.html" +:+ ".gz") r)).1)
    as Hgz by (vm_compute; reflexivity).
  assert (first_status (λ code, code ≠ StatusNotFound)
            (encneg.fs fs (set_Path ("/with.br/foo.html" +:+ ".br") r)).1)
    as Hbr.
  { apply (http_FileServer_first_status _ fsmap _
             "foo, brotli, with uncompressed alternative");
      [reflexivity..|discriminate]. }
  split; [by split|]. split.
  - exact (proj1 (tryServeCompressedFile_reports TypeByExtension fs ".gz" "gzip"
                    "/with.br/foo.html" newSink r) Hgz).
  - exact (proj2 (tryServeCompressedFile_reports TypeByExtension fs ".br" "br"
                    "/with.br/foo.html" newSink r) Hbr).
Defined.

Lemma ServeHTTP_without_Accept_Encoding_witness :
  let r := NewRequest "/with.br/foo.html" "" in
  (isNegotiated r ∧ ReqHeader r !! "Accept-Encoding" = None) ∧
  ServeHTTP TypeByExtension fs newSink r =
    (w (run (encneg.fs fs r).1 (mkRWCE newSink "" true false)),
     (encneg.fs fs r).2).
Proof.
  intros r.
  assert (isNegotiated r) as Hneg by (split; reflexivity).
  split; [by split|].
  exact (ServeHTTP_without_Accept_Encoding TypeByExtension fs newSink r
           Hneg eq_refl).
Defined.

Lemma fallback_without_Content_Encoding_witness :
  let r := NewRequest "/uncompressed/foo.html" "br,gzip" in
  let s := (ServeHTTP TypeByExtension fs newSink r).1 in
  (sent newSink = None ∧ isNegotiated r) ∧
  ∃ hdrs, sent s = Some (StatusOK, hdrs) ∧
          hdrs !! "Content-Encoding" = None ∧
          hdrs !! "Vary" = Some ["Accept-Encoding"].
Proof.
  intros r s.
  assert (isNegotiated r) as Hneg by (split; reflexivity).
  split; [by split|].
  exists (default ∅ (snd <$> sent s)).
  assert (sent s = Some (StatusOK, default ∅ (snd <$> sent s))) as Hs
    by (vm_compute; reflexivity).
  split; [exact Hs|].
  destruct (fallback_without_Content_Encoding TypeByExtension fs newSink r
              eq_refl eq_refl) with StatusOK (default ∅ (snd <$> sent s))
    as [Hce Hvary].
  - intros q. apply avoids_never_sets, http_FileServer_avoids.
    apply (bool_decide_unpack _). reflexivity.
  - exact Hneg.
  - apply http_FileServer_keeps.
  - intros _. vm_compute. reflexivity.
  - intros _. vm_compute. reflexivity.
  - exact Hs.
  - split; [exact Hce|exact (Hvary eq_refl)].
Defined.

Lemma failed_probe_leaves_writer_witness :
  let r := NewRequest "/with.br/foo.html" "gzip" in
  let out := tryServeCompressedFile TypeByExtension fs ".gz" "gzip"
               "/with.br/foo.html" newSink r in
  out.1.1 = false ∧ out.1.2 = newSink.
Proof.
  intros r out.
  assert (∀ x : bool * Sink * Request, x = (x.1.1, x.1.2, x.2)) as Heta
    by (by intros [[??]?]).
  assert (out.1.1 = false) as Hf by reflexivity.
  split; [exact Hf|].
  apply (failed_probe_leaves_writer TypeByExtension fs ".gz" "gzip"
           "/with.br/foo.html" newSink r out.1.2 out.2).
  exact (eq_trans (Heta out) (f_equal (λ b, (b, out.1.2, out.2)) Hf)).
Defined.

Lemma ServeHTTP_no_variant_witness :
  let r := NewRequest "/uncompressed/foo.html" "br,gzip" in
  (isNegotiated r ∧ (∀ q, (encneg.fs fs q).2 = q)) ∧
  ServeHTTP TypeByExtension fs newSink r =
    (w (run (encneg.fs fs r).1 (mkRWCE newSink "" true false)), r).
Proof.
  intros r.
  assert (isNegotiated r) as Hneg by (split; reflexivity).
  assert (∀ q, (encneg.fs fs q).2 = q) as Hfs by (intros q; reflexivity).
  split; [by split|].
  apply (ServeHTTP_no_variant TypeByExtension fs newSink r Hneg Hfs);
    intros _; vm_compute; reflexivity.
Defined.

Lemma Gzip_when_Brotli_missing_witness :
  let r := NewRequest "/with.gz/foo.html" "br,gzip" in
  let s := (ServeHTTP TypeByExtension fs newSink r).1 in
  (sent newSink = None ∧ isNegotiated r ∧
   hasToken (Get (ReqHeader r) "Accept-Encoding") "gzip" = true) ∧
  body s = String.list_byte_of_string
             "foo, gzip, with uncompressed alternative" ∧
  ∃ hdrs, sent s = Some (StatusOK, hdrs) ∧
          hdrs !! "Content-Encoding" = Some ["gzip"] ∧
          "Accept-Encoding" ∈ default [] (hdrs !! "Vary").
Proof.
  intros r s.
  assert (isNegotiated r) as Hneg by (split; reflexivity).
  split; [by repeat split|].
  apply (Gzip_when_Brotli_missing TypeByExtension fs newSink r
           (String.list_byte_of_string
              "foo, gzip, with uncompressed alternative"));
    [reflexivity|reflexivity|exact Hneg|vm_compute; discriminate
    |apply http_FileServer_keeps|intros _; vm_compute; reflexivity
    |reflexivity|apply http_FileServer_serves; reflexivity].
Defined.

Lemma ServeHTTP_direct_request_witness :
  let r := NewRequest "/with.br/foo.html.br" "" in
  Path (URL_ r) = "/with.br/foo.html" +:+ ".br" ∧
  ServeHTTP TypeByExtension fs newSink r =
    serveCompressedFile TypeByExtension fs ".br" "br" "/with.br/foo.html"
      false newSink r.
Proof.
  intros r. split; [reflexivity|].
  exact (ServeHTTP_direct_request TypeByExtension fs newSink r
           "/with.br/foo.html" ".br" (or_introl eq_refl) eq_refl).
Defined.

Lemma direct_compressed_request_witness :
  let r := NewRequest "/with.br/foo.html.br" "" in
  let s := (ServeHTTP TypeByExtension fs newSink r).1 in
  (sent newSink = None ∧ Path (URL_ r) = "/with.br/foo.html" +:+ ".br") ∧
  body s = String.list_byte_of_string
             "foo, brotli, with uncompressed alternative" ∧
  ∃ hdrs, sent s = Some (StatusOK, hdrs) ∧
          hdrs !! "Content-Encoding" = Some ["br"].
Proof.
  intros r s. split; [by split|].
  apply (direct_compressed_request TypeByExtension fs newSink r
           "/with.br/foo.html" ".br"
           (String.list_byte_of_string
              "foo, brotli, with uncompressed alternative"));
    [reflexivity|left; reflexivity|reflexivity|vm_compute; discriminate
    |apply http_FileServer_serves; reflexivity].
Defined.

Lemma negotiated_status_first_and_once_witness :
  let r := NewRequest "/with.br/foo.html" "br" in
  let l := (ServeHTTP TypeByExtension fs (mkLog ∅ []) r).1 in
  isNegotiated r ∧ length (calls_received l) = 2%nat ∧
  status_first_and_once (calls_received l) = true.
Proof.
  intros r l.
  assert (isNegotiated r) as Hneg by (split; reflexivity).
  split; [exact Hneg|]. split; [vm_compute; reflexivity|].
  exact (negotiated_status_first_and_once TypeByExtension fs ∅ r Hneg).
Defined.

Lemma ServeHTTP_request_witness :
  let r := NewRequest "/with.gz/" "gzip" in
  (∀ q, (encneg.fs fs q).2 = q) ∧
  (ServeHTTP TypeByExtension fs newSink r).2 = r.
Proof.
  intros r.
  assert (∀ q, (encneg.fs fs q).2 = q) as Hfs by (intros q; reflexivity).
  split; [exact Hfs|].
  exact (ServeHTTP_request TypeByExtension fs newSink r Hfs).
Defined.

End probe_examples.

Section AddHeaders_examples.

Lemma AddHeaders_spec_witness :
  let r := testhandlers_test.headerRequest ["x-foo:bar"; "X-FOO:baz:qux"] in
  let h := testhandlers_test.handler in
  ∃ s1 : Sink,
    run (testhandlers.AddHeaders h r).1 newSink = run (h r).1 s1 ∧
    getHeader s1 !! "X-Foo" = Some ["bar"; "baz:qux"].
Proof.
  intros r h.
  destruct (AddHeaders_spec h r newSink) as (_ & s1 & Hrun & _ & Hlook).
  exists s1. split; [exact Hrun|].
  exact (eq_trans (Hlook "X-Foo") eq_refl).
Defined.

End AddHeaders_examples.

(** ** The repository's tests, replayed *)

Section tests.
Import encneg_test.

Lemma TestHasToken :
  Forall (λ a, hasToken (ae_ a) "gzip" = expectsGzip a ∧
               hasToken (ae_ a) "br" = expectsBrotli a)
         (hasTokenTests ++ aes).
Proof. repeat constructor. Qed.

Lemma TestFileServerDirectoryRedirects :
  length directoryRedirects = 40%nat ∧ forallb doTest directoryRedirects = true.
Proof. by vm_compute. Qed.

Lemma TestFileServerDirectCompressedFiles :
  length directCompressedFiles = 80%nat ∧
  forallb doTest directCompressedFiles = true.
Proof. by vm_compute. Qed.

Lemma TestFileServerNegotiateEncoding :
  length negotiateEncoding = 40%nat ∧ forallb doTest negotiateEncoding = true.
Proof. by vm_compute. Qed.

(** The rows of [TestAddHeaders]. *)
Lemma TestAddHeaders :
  forallb testhandlers_test.doTestAddHeaders testhandlers_test.addHeadersTests
  = true.
Proof. by vm_compute. Qed.

(** The checks of [TestGetWriter] that do not decompress: [WriteHeader]
    still takes effect after [GetWriter], the writer is a gzip writer
    exactly when gzip is expected, and otherwise it is the recorder,
    which then has the bytes written to it. *)
Lemma TestGetWriter :
  Forall (λ a,
            let out := GetWriter newSink (NewRequest "/" (ae_ a)) in
            let rec := WriteHeader StatusNotFound (dst_of out) in
            Code rec = Some StatusNotFound ∧
            isGzip out = expectsGzip a ∧
            (expectsGzip a = false →
             Body (Write (String.list_byte_of_string "Hello World!") rec).2
             = "Hello World!"))
         aes.
Proof. repeat constructor; by vm_compute. Qed.

(** The keys that the packages pass to [Get], [Set] and [Add] as
    literals are canonical. *)
Lemma literal_keys_canonical :
  Forall (λ key, textproto.CanonicalMIMEHeaderKey key = key)
    ["Accept-Encoding"; "Content-Encoding"; "Content-Type"; "Vary"].
Proof. repeat constructor. Qed.

End tests.
